(** * fa-2-iconify: the normalisation / reconciliation pipeline and its staging store

  A shallow embedding of the TypeScript sources

    - [src/utils/svg.ts]                (module [Svg])
    - [src/services/kitParserService.ts] (module [KitParserService])
    - [src/services/databaseService.ts]  (module [DatabaseService])
    - the export loop of [generatePackage] (module [PackageGenerator])
    - [src/services/kitValidationService.ts] (module [KitValidationService])
    - [isValidPackageName] and [isValidSemver] (module [PackageValidation])
    - [parseSvgFile] and the loop of [parseKit] of the single-file
      version of the converter (module [Monolith])

  together with the parts of the JavaScript run time they call
  ([String.prototype.trim], [match], [split], [Number.parseFloat],
  number-to-string conversion, [JSON.stringify] / [JSON.parse]) and of
  SQLite ([INSERT OR REPLACE] under the NOT NULL constraints and the
  INTEGER affinity of the columns, [LIKE] with the limit on the length
  of its pattern, [ORDER BY]).

  Conventions of the embedding.
    - A JavaScript string is a [string]; each [ascii] is one code unit in
      the range 0..255 (Latin-1).  Code units above 255 are outside the
      model.
    - A JavaScript number is an IEEE 754 binary64 value, [spec_float] with
      precision 53 and maximal exponent 1024.
    - [undefined] / [null] are [None]; a thrown exception or rejected
      promise is [None] in the result of the function that can throw, and
      [Rejected] in the result of [parseKit], which keeps the database as
      the inserts before the throw left it.
    - JavaScript objects used as dictionaries are [gmap string _], the map
      of their own properties; reading a property finds the members of
      [Object.prototype] too, and an assignment to [__proto__] creates no
      property (module [JsObject]). *)

From Stdlib Require Import ZArith String Ascii List Bool Lia SpecFloat DecimalString.
From Stdlib Require Import Sorting.Sorted Sorting.Permutation.
From Stdlib Require DecimalN DecimalFacts.
From stdpp Require Import base option list gmap strings sorting.

Local Open Scope string_scope.
Local Open Scope Z_scope.
#[local] Arguments String.append !_ _ / : simpl nomatch.

(** ** JavaScript strings *)

Module JsString.

Definition code (c : ascii) : N := N_of_ascii c.

(** WhiteSpace and LineTerminator code units below 256: TAB, LF, VT, FF, CR,
    SPACE and NO-BREAK SPACE.  This is the set used by [trim], by the
    regular-expression class [\s] and by [parseFloat]. *)
Definition is_white (c : ascii) : bool :=
  let n := code c in
  ((9 <=? n) && (n <=? 13) || (n =? 32) || (n =? 160))%N.

Definition is_digit (c : ascii) : bool :=
  let n := code c in ((48 <=? n) && (n <=? 57))%N.

Definition is_upper (c : ascii) : bool :=
  let n := code c in ((65 <=? n) && (n <=? 90))%N.

(** Simple case folding of the ASCII letters. *)
Definition lower (c : ascii) : ascii :=
  if is_upper c then ascii_of_N (code c + 32) else c.

Fixpoint lowercase (s : string) : string :=
  match s with
  | EmptyString => EmptyString
  | String c s' => String (lower c) (lowercase s')
  end.

(** The double quote, as a code unit and as a one-character string. *)
Definition dquote : ascii := ascii_of_N 34.
Definition quote : string := String dquote "".

(** Writing aid for examples: the text [s] with every apostrophe replaced
    by a double quote. *)
Fixpoint dq (s : string) : string :=
  match s with
  | EmptyString => EmptyString
  | String c s' => String (if Ascii.eqb c "'" then dquote else c) (dq s')
  end.

Definition is_empty (s : string) : bool :=
  match s with EmptyString => true | _ => false end.

(** [!s] of JavaScript, for a string. *)
Definition falsy (s : string) : bool := is_empty s.

Fixpoint trimStart (s : string) : string :=
  match s with
  | String c s' => if is_white c then trimStart s' else s
  | EmptyString => EmptyString
  end.

Fixpoint trimEnd (s : string) : string :=
  match s with
  | EmptyString => EmptyString
  | String c s' =>
      let t := trimEnd s' in
      if is_white c && is_empty t then EmptyString else String c t
  end.

Definition trim (s : string) : string := trimEnd (trimStart s).

Fixpoint all (p : ascii -> bool) (s : string) : bool :=
  match s with
  | EmptyString => true
  | String c s' => p c && all p s'
  end.

(** [Array.prototype.join] on an array of strings. *)
Fixpoint join (sep : string) (l : list string) : string :=
  match l with
  | [] => ""
  | [x] => x
  | x :: l' => x ++ sep ++ join sep l'
  end.

(** [s.startsWith(prefix)]. *)
Fixpoint startsWith (s prefix : string) : bool :=
  match prefix, s with
  | EmptyString, _ => true
  | String a prefix', String b s' => Ascii.eqb a b && startsWith s' prefix'
  | String _ _, EmptyString => false
  end.

(** [s.endsWith(suffix)]. *)
Definition endsWith (s suffix : string) : bool :=
  let n := String.length s in
  let k := String.length suffix in
  (k <=? n)%nat && String.eqb (substring (n - k) k s) suffix.

(** [s.split(/[set]+/)] for a character class [set]: the pieces between
    the maximal runs of separator characters; a run at either end leaves
    an empty piece there, and the empty string splits into one empty
    piece. *)
Fixpoint split_run (set : ascii -> bool) (cur : string) (s : string) : list string :=
  match s with
  | EmptyString => [cur]
  | String c s' =>
      if set c then
        match s' with
        | String d _ => if set d then split_run set cur s' else cur :: split_run set "" s'
        | EmptyString => [cur; ""]
        end
      else split_run set (cur ++ String c "") s'
  end.

Definition split (set : ascii -> bool) (s : string) : list string :=
  split_run set "" s.

(** The text as SQLite's string functions read it: up to its first NUL
    character. *)
Fixpoint c_string (s : string) : string :=
  match s with
  | EmptyString => EmptyString
  | String c s' => if (code c =? 0)%N then EmptyString else String c (c_string s')
  end.

(** The number of bytes of the UTF-8 encoding of the text: one for a
    code unit below 128, two for the others. *)
Fixpoint utf8_length (s : string) : N :=
  match s with
  | EmptyString => 0
  | String c s' => ((if code c <? 128 then 1 else 2) + utf8_length s')%N
  end.

(** The UTF-16 code units of a text, for the results that leave the
    range 0..255. *)
Fixpoint units (s : string) : list N :=
  match s with
  | EmptyString => []
  | String c s' => code c :: units s'
  end.

(** [c.toUpperCase()] for a text of one code unit: the letters a-z and
    the letters U+00E0..U+00FE (the division sign U+00F7 apart) move
    down by 32, the sharp s U+00DF becomes SS, and the micro sign
    U+00B5 and the y with diaeresis U+00FF become U+039C and U+0178. *)
Definition toUpperCase (c : ascii) : list N :=
  let n := code c in
  if ((97 <=? n) && (n <=? 122))%N then [n - 32]%N
  else if (n =? 181)%N then [924%N]
  else if (n =? 223)%N then [83%N; 83%N]
  else if ((224 <=? n) && (n <=? 254) && negb (n =? 247))%N then [n - 32]%N
  else if (n =? 255)%N then [376%N]
  else [n].

End JsString.

(** ** Plain objects used as dictionaries

  An object created by an object literal or by [JSON.parse] has the
  prototype [Object.prototype].  Reading [o[key]] finds an own property
  first and the members of the prototype after it: its twelve members
  are functions, but for [__proto__], an accessor that reads the
  prototype itself; all of them are truthy and none of them has a
  property the sources read.  Writing [o[key] = v] creates or replaces
  an own property, but for the key [__proto__]: that assignment calls
  the accessor, which makes [v] the prototype and creates no property. *)

Module JsObject.

Definition prototype_names : list string :=
  ["constructor"; "__defineGetter__"; "__defineSetter__"; "hasOwnProperty";
   "__lookupGetter__"; "__lookupSetter__"; "isPrototypeOf"; "propertyIsEnumerable";
   "toString"; "valueOf"; "__proto__"; "toLocaleString"].

Definition inherited (key : string) : bool :=
  existsb (String.eqb key) prototype_names.

(** What [o[key]] finds. *)
Inductive property (A : Type) :=
| Own (a : A)
| Inherited
| Undefined.
#[global] Arguments Own {A} a.
#[global] Arguments Inherited {A}.
#[global] Arguments Undefined {A}.

(** [o[key]] for an object [o] with the own properties [own] and the
    prototype [Object.prototype]. *)
Definition get {A} (own : gmap string A) (key : string) : property A :=
  match own !! key with
  | Some a => Own a
  | None => if inherited key then Inherited else Undefined
  end.

(** The own properties after [o[key] = v]. *)
Definition assign {A} (key : string) (v : A) (own : gmap string A) : gmap string A :=
  if String.eqb key "__proto__" then own else <[key := v]> own.

End JsObject.

(** ** Regular expressions

  The fragment of ECMAScript regular expressions the sources use: a
  pattern is a sequence of literal runs and of quantified character
  classes [set{min,}], greedy or lazy, each optionally wrapped in a
  capture group.  Matching backtracks in the order ECMAScript prescribes
  (greedy: longest first; lazy: shortest first). *)

Module RegExp.
Import JsString.

Inductive quantifier := Greedy | Lazy.

Inductive node :=
| Chars (lit : string)
| Class (set : ascii -> bool) (min : nat) (q : quantifier) (capture : bool).

Record t := { source : list node; ignoreCase : bool }.

Definition same (ci : bool) (a b : ascii) : bool :=
  if ci then Ascii.eqb (lower a) (lower b) else Ascii.eqb a b.

(** Consume the literal [lit] at the head of [s]. *)
Fixpoint eat (ci : bool) (lit s : string) : option string :=
  match lit, s with
  | EmptyString, _ => Some s
  | String a lit', String b s' => if same ci a b then eat ci lit' s' else None
  | String _ _, EmptyString => None
  end.

(** [set{min,}] followed by the continuation [k], which receives the text
    consumed by the class and the rest of the input. *)
Fixpoint repeat {R} (set : ascii -> bool) (q : quantifier)
    (k : string -> string -> option R) (min : nat) (got s : string) : option R :=
  let stop := match min with O => k got s | S _ => None end in
  let more :=
    match s with
    | String c s' => if set c then repeat set q k (pred min) (got ++ String c "") s' else None
    | EmptyString => None
    end in
  match q with
  | Greedy => match more with Some r => Some r | None => stop end
  | Lazy => match stop with Some r => Some r | None => more end
  end.

(** Match [re] at the head of [s]: the captures, in order, and the input
    left after the match. *)
Fixpoint exec_at (ci : bool) (re : list node) (caps : list string) (s : string)
    : option (list string * string) :=
  match re with
  | [] => Some (caps, s)
  | Chars lit :: re' =>
      match eat ci lit s with
      | Some s' => exec_at ci re' caps s'
      | None => None
      end
  | Class set min q cap :: re' =>
      repeat set q
        (fun got rest => exec_at ci re' (if cap then (caps ++ [got])%list else caps) rest)
        min "" s
  end.

(** [s.match(re)] for a pattern without the global flag: the captures of
    the leftmost match, or [None] (JavaScript [null]). *)
Fixpoint exec (re : t) (s : string) : option (list string) :=
  match exec_at (ignoreCase re) (source re) [] s with
  | Some (caps, _) => Some caps
  | None =>
      match s with
      | String _ s' => exec re s'
      | EmptyString => None
      end
  end.

(** [m?.[1]]: the first capture group of an optional match. *)
Definition group1 (m : option (list string)) : option string :=
  match m with
  | Some (c :: _) => Some c
  | _ => None
  end.

End RegExp.

(** ** JavaScript numbers *)

Module JsNumber.
Import JsString.

Definition prec : Z := 53.
Definition emax : Z := 1024.

(** A number is an IEEE 754 binary64 value. *)
Definition number : Type := spec_float.

Definition NaN : number := S754_nan.

Definition eqb (x y : number) : bool :=
  match x, y with
  | S754_zero a, S754_zero b => Bool.eqb a b
  | S754_infinity a, S754_infinity b => Bool.eqb a b
  | S754_nan, S754_nan => true
  | S754_finite a m e, S754_finite b n f => Bool.eqb a b && Pos.eqb m n && Z.eqb e f
  | _, _ => false
  end.

(** [Number.isFinite] and [Number.isNaN]. *)
Definition isFinite (x : number) : bool :=
  match x with
  | S754_zero _ | S754_finite _ _ _ => true
  | _ => false
  end.

Definition isNaN (x : number) : bool :=
  match x with S754_nan => true | _ => false end.

(** The number nearest to [(-1)^neg * m * 10^e] (round to nearest, ties
    to even), as the numeric value of a decimal literal is defined. *)
Definition of_decimal (neg : bool) (m : N) (e : Z) : number :=
  match m with
  | N0 => S754_zero neg
  | Npos p =>
      if 0 <=? e then binary_round prec emax neg (p * Z.to_pos (10 ^ e)) 0
      else
        let '(q, e', l) := SFdiv_core_binary prec emax (Zpos p) 0 (10 ^ (- e)) 0 in
        binary_round_aux prec emax neg q e' l
  end.

(** An integer literal of the source, such as [512]. *)
Definition of_Z (z : Z) : number :=
  of_decimal (z <? 0) (Z.abs_N z) 0.

(** *** [Number.parseFloat]

    The argument is trimmed at the start and its longest prefix that is a
    StrDecimalLiteral is converted; [NaN] when there is none. *)

Fixpoint digits (acc : N) (count : Z) (s : string) : N * Z * string :=
  match s with
  | String c s' =>
      if is_digit c then digits (acc * 10 + (code c - 48))%N (count + 1) s'
      else (acc, count, s)
  | EmptyString => (acc, count, s)
  end.

Definition sign (s : string) : bool * string :=
  match s with
  | String c s' =>
      if Ascii.eqb c "-" then (true, s')
      else if Ascii.eqb c "+" then (false, s')
      else (false, s)
  | EmptyString => (false, s)
  end.

(** ExponentPart, when one is complete at the head of [s]; zero otherwise. *)
Definition exponent (s : string) : Z :=
  match s with
  | String c s' =>
      if (Ascii.eqb c "e" || Ascii.eqb c "E")%bool then
        let '(neg, s1) := sign s' in
        let '(v, n, _) := digits 0 0 s1 in
        if n =? 0 then 0 else if neg then - Z.of_N v else Z.of_N v
      else 0
  | EmptyString => 0
  end.

Definition parseFloat (s : string) : number :=
  let '(neg, s1) := sign (trimStart s) in
  if startsWith s1 "Infinity" then S754_infinity neg
  else
    let '(ip, ni, s2) := digits 0 0 s1 in
    let integer := if ni =? 0 then NaN else of_decimal neg ip (exponent s2) in
    match s2 with
    | String c s3 =>
        if Ascii.eqb c "." then
          let '(m, nf, s4) := digits ip 0 s3 in
          if (ni =? 0) && (nf =? 0) then NaN
          else of_decimal neg m (exponent s4 - nf)
        else integer
    | EmptyString => integer
    end.

(** *** Number to string (radix 10) *)

Definition decimal_of_N (n : N) : string :=
  NilZero.string_of_uint (N.to_uint n).

Fixpoint zeros (n : nat) : string :=
  match n with O => "" | S n' => String "0" (zeros n') end.

(** The exact value of a positive finite number as a fraction. *)
Definition fraction (m : positive) (e : Z) : Z * Z :=
  if 0 <=? e then (Zpos m * 2 ^ e, 1) else (Zpos m, 2 ^ (- e)).

(** The integer [n] with [10^(n-1) <= num/den < 10^n], searched from
    [n], upwards while the value is too large and downwards while it is
    too small. *)
Fixpoint magnitude (fuel : nat) (num den n : Z) : Z :=
  match fuel with
  | O => n
  | S fuel' =>
      if 0 <=? n then
        if den * 10 ^ n <=? num then magnitude fuel' num den (n + 1)
        else if (0 <? n) && (num <? den * 10 ^ (n - 1)) then magnitude fuel' num den (n - 1)
        else if (n =? 0) && (num * 10 <? den) then magnitude fuel' num den (n - 1)
        else n
      else
        if num * 10 ^ (1 - n) <? den then magnitude fuel' num den (n - 1)
        else n
  end.

(** The digit string [s] of length [k] and the exponent [n] of the
    shortest decimal [s * 10^(n-k)] that rounds to the number
    [m * 2^e], the closest one when two of that length do. *)
Fixpoint shortest (fuel : nat) (x : number) (num den n0 k : Z) : N * Z * Z :=
  let scale := k - n0 in
  let '(a, b) := if 0 <=? scale then (num * 10 ^ scale, den) else (num, den * 10 ^ (- scale)) in
  let lo := a / b in
  let hi := lo + 1 in
  let ok_lo := (10 ^ (k - 1) <=? lo) && eqb (of_decimal false (Z.to_N lo) (n0 - k)) x in
  let ok_hi := eqb (of_decimal false (Z.to_N hi) (n0 - k)) x in
  let hi_out := if hi =? 10 ^ k then (Z.to_N (10 ^ (k - 1)), k, n0 + 1) else (Z.to_N hi, k, n0) in
  let nearer_lo := 2 * (a - lo * b) <=? b in
  match fuel with
  | O => (Z.to_N lo, k, n0)
  | S fuel' =>
      if ok_lo && (negb ok_hi || nearer_lo) then (Z.to_N lo, k, n0)
      else if ok_hi then hi_out
      else shortest fuel' x num den n0 (k + 1)
  end.

Definition exponent_suffix (n : Z) : string :=
  "e" ++ (if 0 <=? n - 1 then "+" else "-") ++ decimal_of_N (Z.abs_N (n - 1)).

Definition format (s : N) (k n : Z) : string :=
  let ds := decimal_of_N s in
  if (k <=? n) && (n <=? 21) then ds ++ zeros (Z.to_nat (n - k))
  else if (0 <? n) && (n <=? 21) then
    substring 0 (Z.to_nat n) ds ++ "." ++ substring (Z.to_nat n) (Z.to_nat (k - n)) ds
  else if (-6 <? n) && (n <=? 0) then "0." ++ zeros (Z.to_nat (- n)) ++ ds
  else if k =? 1 then ds ++ exponent_suffix n
  else substring 0 1 ds ++ "." ++ substring 1 (Z.to_nat (k - 1)) ds ++ exponent_suffix n.

(** [String(x)], [`${x}`] and the conversion [Array.prototype.join]
    applies to a number. *)
Definition toString (x : number) : string :=
  match x with
  | S754_nan => "NaN"
  | S754_zero _ => "0"
  | S754_infinity neg => if neg then "-Infinity" else "Infinity"
  | S754_finite neg m e =>
      let '(num, den) := fraction m e in
      let n0 := magnitude 700 num den (if 0 <=? e then 1 else 0) in
      let '(s, k, n) := shortest 17 (S754_finite false m e) num den n0 1 in
      (if neg then "-" else "") ++ format s k n
  end.

End JsNumber.

(** ** Domain types ([src/types/index.ts]) *)

Module Types.
Import JsNumber.

(** [SvgPathData = string | string[]]. *)
Inductive SvgPathData :=
| PathString (d : string)
| PathList (ds : list string).

(** [SvgData]: the descriptor embedded in the metadata for one style.
    The type declares [viewBox] a 4-tuple; the code tests its length, so
    the field is a list here. *)
Record SvgData := {
  svg_height : option number;
  svg_path : option SvgPathData;
  svg_raw : option string;
  svg_viewBox : option (list number);
  svg_width : option number;
}.

(** [FontAwesomeIcon], with the fields the pipeline reads: [svg],
    [unicode] and [search?.terms]. *)
Record FontAwesomeIcon := {
  icon_svg : gmap string SvgData;
  icon_unicode : string;
  icon_search_terms : option (list string);
}.

(** [IconData].  The type declares [unicode] a string; [parseKit]
    builds records whose [unicode] is [undefined], for the names it
    finds in [Object.prototype], and the store returns [null] for
    them: [None] stands for both. *)
Record IconData := {
  name : string;
  style : string;
  body : string;
  width : number;
  height : number;
  viewBox : string;
  unicode : option string;
  searchTerms : list string;
}.

(** [IconifyIcon] as [generatePackage] fills it. *)
Record IconifyIcon := {
  i_body : string;
  i_width : number;
  i_height : number;
  i_left : number;
  i_top : number;
  i_rotate : number;
  i_vFlip : bool;
  i_hFlip : bool;
}.

(** The [info] of a set; its [name] runs through [toUpperCase], so it
    is kept as code units. *)
Record StyleInfo := {
  info_name : list N;
  info_total : nat;
  info_version : string;
  info_author_name : string;
  info_license_title : string;
  info_license_spdx : string;
}.

Record StyleIconSet := {
  set_prefix : string;
  set_icons : gmap string IconifyIcon;
  set_width : number;
  set_height : number;
  set_info : StyleInfo;
}.

Record KitConfig := {
  cfg_name : string;
  cfg_version : string;
  cfg_description : string;
  cfg_iconSetName : string;
  cfg_prefix : string;
  cfg_outputDir : string;
  cfg_selectedStyles : list string;
}.

End Types.

(** ** [src/utils/svg.ts] *)

Module Svg.
Import JsString JsNumber Types.
Import RegExp (Chars, Class, Greedy, Lazy).

Definition DEFAULT_SVG_DIMENSION : number := of_Z 512.

Definition not_char (x : ascii) (c : ascii) : bool := negb (Ascii.eqb c x).
Definition any_char (c : ascii) : bool := true.

(** The regular expressions [/viewBox=Q([^Q]+)Q/], [/width=Q([^Q]+)Q/]
    and [/height=Q([^Q]+)Q/], writing Q for the double quote. *)
Definition attribute_re (attr : string) : RegExp.t :=
  {| RegExp.source :=
       [Chars (attr ++ "=" ++ quote); Class (not_char dquote) 1 Greedy true; Chars quote];
     RegExp.ignoreCase := false |}.

(** The regular expression [/<svg[^>]*>([\s\S]*?)<\/svg>/i]. *)
Definition svg_re : RegExp.t :=
  {| RegExp.source :=
       [Chars "<svg"; Class (not_char ">") 0 Greedy false; Chars ">";
        Class any_char 0 Lazy true; Chars "</svg>"];
     RegExp.ignoreCase := true |}.

(** A captured group that is present and not the empty string
    ([m?.[1]] used as a condition). *)
Definition truthy_group (m : option (list string)) : option string :=
  match RegExp.group1 m with
  | Some v => if falsy v then None else Some v
  | None => None
  end.

Record ParsedSvg := {
  p_body : string;
  p_width : number;
  p_height : number;
  p_viewBox : string;
}.

Definition parseNumericAttribute (value : option string) : option number :=
  match value with
  | None => None
  | Some v =>
      if falsy v then None
      else
        let numeric := parseFloat v in
        if isFinite numeric then Some numeric else None
  end.

Definition is_separator (c : ascii) : bool := is_white c || Ascii.eqb c ",".

(** The [{ width?, height? }] object of [parseViewBoxDimensions]. *)
Definition parseViewBoxDimensions (value : string) : option number * option number :=
  let parts := List.map parseFloat (split is_separator (trim value)) in
  if negb (Nat.eqb (List.length parts) 4) || existsb isNaN parts then (None, None)
  else (nth_error parts 2, nth_error parts 3).

Definition nullish {A} (x : option A) (y : A) : A :=
  match x with Some v => v | None => y end.

Definition orElse {A} (x y : option A) : option A :=
  match x with Some v => Some v | None => y end.

(** [parseSvgFile], on the outcome of reading the file: [None] when
    [Bun.file(filePath).text()] rejects, which the [try] turns into the
    null result. *)
Definition parseSvgFile (file : option string) : option ParsedSvg :=
  match file with
  | None => None
  | Some content =>
      let viewBoxMatch := RegExp.exec (attribute_re "viewBox") content in
      let widthMatch := RegExp.exec (attribute_re "width") content in
      let heightMatch := RegExp.exec (attribute_re "height") content in
      match truthy_group viewBoxMatch with
      | None => None
      | Some viewBox1 =>
          let bodyMatch := RegExp.exec svg_re content in
          let body := option_map trim (RegExp.group1 bodyMatch) in
          match body with
          | None => None
          | Some body =>
              if falsy body then None
              else
                let viewBox := trim viewBox1 in
                let viewBoxDimensions := parseViewBoxDimensions viewBox in
                let width :=
                  nullish (orElse (parseNumericAttribute (RegExp.group1 widthMatch))
                                  (fst viewBoxDimensions)) DEFAULT_SVG_DIMENSION in
                let height :=
                  nullish (orElse (parseNumericAttribute (RegExp.group1 heightMatch))
                                  (snd viewBoxDimensions)) DEFAULT_SVG_DIMENSION in
                Some {| p_body := body; p_width := width; p_height := height;
                        p_viewBox := viewBox |}
          end
      end
  end.

(** Extracts the body (inner SVG markup) from a raw SVG string. *)
Definition extractBodyFromRawSvg (raw : option string) : option string :=
  match raw with
  | None => None
  | Some raw =>
      if falsy raw then None
      else
        match truthy_group (RegExp.exec svg_re raw) with
        | Some inner =>
            let trimmed := trim inner in
            if (0 <? String.length trimmed)%nat then Some trimmed else None
        | None => None
        end
  end.

Definition path_element (segment : string) : string :=
  "<path d=" ++ quote ++ segment ++ quote ++ " fill=" ++ quote ++ "currentColor" ++ quote ++ " />".

Definition nonblank (segment : string) : bool :=
  (0 <? String.length (trim segment))%nat.

Definition newline : string := String (ascii_of_N 10) "".

Definition buildSvgBody (svgData : SvgData) : option string :=
  match extractBodyFromRawSvg (svg_raw svgData) with
  | Some rawBody => Some rawBody
  | None =>
      match svg_path svgData with
      | None => None
      | Some (PathString "") => None
      | Some path =>
          let pathList := match path with PathList l => l | PathString d => [d] end in
          let elements := List.map path_element (List.filter nonblank pathList) in
          if Nat.eqb (List.length elements) 0 then None
          else Some (join newline elements)
      end
  end.

(** [formatViewBox]; [width] and [height] may be [undefined]. *)
Definition formatViewBox (svgData : SvgData) (width height : option number) : string :=
  match svg_viewBox svgData with
  | Some [a; b; c; d] => join " " (List.map toString [a; b; c; d])
  | _ =>
      "0 0 " ++ toString (nullish width DEFAULT_SVG_DIMENSION) ++ " "
             ++ toString (nullish height DEFAULT_SVG_DIMENSION)
  end.

End Svg.

(** ** [JSON.stringify] and [JSON.parse] on arrays of strings

  The store serialises the search terms of a record with
  [JSON.stringify] and reads them back with [JSON.parse]. *)

Module Json.
Import JsString.

Definition backslash : ascii := ascii_of_N 92.

Definition hex_digit (n : N) : ascii :=
  if (n <? 10)%N then ascii_of_N (48 + n) else ascii_of_N (87 + n).

(** QuoteJSONString, one code unit at a time: the two-character escapes,
    [\u00xx] for the other control characters, the unit itself otherwise. *)
Definition escape_char (c : ascii) : string :=
  let n := code c in
  if (n =? 8)%N then String backslash "b"
  else if (n =? 9)%N then String backslash "t"
  else if (n =? 10)%N then String backslash "n"
  else if (n =? 12)%N then String backslash "f"
  else if (n =? 13)%N then String backslash "r"
  else if (n =? 34)%N then String backslash quote
  else if (n =? 92)%N then String backslash (String backslash "")
  else if (n <? 32)%N then
    String backslash (String "u" (String "0" (String "0"
      (String (hex_digit (n / 16)) (String (hex_digit (n mod 16)) "")))))
  else String c "".

Fixpoint escape (s : string) : string :=
  match s with
  | EmptyString => EmptyString
  | String c s' => escape_char c ++ escape s'
  end.

Definition quoteJSONString (s : string) : string := quote ++ escape s ++ quote.

(** [JSON.stringify(terms)] for an array of strings. *)
Definition stringify (terms : list string) : string :=
  "[" ++ join "," (List.map quoteJSONString terms) ++ "]".

(** JSON white space: space, TAB, LF, CR. *)
Definition is_ws (c : ascii) : bool :=
  let n := code c in ((n =? 32) || (n =? 9) || (n =? 10) || (n =? 13))%N.

Definition hex_value (c : ascii) : option N :=
  let n := code c in
  if ((48 <=? n) && (n <=? 57))%N then Some (n - 48)%N
  else if ((97 <=? n) && (n <=? 102))%N then Some (n - 87)%N
  else if ((65 <=? n) && (n <=? 70))%N then Some (n - 55)%N
  else None.

Definition hex4 (a b c d : ascii) : option N :=
  match hex_value a, hex_value b, hex_value c, hex_value d with
  | Some x, Some y, Some z, Some w => Some (((x * 16 + y) * 16 + z) * 16 + w)%N
  | _, _, _, _ => None
  end.

(** The code unit a two-character escape stands for. *)
Definition unescape (e : ascii) : option ascii :=
  let n := code e in
  if (n =? 34)%N then Some dquote
  else if (n =? 92)%N then Some backslash
  else if (n =? 47)%N then Some "/"%char
  else if (n =? 98)%N then Some (ascii_of_N 8)
  else if (n =? 102)%N then Some (ascii_of_N 12)
  else if (n =? 110)%N then Some (ascii_of_N 10)
  else if (n =? 114)%N then Some (ascii_of_N 13)
  else if (n =? 116)%N then Some (ascii_of_N 9)
  else None.

Inductive state :=
| Start                      (* before the opening bracket *)
| Opened                     (* after the opening bracket *)
| InString (cur : string)    (* inside a string literal *)
| AfterValue                 (* after an element *)
| AfterComma                 (* after a comma *)
| Closed.                    (* after the closing bracket *)

(** The parser, driven by the input text.  [None]: a SyntaxError, or a
    value that is not an array of strings over the code units 0..255. *)
Fixpoint run (s : string) (st : state) (acc : list string) {struct s} : option (list string) :=
  match s with
  | EmptyString => match st with Closed => Some acc | _ => None end
  | String c s' =>
      match st with
      | Start =>
          if is_ws c then run s' Start acc
          else if Ascii.eqb c "[" then run s' Opened acc
          else None
      | Opened =>
          if is_ws c then run s' Opened acc
          else if Ascii.eqb c "]" then run s' Closed acc
          else if Ascii.eqb c dquote then run s' (InString "") acc
          else None
      | AfterComma =>
          if is_ws c then run s' AfterComma acc
          else if Ascii.eqb c dquote then run s' (InString "") acc
          else None
      | AfterValue =>
          if is_ws c then run s' AfterValue acc
          else if Ascii.eqb c "," then run s' AfterComma acc
          else if Ascii.eqb c "]" then run s' Closed acc
          else None
      | Closed => if is_ws c then run s' Closed acc else None
      | InString cur =>
          if Ascii.eqb c dquote then run s' AfterValue (acc ++ [cur])%list
          else if Ascii.eqb c backslash then
            match s' with
            | String e s'' =>
                match unescape e with
                | Some x => run s'' (InString (cur ++ String x "")) acc
                | None =>
                    if Ascii.eqb e "u" then
                      match s'' with
                      | String h1 (String h2 (String h3 (String h4 r))) =>
                          match hex4 h1 h2 h3 h4 with
                          | Some n =>
                              if (n <? 256)%N
                              then run r (InString (cur ++ String (ascii_of_N n) "")) acc
                              else None
                          | None => None
                          end
                      | _ => None
                      end
                    else None
                end
            | EmptyString => None
            end
          else if (code c <? 32)%N then None
          else run s' (InString (cur ++ String c "")) acc
      end
  end.

(** [JSON.parse(text)] where an array of strings is expected. *)
Definition parse (text : string) : option (list string) := run text Start [].

End Json.

(** ** [src/services/databaseService.ts]

  The in-memory SQLite database holds one table, [icons], with an
  AUTOINCREMENT integer primary key and the constraint
  UNIQUE(name, style).  The table is the list of its rows in rowid
  order, which is the order a scan of the table, or of an index on an
  equality constraint, returns them in.

  What the columns make of the values bound to them:
    - a text is stored as it is, and [undefined] as NULL, which the
      columns [unicode] and [searchTerms] accept;
    - a number bound to [width] or [height], columns of INTEGER
      affinity, is stored as an integer when that loses nothing and as
      the number it is otherwise, so it is read back the same but for
      the negative zero, which is read back as zero;
    - a NaN is bound as NULL, which the NOT NULL constraint of [width]
      and [height] refuses: the statement fails and the table is left
      as it was. *)

Module DatabaseService.
Import JsString JsNumber Types.

Record Row := {
  r_id : Z;
  r_name : string;
  r_style : string;
  r_body : string;
  r_width : number;
  r_height : number;
  r_viewBox : string;
  r_unicode : option string;
  r_searchTerms : string;
}.

Record Database := {
  icons : list Row;
  (** the largest rowid ever used, kept by AUTOINCREMENT *)
  sqlite_sequence : Z;
}.

Definition initDatabase : Database := {| icons := []; sqlite_sequence := 0 |}.

(** The value an INTEGER column keeps for a number that is not NaN. *)
Definition integer (x : number) : number :=
  match x with
  | S754_zero _ => S754_zero false
  | _ => x
  end.

(** The row of the values [stmt.run] binds; [None] when a NOT NULL
    constraint fails. *)
Definition bind (id : Z) (iconData : IconData) : option Row :=
  if isNaN (width iconData) || isNaN (height iconData) then None
  else
    Some {| r_id := id;
            r_name := name iconData;
            r_style := style iconData;
            r_body := body iconData;
            r_width := integer (width iconData);
            r_height := integer (height iconData);
            r_viewBox := viewBox iconData;
            r_unicode := unicode iconData;
            r_searchTerms := Json.stringify (searchTerms iconData) |}.

(** The UNIQUE(name, style) constraint: [r] conflicts with the new row. *)
Definition conflicts (row r : Row) : bool :=
  String.eqb (r_name r) (r_name row) && String.eqb (r_style r) (r_style row).

(** [insertIcon(db, iconData)]: the database after the call, or [None]
    when the call throws, which leaves the database as it was.
    INSERT OR REPLACE deletes the rows that conflict with the new one,
    and the new row gets the next rowid. *)
Definition insertIcon (db : Database) (iconData : IconData) : option Database :=
  let id := sqlite_sequence db + 1 in
  match bind id iconData with
  | None => None
  | Some row =>
      Some {| icons := List.filter (fun r => negb (conflicts row r)) (icons db) ++ [row];
              sqlite_sequence := id |}
  end.

(** SELECT DISTINCT style FROM icons ORDER BY style. *)
Definition getAvailableStyles (db : Database) : list string :=
  merge_sort String.le (remove_dups (List.map r_style (icons db))).

(** [JSON.parse(row.searchTerms || '[]')]. *)
Definition parse_terms (text : string) : option (list string) :=
  Json.parse (if falsy text then "[]" else text).

(** The object literal both queries map a row to; [None] when
    [JSON.parse] throws. *)
Definition to_icon (style : string) (r : Row) : option IconData :=
  terms ← parse_terms (r_searchTerms r);
  Some {| name := r_name r; style := style; body := r_body r;
          width := r_width r; height := r_height r; viewBox := r_viewBox r;
          unicode := r_unicode r; searchTerms := terms |}.

(** SELECT name, body, width, height, viewBox, unicode, searchTerms
    FROM icons WHERE style = ?  -- no ORDER BY. *)
Definition getIconsByStyle (db : Database) (style : string) : option (list IconData) :=
  mapM (to_icon style) (List.filter (fun r => String.eqb (r_style r) style) (icons db)).

(** The comparison of SQLite's LIKE: [%] matches any run of characters,
    [_] any one character, every other character itself, the ASCII
    letters without regard to case. *)
Fixpoint like (pattern : string) : string -> bool :=
  match pattern with
  | EmptyString => is_empty
  | String p pattern' =>
      if Ascii.eqb p "%" then
        fix any (s : string) : bool :=
          like pattern' s || match s with String _ s' => any s' | EmptyString => false end
      else
        fun s =>
          match s with
          | String c s' => (Ascii.eqb p "_" || Ascii.eqb (lower p) (lower c)) && like pattern' s'
          | EmptyString => false
          end
  end.

(** The limit on the length, in bytes, of a LIKE pattern: for a longer
    one the comparison raises [LIKE or GLOB pattern too complex]. *)
Definition SQLITE_MAX_LIKE_PATTERN_LENGTH : N := 50000.

(** ORDER BY name, style under the BINARY collation. *)
Definition name_style_leb (a b : Row) : bool :=
  match String.compare (r_name a) (r_name b) with
  | Lt => true
  | Eq => String.leb (r_style a) (r_style b)
  | Gt => false
  end.

Definition name_style_le (a b : Row) : Prop := name_style_leb a b = true.

#[global] Instance name_style_le_dec : RelDecision name_style_le.
Proof. intros a b. unfold name_style_le. apply _. Defined.

(** [styles && styles.length > 0] guards the clause AND style IN (...). *)
Definition style_selected (styles : option (list string)) (r : Row) : bool :=
  match styles with
  | Some (s :: l) => existsb (String.eqb (r_style r)) (s :: l)
  | _ => true
  end.

(** (name LIKE ? OR searchTerms LIKE ?), both with the pattern
    [%query%], for a pattern within the limit: the comparison reads the
    pattern and the text up to their first NUL character. *)
Definition matches (query : string) (r : Row) : bool :=
  let pattern := c_string ("%" ++ query ++ "%") in
  like pattern (c_string (r_name r)) || like pattern (c_string (r_searchTerms r)).

(** SELECT * FROM icons WHERE (name LIKE ? OR searchTerms LIKE ?)
    [AND style IN (...)] ORDER BY name, style.  The rows are reached
    through the index on [style] when the clause on it is there, so
    LIKE is evaluated on the rows of the given styles and on no other;
    its error for a pattern that is too long makes [all] throw
    ([None]), as [JSON.parse] does for a text that is no JSON. *)
Definition searchIcons (db : Database) (query : string) (styles : option (list string))
    : option (list IconData) :=
  let pattern := "%" ++ query ++ "%" in
  if (SQLITE_MAX_LIKE_PATTERN_LENGTH <? utf8_length pattern)%N
     && existsb (style_selected styles) (icons db)
  then None
  else
    let rows :=
      merge_sort name_style_le
        (List.filter (fun r => matches query r && style_selected styles r) (icons db)) in
    mapM (fun r => to_icon (r_style r) r) rows.

End DatabaseService.

(** ** [src/services/kitParserService.ts] *)

Module KitParserService.
Import JsString JsNumber Types Svg DatabaseService.
Import JsObject (Own, Inherited, Undefined).

Definition DEFAULT_ICON_SIZE : number := of_Z 512.

(** An entry of the [svgs] directory: a style directory with its
    entries in [readdir] order, a directory that [readdir] fails to
    list, or something that is not a directory.  An entry of a style
    directory is its name and, when it can be read as a text file, its
    content. *)
Inductive DirEntry :=
| Directory (files : list (string * option string))
| Unlistable
| NotDirectory.

(** What [parseKit] reads of the kit: the result of
    [readJsonFile(metadata/icons.json)] ([None]: null) and the listing
    of the [svgs] directory ([None]: [readdir] rejects).

    [Object.assign(metadata, iconsMetadata)] copies the properties of
    the file to [metadata]; the map is read as the own properties of
    [metadata] after it, which it is for a file without the key
    [__proto__] (that key would make its value the prototype of
    [metadata]). *)
Record Kit := {
  iconsMetadata : option (gmap string FontAwesomeIcon);
  svgsDir : option (list (string * DirEntry));
}.

(** How far a pass is: nothing has thrown, or the promise is rejected. *)
Inductive Completion := Resolved | Rejected.

(** [basename(file, ext)] for a directory entry name. *)
Definition basename (file ext : string) : string :=
  if endsWith file ext && negb (is_empty ext)
  then substring 0 (String.length file - String.length ext) file
  else file.

Definition deriveDimensions (svgData : option SvgData) : number * number :=
  match svgData with
  | None => (DEFAULT_ICON_SIZE, DEFAULT_ICON_SIZE)
  | Some svgData =>
      let '(viewBoxWidth, viewBoxHeight) :=
        match svg_viewBox svgData with
        | Some [_; _; w; h] => (Some w, Some h)
        | _ => (None, None)
        end in
      let width := nullish (orElse (svg_width svgData) viewBoxWidth) DEFAULT_ICON_SIZE in
      let height := nullish (orElse (svg_height svgData) viewBoxHeight) DEFAULT_ICON_SIZE in
      (width, height)
  end.

(** [`${x}`] for [x : number | undefined]. *)
Definition template (x : option number) : string :=
  match x with Some v => toString v | None => "undefined" end.

(** [!x] for [x : string | null | undefined]. *)
Definition absent (x : option string) : bool :=
  match x with Some s => falsy s | None => true end.

(** A member of [Object.prototype] read as a descriptor: it is truthy
    and has none of the properties of one. *)
Definition no_properties : SvgData :=
  {| svg_height := None; svg_path := None; svg_raw := None;
     svg_viewBox := None; svg_width := None |}.

(** [icon.svg?.[style]], [icon.unicode] and [icon.search?.terms || []]
    for the truthy [icon] that [metadata[iconName]] found: an entry of
    the metadata, or a member of [Object.prototype], which has no
    [svg], no [unicode] and no [search]. *)
Definition svgData_of (icon : JsObject.property FontAwesomeIcon) (style : string)
    : option SvgData :=
  match icon with
  | Own icon =>
      match JsObject.get (icon_svg icon) style with
      | Own d => Some d
      | Inherited => Some no_properties
      | Undefined => None
      end
  | _ => None
  end.

Definition unicode_of (icon : JsObject.property FontAwesomeIcon) : option string :=
  match icon with
  | Own icon => Some (icon_unicode icon)
  | _ => None
  end.

Definition searchTerms_of (icon : JsObject.property FontAwesomeIcon) : list string :=
  match icon with
  | Own icon =>
      match icon_search_terms icon with
      | Some terms => terms
      | None => []
      end
  | _ => []
  end.

(** The body of the inner loop of [parseKit] after [if (!icon) continue]:
    the record it inserts, or [None] for [continue]. *)
Definition assemble (iconName style : string) (icon : JsObject.property FontAwesomeIcon)
    (file : option string) : option IconData :=
  let svgData := svgData_of icon style in
  let parsedSvg := parseSvgFile file in
  let body := option_map p_body parsedSvg in
  let width := option_map p_width parsedSvg in
  let height := option_map p_height parsedSvg in
  let viewBox := option_map p_viewBox parsedSvg in
  let body :=
    match svgData with
    | Some d => if absent body then buildSvgBody d else body
    | None => body
    end in
  let '(derivedWidth, derivedHeight) := deriveDimensions svgData in
  let width := Some (nullish width derivedWidth) in
  let height := Some (nullish height derivedHeight) in
  let viewBox :=
    if absent viewBox then
      match svgData with
      | Some d => Some (formatViewBox d width height)
      | None =>
          Some ("0 0 " ++ template width ++ " " ++ template height)
      end
    else viewBox in
  match body with
  | None => None
  | Some body =>
      if falsy body then None
      else
        let resolvedWidth := nullish width DEFAULT_ICON_SIZE in
        let resolvedHeight := nullish height DEFAULT_ICON_SIZE in
        let resolvedViewBox :=
          nullish viewBox ("0 0 " ++ toString resolvedWidth ++ " " ++ toString resolvedHeight) in
        Some {| name := iconName;
                style := style;
                body := body;
                width := resolvedWidth;
                height := resolvedHeight;
                viewBox := resolvedViewBox;
                unicode := unicode_of icon;
                searchTerms := searchTerms_of icon |}
  end.

(** The body of the inner loop of [parseKit]: one [.svg] entry of one
    style directory.  [None] is [continue]: nothing is inserted. *)
Definition reconcile (metadata : gmap string FontAwesomeIcon)
    (style svgFile : string) (file : option string) : option IconData :=
  let iconName := basename svgFile ".svg" in
  match JsObject.get metadata iconName with
  | Undefined => None
  | icon => assemble iconName style icon file
  end.

(** One turn of the inner loop, on the database so far; after a throw
    nothing more is done. *)
Definition step (metadata : gmap string FontAwesomeIcon) (style : string)
    (acc : Database * Completion) (entry : string * option string) : Database * Completion :=
  match snd acc with
  | Rejected => acc
  | Resolved =>
      match reconcile metadata style (fst entry) (snd entry) with
      | Some iconData =>
          match insertIcon (fst acc) iconData with
          | Some db => (db, Resolved)
          | None => (fst acc, Rejected)
          end
      | None => acc
      end
  end.

Definition svgFiles (files : list (string * option string)) : list (string * option string) :=
  List.filter (fun e => endsWith (fst e) ".svg") files.

(** One turn of the outer loop; [await readdir(styleDir)] is not
    guarded, so a directory that cannot be listed ends the pass. *)
Definition styleLoop (metadata : gmap string FontAwesomeIcon)
    (acc : Database * Completion) (subdir : string * DirEntry) : Database * Completion :=
  match snd acc with
  | Rejected => acc
  | Resolved =>
      match snd subdir with
      | Directory files => fold_left (step metadata (fst subdir)) (svgFiles files) acc
      | Unlistable => (fst acc, Rejected)
      | NotDirectory => acc
      end
  end.

(** [parseKit(db, kitRoot)]: the database after the call, which keeps
    what was inserted before a throw, and whether the promise is
    resolved or rejected. *)
Definition parseKit (db : Database) (kit : Kit) : Database * Completion :=
  let metadata : gmap string FontAwesomeIcon :=
    match iconsMetadata kit with Some m => m | None => ∅ end in
  match svgsDir kit with
  | None => (db, Rejected)
  | Some svgEntries => fold_left (styleLoop metadata) svgEntries (db, Resolved)
  end.

End KitParserService.

(** ** The export loop of [generatePackage] *)

Module PackageGenerator.
Import JsString JsNumber Types DatabaseService.

(** The four columns its query reads. *)
Record Selected := {
  s_name : string;
  s_body : string;
  s_width : number;
  s_height : number;
}.

(** SELECT name, body, width, height FROM icons WHERE style = ?, as
    the module of [generatePackage] declares [getIconsByStyle]. *)
Definition getIconsByStyle (db : Database) (style : string) : list Selected :=
  List.map (fun r => {| s_name := r_name r; s_body := r_body r;
                        s_width := r_width r; s_height := r_height r |})
           (List.filter (fun r => String.eqb (r_style r) style) (icons db)).

Definition toIconify (icon : Selected) : IconifyIcon :=
  {| i_body := s_body icon; i_width := s_width icon; i_height := s_height icon;
     i_left := of_Z 0; i_top := of_Z 0; i_rotate := of_Z 0;
     i_vFlip := false; i_hFlip := false |}.

Fixpoint remove_hyphens (s : string) : string :=
  match s with
  | EmptyString => EmptyString
  | String c s' => if Ascii.eqb c "-" then remove_hyphens s' else String c (remove_hyphens s')
  end.

(** [style.charAt(0).toUpperCase() + style.slice(1).replace(/-/g, '')]. *)
Definition styleName (style : string) : list N :=
  match style with
  | EmptyString => []
  | String c s' => toUpperCase c ++ units (remove_hyphens s')
  end.

(** The object the loop assigns to [styleSets[style]].  [iconifyIcons]
    is a plain object filled by assignment. *)
Definition buildStyleSet (config : KitConfig) (style : string) (icons : list Selected)
    : StyleIconSet :=
  let iconifyIcons :=
    fold_left (fun (m : gmap string IconifyIcon) icon =>
                 JsObject.assign (s_name icon) (toIconify icon) m)
              icons ∅ in
  {| set_prefix := cfg_prefix config ++ "-" ++ style;
     set_icons := iconifyIcons;
     set_width := of_Z 24;
     set_height := of_Z 24;
     set_info :=
       {| info_name := units (cfg_iconSetName config ++ " ") ++ styleName style;
          info_total := List.length icons;
          info_version := cfg_version config;
          info_author_name := "FontAwesome to Iconify Converter";
          info_license_title := "FontAwesome Pro License";
          info_license_spdx := "UNLICENSED" |} |}.

(** The loop over [config.selectedStyles]: the own properties of the
    [styleSets] object it fills, which are what [Object.entries] lists
    after it, and [totalIcons], the value [generatePackage] returns. *)
Definition exportStep (db : Database) (config : KitConfig)
    (acc : gmap string StyleIconSet * nat) (style : string) : gmap string StyleIconSet * nat :=
  let icons := getIconsByStyle db style in
  if Nat.eqb (List.length icons) 0 then acc
  else (JsObject.assign style (buildStyleSet config style icons) (fst acc),
        (snd acc + List.length icons)%nat).

Definition generatePackage (db : Database) (config : KitConfig)
    : gmap string StyleIconSet * nat :=
  fold_left (exportStep db config) (cfg_selectedStyles config) (∅, 0%nat).

End PackageGenerator.

(** ** Anchored patterns

  The patterns of the validators are anchored at both ends ([^...$]) and
  use literals, character classes, grouping, alternation, [?], [*] and
  [+] only.  For such a pattern [re.test(s)] answers whether the whole
  of [s] belongs to the regular language the pattern denotes; here the
  answer is computed with derivatives. *)

Module Pattern.
Import JsString.

Inductive t :=
| Never
| Empty
| Class (set : ascii -> bool)
| Seq (a b : t)
| Alt (a b : t)
| Star (a : t).

(** A literal character, [(?:a)?] and [a+]. *)
Definition Chr (c : ascii) : t := Class (Ascii.eqb c).
Definition Opt (a : t) : t := Alt a Empty.
Definition Plus (a : t) : t := Seq a (Star a).

Fixpoint nullable (r : t) : bool :=
  match r with
  | Never => false
  | Empty => true
  | Class _ => false
  | Seq a b => nullable a && nullable b
  | Alt a b => nullable a || nullable b
  | Star _ => true
  end.

Fixpoint derive (c : ascii) (r : t) : t :=
  match r with
  | Never => Never
  | Empty => Never
  | Class set => if set c then Empty else Never
  | Seq a b =>
      if nullable a then Alt (Seq (derive c a) b) (derive c b) else Seq (derive c a) b
  | Alt a b => Alt (derive c a) (derive c b)
  | Star a => Seq (derive c a) (Star a)
  end.

(** [re.test(s)] for the anchored pattern [re]. *)
Fixpoint test (r : t) (s : string) : bool :=
  match s with
  | EmptyString => nullable r
  | String c s' => test (derive c r) s'
  end.

(** The class ranges [lo-hi] and the classes of listed characters. *)
Definition range (lo hi : ascii) (c : ascii) : bool :=
  ((code lo <=? code c) && (code c <=? code hi))%N.

Fixpoint one_of (chars : string) (c : ascii) : bool :=
  match chars with
  | EmptyString => false
  | String x chars' => Ascii.eqb c x || one_of chars' c
  end.

End Pattern.

(** ** [isValidPackageName] and [isValidSemver] *)

Module PackageValidation.
Import JsString Pattern.

(** The classes [[a-z0-9-*~]], [[a-z0-9-*._~]], [[a-z0-9-~]] and
    [[a-z0-9-._~]]: after the range [0-9] the hyphen stands for itself. *)
Definition lower_alnum (c : ascii) : bool := range "a" "z" c || range "0" "9" c.
Definition scope_head (c : ascii) : bool := lower_alnum c || one_of "-*~" c.
Definition scope_tail (c : ascii) : bool := lower_alnum c || one_of "-*._~" c.
Definition name_head (c : ascii) : bool := lower_alnum c || one_of "-~" c.
Definition name_tail (c : ascii) : bool := lower_alnum c || one_of "-._~" c.

(** [/^(?:@[a-z0-9-*~][a-z0-9-*._~]*\/)?[a-z0-9-~][a-z0-9-._~]*$/] *)
Definition npmNameRegex : Pattern.t :=
  Seq (Opt (Seq (Chr "@") (Seq (Class scope_head) (Seq (Star (Class scope_tail)) (Chr "/")))))
      (Seq (Class name_head) (Star (Class name_tail))).

Definition isValidPackageName (name : string) : bool :=
  test npmNameRegex name && (String.length name <=? 214)%nat.

(** [\d], [[a-zA-Z-]] and [[0-9a-zA-Z-]]. *)
Definition digit : Pattern.t := Class (range "0" "9").
Definition letter_or_hyphen (c : ascii) : bool :=
  range "a" "z" c || range "A" "Z" c || Ascii.eqb c "-".
Definition alnum_or_hyphen (c : ascii) : bool :=
  range "0" "9" c || range "a" "z" c || range "A" "Z" c || Ascii.eqb c "-".

(** The group [0|[1-9]\d*]. *)
Definition numeric_identifier : Pattern.t :=
  Alt (Chr "0") (Seq (Class (range "1" "9")) (Star digit)).

(** The group [0|[1-9]\d*|\d*[a-zA-Z-][0-9a-zA-Z-]*]. *)
Definition prerelease_identifier : Pattern.t :=
  Alt (Chr "0")
      (Alt (Seq (Class (range "1" "9")) (Star digit))
           (Seq (Star digit) (Seq (Class letter_or_hyphen) (Star (Class alnum_or_hyphen))))).

(** [[0-9a-zA-Z-]+] *)
Definition build_identifier : Pattern.t := Plus (Class alnum_or_hyphen).

(** [identifier(?:\.identifier)*] *)
Definition dotted (identifier : Pattern.t) : Pattern.t :=
  Seq identifier (Star (Seq (Chr ".") identifier)).

(** The pattern of [isValidSemver]: three numeric identifiers separated
    by dots, [(?:-(pre-release))?] and [(?:\+(build))?]. *)
Definition semverRegex : Pattern.t :=
  Seq numeric_identifier
   (Seq (Chr ".")
     (Seq numeric_identifier
       (Seq (Chr ".")
         (Seq numeric_identifier
           (Seq (Opt (Seq (Chr "-") (dotted prerelease_identifier)))
                (Opt (Seq (Chr "+") (dotted build_identifier)))))))).

Definition isValidSemver (version : string) : bool := test semverRegex version.

End PackageValidation.

(** ** [src/services/kitValidationService.ts] *)

Module KitValidationService.
Import JsString.

Record ValidationResult := {
  isValid : bool;
  errors : list string;
  warnings : list string;
}.

(** What [validateKit] asks of the file system.  [stat path] is [None]
    when [stat] rejects and otherwise what [isDirectory()] answers;
    [readdir path] is [None] when [readdir] rejects and otherwise the
    entries of the directory, each with what [isDirectory()] answers
    for it. *)
Record FileSystem := {
  stat : string -> option bool;
  readdir : string -> option (list (string * bool));
}.

(** [FONTAWESOME_KIT_STRUCTURE], and its values in the order of its keys. *)
Definition metadata : string := "metadata".
Definition svgs : string := "svgs".
Definition fonts : string := "otfs".
Definition requiredDirs : list string := [metadata; svgs; fonts].

(** [result.errors.push(message); result.isValid = false] *)
Definition push_error (result : ValidationResult) (message : string) : ValidationResult :=
  {| isValid := false; errors := errors result ++ [message]; warnings := warnings result |}.

(** [result.warnings.push(message)] *)
Definition push_warning (result : ValidationResult) (message : string) : ValidationResult :=
  {| isValid := isValid result; errors := errors result;
     warnings := warnings result ++ [message] |}.

(** The body of the loop over [requiredDirs]. *)
Definition checkDir (fs : FileSystem) (result : ValidationResult) (dir : string)
    : ValidationResult :=
  match stat fs dir with
  | Some true => result
  | Some false => push_error result (dir ++ " is not a directory")
  | None => push_error result ("Missing required directory: " ++ dir)
  end.

(** [validateKit()]; [None] when the promise rejects. *)
Definition validateKit (fs : FileSystem) : option ValidationResult :=
  let result := {| isValid := true; errors := []; warnings := [] |} in
  let result := fold_left (checkDir fs) requiredDirs result in
  if negb (isValid result) then Some result
  else
    match readdir fs metadata with
    | None => None
    | Some entries =>
        let metadataFiles :=
          List.filter (fun file => endsWith file ".json") (List.map fst entries) in
        let result :=
          if Nat.eqb (List.length metadataFiles) 0
          then push_error result "No metadata JSON files found in metadata directory"
          else result in
        match readdir fs svgs with
        | None => None
        | Some svgEntries =>
            let svgSubdirs := List.map fst (List.filter snd svgEntries) in
            let result :=
              if Nat.eqb (List.length svgSubdirs) 0
              then push_warning result "No SVG subdirectories found - kit may be incomplete"
              else result in
            Some result
        end
    end.

End KitValidationService.

(** ** The single-file converter

  The converter as one script, before it was split into modules: its
  [parseSvgFile] reads the dimensions with [parseInt] and defaults them
  to 24, and its [parseKit] stores a record for a file only when the
  file parses. *)

Module Monolith.
Import JsString JsNumber Types.

(** [parseInt(s, 10)]: the integer the longest prefix of decimal digits
    denotes, after white space and a sign; [NaN] when there is no
    digit. *)
Definition parseInt (s : string) : number :=
  let '(neg, s1) := sign (trimStart s) in
  let '(v, n, _) := digits 0 0 s1 in
  if n =? 0 then NaN else of_decimal neg v 0.

Definition parseSvgFile (file : option string) : option Svg.ParsedSvg :=
  match file with
  | None => None
  | Some content =>
      let viewBoxMatch := RegExp.exec (Svg.attribute_re "viewBox") content in
      let widthMatch := RegExp.exec (Svg.attribute_re "width") content in
      let heightMatch := RegExp.exec (Svg.attribute_re "height") content in
      match Svg.truthy_group viewBoxMatch with
      | None => None
      | Some viewBox1 =>
          let bodyMatch := RegExp.exec Svg.svg_re content in
          let body := option_map trim (RegExp.group1 bodyMatch) in
          match body with
          | None => None
          | Some body =>
              if falsy body then None
              else
                Some {| Svg.p_body := body;
                        Svg.p_width :=
                          match Svg.truthy_group widthMatch with
                          | Some w => parseInt w
                          | None => of_Z 24
                          end;
                        Svg.p_height :=
                          match Svg.truthy_group heightMatch with
                          | Some h => parseInt h
                          | None => of_Z 24
                          end;
                        Svg.p_viewBox := viewBox1 |}
          end
      end
  end.

(** The body of the inner loop of its [parseKit]: the [iconData]
    inserted for one [.svg] entry, if any.  [metadata[iconName]] is
    tested for truth only, so a member of [Object.prototype] passes. *)
Definition iconData (metadata : gmap string FontAwesomeIcon)
    (subdir svgFile : string) (file : option string) : option IconData :=
  let iconName := KitParserService.basename svgFile ".svg" in
  match parseSvgFile file, JsObject.get metadata iconName with
  | None, _ | _, JsObject.Undefined => None
  | Some svgData, icon =>
      Some {| name := iconName;
              style := subdir;
              body := Svg.p_body svgData;
              width := Svg.p_width svgData;
              height := Svg.p_height svgData;
              viewBox := Svg.p_viewBox svgData;
              unicode := KitParserService.unicode_of icon;
              searchTerms := KitParserService.searchTerms_of icon |}
  end.

End Monolith.

(** ** Reference notions

  What the statements below mean by the first quoted value of a name in
  a text, the inner markup between the svg tags, a substring and the
  records a store keeps, written without the regular-expression engine
  and without SQL. *)

Module Reference.
Import JsString JsNumber Types.

(** [s] up to the first occurrence of the character [x], and what
    follows that occurrence. *)
Fixpoint until_char (x : ascii) (s : string) : option (string * string) :=
  match s with
  | EmptyString => None
  | String c s' =>
      if Ascii.eqb c x then Some ("", s')
      else match until_char x s' with
           | Some (a, b) => Some (String c a, b)
           | None => None
           end
  end.

(** [s] starts with [lit], letter case apart; what follows it. *)
Fixpoint strip_ci (lit s : string) : option string :=
  match lit, s with
  | EmptyString, _ => Some s
  | String a lit', String b s' =>
      if Ascii.eqb (lower a) (lower b) then strip_ci lit' s' else None
  | String _ _, EmptyString => None
  end.

(** [s] up to the first occurrence of [lit], letter case apart, and what
    follows that occurrence. *)
Fixpoint find_ci (lit s : string) : option (string * string) :=
  match strip_ci lit s with
  | Some rest => Some ("", rest)
  | None =>
      match s with
      | EmptyString => None
      | String c s' =>
          match find_ci lit s' with
          | Some (a, b) => Some (String c a, b)
          | None => None
          end
      end
  end.

(** The inner markup between the svg tags: the text between the end of
    the first opening [<svg ...>] tag and the first closing [</svg>] tag
    after it. *)
Definition inner_markup (content : string) : option string :=
  match find_ci "<svg" content with
  | None => None
  | Some (_, after_name) =>
      match until_char ">" after_name with
      | None => None
      | Some (_, after_open) =>
          match find_ci "</svg>" after_open with
          | None => None
          | Some (inner, _) => Some inner
          end
      end
  end.

(** [content] reads, somewhere, [attr], an equals sign and [v] between
    double quotes.  This is a place of the text, as the patterns of
    [parseSvgFile] find it, and not an attribute of the svg element:
    [attr] may be the tail of a longer name, as [width] is of
    [stroke-width], and the place may lie in a child element or in a
    comment; a value between single quotes is no such place. *)
Definition has_attribute (attr v content : string) : Prop :=
  exists before after,
    content = before ++ attr ++ "=" ++ quote ++ v ++ quote ++ after
    /\ v <> "" /\ all (fun c => negb (Ascii.eqb c dquote)) v = true.

Definition lacks_attribute (attr content : string) : Prop :=
  forall v, ~ has_attribute attr v content.

(** [s] starts with [lit]; what follows it. *)
Fixpoint strip (lit s : string) : option string :=
  match lit, s with
  | EmptyString, _ => Some s
  | String a lit', String b s' => if Ascii.eqb a b then strip lit' s' else None
  | String _ _, EmptyString => None
  end.

(** The text up to the closing double quote, when it is closed and not
    empty. *)
Definition quoted (s : string) : option string :=
  match until_char dquote s with
  | Some (v, _) => if is_empty v then None else Some v
  | None => None
  end.

(** The value at the first such place: the quoted text after the first
    place of the text that reads [attr], an equals sign, a double quote,
    a value that is not empty, and a double quote. *)
Fixpoint attribute (attr content : string) : option string :=
  let here :=
    match strip (attr ++ "=" ++ quote) content with
    | Some rest => quoted rest
    | None => None
    end in
  match here with
  | Some v => Some v
  | None =>
      match content with
      | String _ content' => attribute attr content'
      | EmptyString => None
      end
  end.

(** A numeric value: one whose leading decimal literal denotes a
    finite number; and the numeric value at the first place that reads
    [attr="..."]. *)
Definition numeric (v : string) : option number :=
  let x := parseFloat v in if isFinite x then Some x else None.

Definition explicit (attr content : string) : option number :=
  match attribute attr content with
  | Some v => numeric v
  | None => None
  end.

(** The four components of a viewBox: the numbers its pieces between
    runs of white space and commas denote, when there are exactly four
    pieces and each denotes a number. *)
Definition components (viewBox : string) : option (number * number * number * number) :=
  match List.map parseFloat (split Svg.is_separator viewBox) with
  | [a; b; c; d] =>
      if isNaN a || isNaN b || isNaN c || isNaN d then None else Some (a, b, c, d)
  | _ => None
  end.

(** The dimension resolved from an explicit attribute, else a viewBox
    component, else the default. *)
Definition resolved (attr : option number) (component : option number) (default : number)
    : number :=
  match attr, component with
  | Some x, _ => x
  | None, Some c => c
  | None, None => default
  end.

(** A unit suffix: text that starts neither with a digit nor with a
    point and is not an exponent part. *)
Definition unit_suffix (u : string) : bool :=
  match u with
  | EmptyString => true
  | String c _ => negb (is_digit c) && negb (Ascii.eqb c ".") && (exponent u =? 0)%Z
  end.

(** The body a descriptor yields: the trimmed inner markup of its raw
    SVG text when that is not blank; otherwise one path element per
    path string that is not blank, joined by line feeds; nothing when
    neither is there. *)
Definition raw_markup (d : SvgData) : option string :=
  match svg_raw d with
  | Some raw =>
      match inner_markup raw with
      | Some inner => if is_empty (trim inner) then None else Some (trim inner)
      | None => None
      end
  | None => None
  end.

Definition path_strings (d : SvgData) : list string :=
  match svg_path d with
  | Some (PathString p) => [p]
  | Some (PathList l) => l
  | None => []
  end.

Definition path_markup (d : SvgData) : option string :=
  match List.filter Svg.nonblank (path_strings d) with
  | [] => None
  | ps => Some (join Svg.newline (List.map Svg.path_element ps))
  end.

Definition synthesized (d : SvgData) : option string :=
  match raw_markup d with
  | Some b => Some b
  | None => path_markup d
  end.

(** [text] contains [query], the case of ASCII letters apart. *)
Definition contains_ci (query text : string) : Prop :=
  exists before mid after,
    text = before ++ mid ++ after /\ lowercase mid = lowercase query.

(** The same as a test: some suffix of [text] starts with [query]. *)
Fixpoint includes_ci (query text : string) : bool :=
  match strip_ci query text with
  | Some _ => true
  | None =>
      match text with
      | EmptyString => false
      | String _ text' => includes_ci query text'
      end
  end.

(** A text without a NUL character. *)
Definition nul_free (s : string) : bool :=
  all (fun c => negb (code c =? 0)%N) s.

(** A query whose pattern, the query between two percent signs, is
    within the 50000 bytes SQLite allows a LIKE pattern. *)
Definition within_limit (query : string) : bool :=
  (utf8_length query + 2 <=? 50000)%N.

(** A query in which no character is a wildcard of LIKE. *)
Definition wildcard_free (query : string) : bool :=
  all (fun c => negb (Ascii.eqb c "%") && negb (Ascii.eqb c "_")) query.

(** The order of (name, style), names first, both by code units. *)
Definition by_name_style (a b : IconData) : Prop :=
  match String.compare (name a) (name b) with
  | Lt => True
  | Eq => String.leb (style a) (style b) = true
  | Gt => False
  end.

(** The restriction a list of styles imposes, when it is given and not
    empty. *)
Definition in_styles (styles : option (list string)) (d : IconData) : Prop :=
  match styles with
  | Some (s :: l) => In (style d) (s :: l)
  | _ => True
  end.

(** A record the store accepts: its width and its height are numbers
    other than NaN. *)
Definition accepted (d : IconData) : bool :=
  negb (isNaN (width d)) && negb (isNaN (height d)).

(** A number as the store gives it back: itself, but for the negative
    zero, which comes back as zero. *)
Definition unsigned_zero (x : number) : number :=
  if JsNumber.eqb x (S754_zero true) then S754_zero false else x.

(** A record as the store gives it back. *)
Definition as_stored (d : IconData) : IconData :=
  {| name := name d; style := style d; body := body d;
     width := unsigned_zero (width d); height := unsigned_zero (height d);
     viewBox := viewBox d; unicode := unicode d; searchTerms := searchTerms d |}.

(** What a sequence of [insertIcon] calls writes: the records that are
    accepted, as the store gives them back, oldest first. *)
Definition written (writes : list IconData) : list IconData :=
  List.map as_stored (List.filter accepted writes).

(** The records a sequence of upserts leaves, oldest write first: of two
    records with the same (name, style) only the later one stays, at the
    place of the later one. *)
Definition same_key (a b : IconData) : bool :=
  String.eqb (name a) (name b) && String.eqb (style a) (style b).

Fixpoint latest (writes : list IconData) : list IconData :=
  match writes with
  | [] => []
  | d :: rest => if existsb (same_key d) rest then latest rest else d :: latest rest
  end.

(** The last write to the key (name, style), if any. *)
Fixpoint last_write (n s : string) (writes : list IconData) : option IconData :=
  match writes with
  | [] => None
  | d :: rest =>
      match last_write n s rest with
      | Some d' => Some d'
      | None => if String.eqb (name d) n && String.eqb (style d) s then Some d else None
      end
  end.

Definition metadata_of (kit : KitParserService.Kit) : gmap string FontAwesomeIcon :=
  match KitParserService.iconsMetadata kit with Some m => m | None => ∅ end.

(** The numbers of a descriptor. *)
Definition numbers_of (d : SvgData) : list number :=
  (match svg_width d with Some x => [x] | None => [] end
   ++ match svg_height d with Some x => [x] | None => [] end
   ++ match svg_viewBox d with Some l => l | None => [] end)%list.

(** A metadata map as [JSON.parse] and [Object.assign] make it of a
    file that has no key [__proto__]: that key is no property of it,
    and none of its numbers is NaN, for which JSON has no notation. *)
Definition from_json (metadata : gmap string FontAwesomeIcon) : Prop :=
  metadata !! "__proto__" = None
  /\ forall name icon style d x,
       metadata !! name = Some icon -> icon_svg icon !! style = Some d ->
       In x (numbers_of d) -> isNaN x = false.

(** A listing of the [svgs] directory in which every directory can be
    listed. *)
Definition listable (entries : list (string * KitParserService.DirEntry)) : Prop :=
  forall style, ~ In (style, KitParserService.Unlistable) entries.

Definition terms_of (icon : FontAwesomeIcon) : list string :=
  match icon_search_terms icon with Some terms => terms | None => [] end.

(** A token between separators, and a run of separators. *)
Definition token (set : ascii -> bool) (t : string) : Prop :=
  t <> "" /\ all (fun c => negb (set c)) t = true.

Definition gap (set : ascii -> bool) (s : string) : Prop :=
  s <> "" /\ all set s = true.

(** The store after a call of [insertIcon], whether it returned or
    threw, and after a sequence of calls on a fresh database. *)
Definition attempt (db : DatabaseService.Database) (d : IconData)
    : DatabaseService.Database :=
  match DatabaseService.insertIcon db d with
  | Some db' => db'
  | None => db
  end.

Definition after (writes : list IconData) : DatabaseService.Database :=
  fold_left attempt writes DatabaseService.initDatabase.

Definition key (d : IconData) : string * string := (name d, style d).

Definition row_key (r : DatabaseService.Row) : string * string :=
  (DatabaseService.r_name r, DatabaseService.r_style r).

(** *** Notions used in the proofs *)

(** After the tag name, some [>] is followed, somewhere, by a closing
    tag. *)
Definition closes (s : string) : Prop :=
  exists a b, until_char ">" s = Some (a, b) /\ find_ci "</svg>" b <> None.

(** The match of the svg pattern at the head of [s]. *)
Definition at_head (s : string) : option (list string * string) :=
  match strip_ci "<svg" s with
  | Some after_name =>
      match until_char ">" after_name with
      | Some (_, after_open) =>
          match find_ci "</svg>" after_open with
          | Some (inner, rest) => Some ([inner], rest)
          | None => None
          end
      | None => None
      end
  | None => None
  end.

(** [s] does not start with white space. *)
Definition headed (s : string) : Prop :=
  match s with String c _ => is_white c = false | EmptyString => True end.

(** [r] is the row that keeps the fields of [d] as they are. *)
Definition row_of (id : Z) (d : IconData) : DatabaseService.Row :=
  {| DatabaseService.r_id := id;
     DatabaseService.r_name := name d;
     DatabaseService.r_style := style d;
     DatabaseService.r_body := body d;
     DatabaseService.r_width := width d;
     DatabaseService.r_height := height d;
     DatabaseService.r_viewBox := viewBox d;
     DatabaseService.r_unicode := unicode d;
     DatabaseService.r_searchTerms := Json.stringify (searchTerms d) |}.

Definition holds (r : DatabaseService.Row) (d : IconData) : Prop :=
  exists id, r = row_of id d.

(** The number of records [generatePackage] reads for a style. *)
Definition count (db : DatabaseService.Database) (style : string) : nat :=
  List.length (PackageGenerator.getIconsByStyle db style).

Definition add_icon (m : gmap string IconifyIcon) (icon : PackageGenerator.Selected)
    : gmap string IconifyIcon :=
  JsObject.assign (PackageGenerator.s_name icon) (PackageGenerator.toIconify icon) m.

End Reference.

(** ** The words a pattern accepts *)

Module Grammar.
Import JsString Pattern.

Fixpoint flatten (l : list string) : string :=
  match l with
  | [] => ""
  | x :: l' => x ++ flatten l'
  end.

(** The regular language of a pattern. *)
Fixpoint lang (r : Pattern.t) (s : string) : Prop :=
  match r with
  | Never => False
  | Empty => s = ""
  | Class set => exists c, s = String c "" /\ set c = true
  | Seq a b => exists s1 s2, s = s1 ++ s2 /\ lang a s1 /\ lang b s2
  | Alt a b => lang a s \/ lang b s
  | Star a => exists l, s = flatten l /\ Forall (fun x => x <> "" /\ lang a x) l
  end.

(** A first character from [head] followed by characters from [tail]. *)
Definition headed_by (head tail : ascii -> bool) (s : string) : bool :=
  match s with
  | String c s' => head c && all tail s'
  | EmptyString => false
  end.

(** The names of packages: [base], or [@scope/base]. *)
Definition package_name (name : string) : Prop :=
  headed_by PackageValidation.name_head PackageValidation.name_tail name = true
  \/ exists scope base,
       name = "@" ++ scope ++ "/" ++ base
       /\ headed_by PackageValidation.scope_head PackageValidation.scope_tail scope = true
       /\ headed_by PackageValidation.name_head PackageValidation.name_tail base = true.

(** The characters a package name is made of. *)
Definition package_char (c : ascii) : bool :=
  range "a" "z" c || range "0" "9" c || one_of "-*._~@/" c.

(** A decimal numeral without leading zeros. *)
Definition numeral (s : string) : bool :=
  match s with
  | EmptyString => false
  | String c s' => if Ascii.eqb c "0" then is_empty s' else is_digit c && all is_digit s'
  end.

Definition is_letter (c : ascii) : bool := range "a" "z" c || range "A" "Z" c.

Definition identifier_char (c : ascii) : bool :=
  is_digit c || is_letter c || Ascii.eqb c "-".

(** The identifiers of Semantic Versioning.  Of a pre-release: a
    numeral, or letters, digits and hyphens that are not all digits.
    Of build metadata: letters, digits and hyphens, one at least. *)
Definition prerelease_id (s : string) : bool :=
  numeral s || (all identifier_char s && negb (all is_digit s)).

Definition build_id (s : string) : bool :=
  negb (is_empty s) && all identifier_char s.

(** Identifiers separated by dots, one at least. *)
Definition dotted_ids (ok : string -> bool) (s : string) : Prop :=
  exists id ids, s = join "." (id :: ids) /\ Forall (fun x => ok x = true) (id :: ids).

(** MAJOR.MINOR.PATCH, then optionally a hyphen and pre-release
    identifiers, then optionally a plus sign and build identifiers. *)
Definition semver (version : string) : Prop :=
  exists major minor patch pre build,
    version = major ++ "." ++ minor ++ "." ++ patch ++ pre ++ build
    /\ numeral major = true /\ numeral minor = true /\ numeral patch = true
    /\ (pre = "" \/ exists ids, pre = "-" ++ ids /\ dotted_ids prerelease_id ids)
    /\ (build = "" \/ exists ids, build = "+" ++ ids /\ dotted_ids build_id ids).

End Grammar.

(** ** The layout of a kit *)

Module Layout.
Import JsString KitValidationService.

(** What [validateKit] reports for a required directory, if anything. *)
Definition complaint (fs : FileSystem) (dir : string) : option string :=
  match stat fs dir with
  | Some true => None
  | Some false => Some (dir ++ " is not a directory")
  | None => Some ("Missing required directory: " ++ dir)
  end.

(** The three required directories are there, and are directories. *)
Definition well_formed (fs : FileSystem) : Prop :=
  forall dir, In dir requiredDirs -> stat fs dir = Some true.

End Layout.

(** ** Notions of the store, of a pass and of the export *)

Module Notions.
Import JsString JsNumber Types DatabaseService Reference.

(** The records one entry of the [svgs] directory gives rise to, in
    [readdir] order, and those of a whole pass over a kit. *)
Definition reconciled (metadata : gmap string FontAwesomeIcon)
    (subdir : string * KitParserService.DirEntry) : list IconData :=
  match snd subdir with
  | KitParserService.Directory files =>
      omap (fun e => KitParserService.reconcile metadata (fst subdir) (fst e) (snd e))
           (KitParserService.svgFiles files)
  | _ => []
  end.

Definition pass (kit : KitParserService.Kit) : list IconData :=
  match KitParserService.svgsDir kit with
  | Some entries => flat_map (reconciled (metadata_of kit)) entries
  | None => []
  end.

(** The columns of a record that [generatePackage] reads. *)
Definition selected_of (d : IconData) : PackageGenerator.Selected :=
  {| PackageGenerator.s_name := name d; PackageGenerator.s_body := body d;
     PackageGenerator.s_width := width d; PackageGenerator.s_height := height d |}.

(** *** Notions used in the proofs *)

(** The row of [d] passes the WHERE clause of [searchIcons] on name and
    search terms. *)
Definition matched (query : string) (d : IconData) : bool :=
  let pattern := c_string ("%" ++ query ++ "%") in
  like pattern (c_string (name d)) || like pattern (c_string (Json.stringify (searchTerms d))).

(** What a pass does, in order: it inserts a record, or it throws. *)
Inductive event :=
| Insert (d : IconData)
| Throw.

Definition event_of (d : IconData) : event :=
  if accepted d then Insert d else Throw.

Definition events (metadata : gmap string FontAwesomeIcon)
    (subdir : string * KitParserService.DirEntry) : list event :=
  match snd subdir with
  | KitParserService.Directory _ => List.map event_of (reconciled metadata subdir)
  | KitParserService.Unlistable => [Throw]
  | KitParserService.NotDirectory => []
  end.

(** The records inserted up to the first throw, and how the pass ends. *)
Fixpoint performed (l : list event) : list IconData * KitParserService.Completion :=
  match l with
  | [] => ([], KitParserService.Resolved)
  | Insert d :: l' => let '(ws, c) := performed l' in (d :: ws, c)
  | Throw :: _ => ([], KitParserService.Rejected)
  end.

(** What a pass inserts, and how it ends, whatever the store holds. *)
Definition trace (kit : KitParserService.Kit)
    : list IconData * KitParserService.Completion :=
  match KitParserService.svgsDir kit with
  | Some entries => performed (flat_map (events (metadata_of kit)) entries)
  | None => ([], KitParserService.Rejected)
  end.

End Notions.
(** ** Sample kits *)

Module Fixtures.
Import JsString JsNumber Types KitParserService.

Definition descriptor (raw : option string) (path : option SvgPathData)
    (viewBox : option (list number)) : SvgData :=
  {| svg_height := None; svg_path := path; svg_raw := raw;
     svg_viewBox := viewBox; svg_width := None |}.

Definition sample_icon (d : SvgData) : FontAwesomeIcon :=
  {| icon_svg := {[ "solid" := d ]}; icon_unicode := "f101";
     icon_search_terms := Some ["sample"] |}.

Definition sample_metadata (d : SvgData) : gmap string FontAwesomeIcon :=
  {[ "sample" := sample_icon d ]}.

(** A kit with one style, [solid], one icon, [sample], the descriptor
    [d] for it and the file content [file]. *)
Definition sample_kit (d : SvgData) (file : option string) : Kit :=
  {| iconsMetadata := Some (sample_metadata d);
     svgsDir := Some [("solid", Directory [("sample.svg", file)])] |}.

Definition box_10 : list number := [of_Z 0; of_Z 0; of_Z 10; of_Z 10].

Definition with_path_and_box : SvgData :=
  descriptor None (Some (PathString "M0 0h10v10H0z")) (Some box_10).

Definition rect_48_64 : string :=
  dq "<svg xmlns='http://www.w3.org/2000/svg' width='48' height='64' viewBox='0 0 48 64'><rect width='48' height='64' fill='currentColor'/></svg>".

(** The SVGs of the test suite of [parseSvgFile]. *)
Definition viewBox_only : string :=
  dq "<svg xmlns='http://www.w3.org/2000/svg' viewBox='0 0 320 512'><path d='M0 0h320v512H0z'/></svg>".

Definition sized_128px : string :=
  dq "<svg xmlns='http://www.w3.org/2000/svg' width='128px' height='256' viewBox='0 0 320 512'><path d='M0 0h320v512H0z'/></svg>".

(** A file whose viewBox attribute is white space only. *)
Definition blank_viewBox : string := dq "<svg viewBox=' '><rect/></svg>".

(** A file cut off before its markup. *)
Definition truncated_file : string := dq "<svg viewBox='0 0 512 512'>".

(** Descriptors with raw SVG text, or a path list, that hold no markup. *)
Definition empty_raw : SvgData := descriptor (Some "<svg></svg>") None None.
Definition blank_paths : SvgData := descriptor None (Some (PathList [" "])) None.

Definition two_paths : SvgData :=
  descriptor None (Some (PathList ["M0 0h10v10H0z"; "M1 1h2v2H1z"])) None.

(** Records for the store. *)
Definition record (name style : string) (terms : list string) : IconData :=
  {| Types.name := name; Types.style := style; body := "<path d='M0 0'/>";
     width := of_Z 448; height := of_Z 512; viewBox := "0 0 448 512";
     unicode := Some "f0f3"; searchTerms := terms |}.

Definition bell : IconData := record "bell" "solid" ["alarm"; dq "say 'ring'"].
Definition anchor : IconData := record "anchor" "solid" ["boat"].
Definition bolt : IconData := record "bolt" "solid" ["flash"].
Definition user : IconData := record "user" "regular" ["person"].

Definition sample_config (styles : list string) : KitConfig :=
  {| cfg_name := "fa-icons"; cfg_version := "1.0.0"; cfg_description := "";
     cfg_iconSetName := "FontAwesome Pro"; cfg_prefix := "fa-pro";
     cfg_outputDir := "./fa-iconify-package"; cfg_selectedStyles := styles |}.

End Fixtures.

(** ** Further samples *)

Module Samples.
Import JsString JsNumber Types KitParserService KitValidationService Fixtures.

(** What [viewBox_only] parses to. *)
Definition parsed_viewBox_only : Svg.ParsedSvg :=
  {| Svg.p_body := dq "<path d='M0 0h320v512H0z'/>";
     Svg.p_width := of_Z 320; Svg.p_height := of_Z 512; Svg.p_viewBox := "0 0 320 512" |}.

(** What [rect_48_64] parses to. *)
Definition parsed_rect_48_64 : Svg.ParsedSvg :=
  {| Svg.p_body := dq "<rect width='48' height='64' fill='currentColor'/>";
     Svg.p_width := of_Z 48; Svg.p_height := of_Z 64; Svg.p_viewBox := "0 0 48 64" |}.

(** The record of [rect_48_64] under the sample metadata. *)
Definition sample_record : IconData :=
  {| name := "sample"; style := "solid";
     body := dq "<rect width='48' height='64' fill='currentColor'/>";
     width := of_Z 48; height := of_Z 64; viewBox := "0 0 48 64";
     unicode := Some "f101"; searchTerms := ["sample"] |}.

(** The record [bell] with a width that is no number, and with the
    negative zero for its width. *)
Definition resized (d : IconData) (w : number) : IconData :=
  {| name := name d; style := style d; body := body d; width := w; height := height d;
     viewBox := viewBox d; unicode := unicode d; searchTerms := searchTerms d |}.

Definition bell_NaN : IconData := resized bell NaN.
Definition bell_negative_zero : IconData := resized bell (S754_zero true).

(** A kit with a file that is no SVG and an entry that is no directory. *)
Definition mixed_entries : list (string * DirEntry) :=
  [("solid", Directory [("sample.svg", Some rect_48_64); ("notes.txt", None)]);
   ("README.md", NotDirectory)].

Definition mixed_kit : Kit :=
  {| iconsMetadata := Some (sample_metadata with_path_and_box);
     svgsDir := Some mixed_entries |}.

(** A kit whose [icons.json] cannot be read. *)
Definition kit_without_metadata : Kit :=
  {| iconsMetadata := None;
     svgsDir := Some [("solid", Directory [("sample.svg", Some rect_48_64)])] |}.

(** A file whose width attribute is the negative zero. *)
Definition negative_zero_width : string :=
  dq "<svg width='-0' viewBox='0 0 10 10'><rect/></svg>".

(** A kit whose icon has a descriptor with two paths and no file in
    the directory of its style. *)
Definition kit_without_file : Kit :=
  {| iconsMetadata := Some (sample_metadata two_paths);
     svgsDir := Some [("solid", Directory [])] |}.

(** A kit with a file named after a member of [Object.prototype], for
    which the metadata has no entry. *)
Definition kit_with_constructor : Kit :=
  {| iconsMetadata := Some (sample_metadata with_path_and_box);
     svgsDir := Some [("solid", Directory [("constructor.svg", Some rect_48_64)])] |}.

(** A record named [__proto__], and a record whose style is
    [__proto__]. *)
Definition proto_named : IconData := record "__proto__" "solid" ["prototype"].
Definition proto_styled : IconData := record "bell" "__proto__" ["alarm"].

(** A complete kit directory, and one without the fonts directory. *)
Definition complete_layout : FileSystem :=
  {| stat := fun _ => Some true;
     readdir := fun dir =>
       if String.eqb dir "metadata" then Some [("icons.json", false)]
       else Some [("solid", true); ("LICENSE.txt", false)] |}.

Definition layout_without_fonts : FileSystem :=
  {| stat := fun dir => if String.eqb dir "otfs" then None else Some true;
     readdir := fun _ => None |}.

End Samples.

(** * Properties *)

(** ** Strings and regular expressions *)

Module StringFacts.
Import JsString.

Lemma append_nil_r (s : string) : s ++ "" = s.
Proof. induction s as [|c s IH]; simpl; [reflexivity | now rewrite IH]. Qed.

Lemma append_assoc (a b c : string) : (a ++ b) ++ c = a ++ b ++ c.
Proof. induction a as [|x a IH]; simpl; [reflexivity | now rewrite IH]. Qed.

Lemma append_snoc (a b : string) (c : ascii) : (a ++ String c "") ++ b = a ++ String c b.
Proof. now rewrite append_assoc. Qed.

End StringFacts.

Module RegExpFacts.
Import JsString RegExp Reference StringFacts.

Lemma eat_exact (lit s r : string) : eat false lit s = Some r -> s = lit ++ r.
Proof.
  revert s; induction lit as [|a lit IH]; intros s H; simpl in *.
  - congruence.
  - destruct s as [|b s]; [discriminate |].
    unfold same in H. destruct (Ascii.eqb_spec a b) as [->|]; [|discriminate].
    simpl. f_equal. now apply IH.
Qed.

Lemma eat_ci (lit s : string) : eat true lit s = strip_ci lit s.
Proof.
  revert s; induction lit as [|a lit IH]; intros [|b s]; simpl; try reflexivity.
  rewrite IH. reflexivity.
Qed.

(** Whatever the quantifier, a successful repetition consumed a run of
    at least [min] characters of the class and handed the rest on. *)
Lemma repeat_sound {R} set q (k : string -> string -> option R) min got s r :
  repeat set q k min got s = Some r ->
  exists a b, s = a ++ b /\ all set a = true /\ (min <= String.length a)%nat
              /\ k (got ++ a) b = Some r.
Proof.
  revert min got; induction s as [|c s IH]; intros min got H.
  - simpl in H. destruct min.
    + exists "", "". rewrite (append_nil_r got). destruct q; simpl in *; repeat split; auto.
      destruct (k got ""); congruence.
    + destruct q; discriminate.
  - simpl in H.
    assert (Hmore : (if set c then repeat set q k (Nat.pred min) (got ++ String c "") s else None) = Some r ->
                    exists a b, String c s = a ++ b /\ all set a = true
                                /\ (min <= String.length a)%nat /\ k (got ++ a) b = Some r).
    { destruct (set c) eqn:Hc; [|discriminate]. intros Hm.
      destruct (IH _ _ Hm) as (a & b & -> & Ha & Hl & Hk).
      exists (String c a), b. simpl. rewrite Hc, Ha. rewrite append_snoc in Hk.
      repeat split; auto. lia. }
    assert (Hstop : match min with O => k got (String c s) | S _ => None end = Some r ->
                    exists a b, String c s = a ++ b /\ all set a = true
                                /\ (min <= String.length a)%nat /\ k (got ++ a) b = Some r).
    { destruct min; [|discriminate]. intros Hk. exists "", (String c s).
      rewrite (append_nil_r got). simpl. auto. }
    destruct q.
    + destruct (if set c then _ else _) eqn:E in H.
      * apply Hmore. rewrite E. exact H.
      * apply Hstop. exact H.
    + destruct (match min with O => _ | S _ => _ end) eqn:E in H.
      * apply Hstop. rewrite E. exact H.
      * apply Hmore. exact H.
Qed.

(** *** The attribute patterns *)

Lemma exec_at_attribute attr s caps rest :
  exec_at false (source (Svg.attribute_re attr)) [] s = Some (caps, rest) ->
  exists v, caps = [v] /\ s = attr ++ "=" ++ quote ++ v ++ quote ++ rest
            /\ v <> "" /\ all (Svg.not_char dquote) v = true.
Proof.
  unfold Svg.attribute_re. cbn [source exec_at]. intros H.
  destruct (eat false (attr ++ "=" ++ quote) s) as [s1|] eqn:E1; [|discriminate].
  apply eat_exact in E1. subst s.
  apply repeat_sound in H. destruct H as (v & b & -> & Hv & Hl & Hk).
  destruct (eat false quote b) as [s2|] eqn:E2; [|discriminate].
  apply eat_exact in E2. subst b. inversion Hk; subst.
  exists v. repeat split; auto.
  - now rewrite !append_assoc.
  - intros ->. simpl in Hl. lia.
Qed.

Lemma exec_attribute_sound attr content caps :
  exec (Svg.attribute_re attr) content = Some caps ->
  exists v, caps = [v] /\ has_attribute attr v content.
Proof.
  induction content as [|c content IH]; intros H.
  - cbn [exec] in H.
    destruct (exec_at _ _ _ _) as [[caps' rest]|] eqn:E; [|discriminate].
    inversion H; subst. apply exec_at_attribute in E.
    destruct E as (v & -> & Hs & Hne & Hq).
    exists v. split; [reflexivity|]. exists "", rest. auto.
  - cbn [exec] in H.
    destruct (exec_at _ _ _ _) as [[caps' rest]|] eqn:E.
    + inversion H; subst. apply exec_at_attribute in E.
      destruct E as (v & -> & Hs & Hne & Hq).
      exists v. split; [reflexivity|]. exists "", rest. auto.
    + destruct (IH H) as (v & -> & before & after & -> & Hne & Hq).
      exists v. split; [reflexivity|]. exists (String c before), after. auto.
Qed.

Lemma eat_strip (lit s : string) : eat false lit s = strip lit s.
Proof.
  revert s; induction lit as [|a lit IH]; intros [|b s]; cbn [eat strip]; try reflexivity.
  unfold same. now rewrite IH.
Qed.

Lemma greedy_until_quote (caps : list string) (s got : string) (min : nat) :
  repeat (Svg.not_char dquote) Greedy
    (fun got rest =>
       match eat false quote rest with
       | Some s' => Some ((caps ++ [got])%list, s')
       | None => None
       end) min got s
  = match until_char dquote s with
    | Some (v, rest) =>
        if (min <=? String.length v)%nat then Some ((caps ++ [(got ++ v)%string])%list, rest)
        else None
    | None => None
    end.
Proof.
  revert got min; induction s as [|c s IH]; intros got min.
  - cbn [repeat until_char]. destruct min; reflexivity.
  - cbn [repeat until_char]. unfold Svg.not_char at 1.
    destruct (Ascii.eqb_spec c dquote) as [->|Hc]; cbn [negb].
    + destruct min; [|reflexivity]. unfold quote. cbn [eat]. unfold same.
      rewrite Ascii.eqb_refl. cbn [eat Nat.leb String.length]. now rewrite append_nil_r.
    + rewrite IH. destruct (until_char dquote s) as [[v rest]|].
      * cbn [String.length]. rewrite append_snoc.
        destruct min as [|min]; cbn [Nat.pred Nat.leb]; [reflexivity|].
        destruct (min <=? String.length v)%nat; reflexivity.
      * destruct min; [|reflexivity]. unfold quote. cbn [eat]. unfold same.
        destruct (Ascii.eqb_spec dquote c); [congruence | reflexivity].
Qed.

Lemma exec_at_attribute_quoted (attr s : string) :
  option_map fst (exec_at false (source (Svg.attribute_re attr)) [] s)
  = match strip (attr ++ "=" ++ quote) s with
    | Some rest => option_map (fun v => [v]) (quoted rest)
    | None => None
    end.
Proof.
  unfold Svg.attribute_re. cbn [source exec_at]. rewrite eat_strip.
  destruct (strip (attr ++ "=" ++ quote) s) as [rest|]; [|reflexivity].
  rewrite (greedy_until_quote [] rest "" 1). unfold quoted.
  destruct (until_char dquote rest) as [[v t]|]; [|reflexivity].
  destruct v; reflexivity.
Qed.

(** The attribute patterns capture the value of the attribute. *)
Lemma exec_attribute (attr content : string) :
  group1 (exec (Svg.attribute_re attr) content) = attribute attr content.
Proof.
  induction content as [|c content IH]; cbn [exec attribute];
    pose proof (exec_at_attribute_quoted attr) as H.
  - specialize (H ""). destruct (exec_at _ _ _ _) as [[caps t]|]; cbn [option_map fst] in H.
    + destruct (strip _ _) as [rest|]; [|discriminate].
      destruct (quoted rest); [|discriminate]. now inversion H.
    + destruct (strip _ _) as [rest|]; [|reflexivity].
      destruct (quoted rest); [discriminate | reflexivity].
  - specialize (H (String c content)).
    destruct (exec_at _ _ _ _) as [[caps t]|]; cbn [option_map fst] in H.
    + destruct (strip _ _) as [rest|]; [|discriminate].
      destruct (quoted rest); [|discriminate]. now inversion H.
    + destruct (strip _ _) as [rest|]; [|exact IH].
      destruct (quoted rest); [discriminate | exact IH].
Qed.

(** *** The svg pattern *)

Lemma lower_outside_letters (c x : ascii) :
  lower c = x -> (code x < 97 \/ 122 < code x)%N -> c = x.
Proof.
  unfold lower. destruct (is_upper c) eqn:U; [|auto].
  intros E Hx. exfalso. unfold is_upper in U.
  apply andb_prop in U. destruct U as [U1 U2].
  apply N.leb_le in U1, U2.
  apply (f_equal N_of_ascii) in E. rewrite N_ascii_embedding in E by lia.
  unfold code in *. lia.
Qed.

Lemma find_ci_cons lit c s : find_ci lit s <> None -> find_ci lit (String c s) <> None.
Proof.
  intros H. cbn [find_ci].
  destruct (strip_ci lit (String c s)); [discriminate|].
  destruct (find_ci lit s) as [[a b]|]; [discriminate | contradiction].
Qed.

Lemma closes_cons c s : closes s -> closes (String c s).
Proof.
  intros (a & b & Hu & Hf). unfold closes. cbn [until_char].
  destruct (Ascii.eqb c ">") eqn:E.
  - exists "", s. split; [reflexivity|].
    clear E. revert a b Hu Hf. induction s as [|d s IH]; intros a b Hu Hf; [discriminate|].
    cbn [until_char] in Hu. destruct (Ascii.eqb d ">").
    + inversion Hu; subst. now apply find_ci_cons.
    + destruct (until_char ">" s) as [[a' b']|] eqn:E'; [|discriminate].
      inversion Hu; subst. apply find_ci_cons. eapply IH; eauto.
  - rewrite Hu. eauto.
Qed.

Lemma closes_skip c s : Ascii.eqb c ">" = false -> closes (String c s) -> closes s.
Proof.
  intros E (a & b & Hu & Hf). cbn [until_char] in Hu. rewrite E in Hu.
  destruct (until_char ">" s) as [[a' b']|] eqn:E'; [|discriminate].
  inversion Hu; subst. exists a', b. auto.
Qed.

Lemma lazy_until_close (caps : list string) (s got : string) :
  repeat Svg.any_char Lazy
    (fun got rest =>
       match eat true "</svg>" rest with
       | Some s' => Some ((caps ++ [got])%list, s')
       | None => None
       end) 0 got s
  = match find_ci "</svg>" s with
    | Some (a, b) => Some ((caps ++ [(got ++ a)%string])%list, b)
    | None => None
    end.
Proof.
  revert got; induction s as [|c s IH]; intros got.
  - cbn [repeat find_ci]. rewrite eat_ci. cbn. reflexivity.
  - cbn [repeat find_ci]. rewrite eat_ci.
    destruct (strip_ci "</svg>" (String c s)) as [r|].
    + now rewrite append_nil_r.
    + unfold Svg.any_char at 1. cbn [Nat.pred]. rewrite IH.
      destruct (find_ci "</svg>" s) as [[a b]|]; [|reflexivity].
      now rewrite append_snoc.
Qed.

Lemma greedy_until_gt {R} (X : string -> option R) (s got : string) :
  repeat (Svg.not_char ">") Greedy
    (fun _ rest => match eat true ">" rest with Some s' => X s' | None => None end) 0 got s
  = match until_char ">" s with
    | Some (_, b) => X b
    | None => None
    end.
Proof.
  revert got; induction s as [|c s IH]; intros got.
  - reflexivity.
  - cbn [repeat until_char Nat.pred]. unfold Svg.not_char at 1.
    destruct (Ascii.eqb_spec c ">") as [->|Hc]; cbn [negb].
    + reflexivity.
    + rewrite IH.
      destruct (until_char ">" s) as [[a b]|].
      * destruct (X b); [reflexivity|].
        cbn. unfold same. change (lower ">") with ">"%char.
        destruct (Ascii.eqb_spec ">" (lower c)) as [E|]; [|reflexivity].
        exfalso. apply Hc. apply lower_outside_letters; [congruence|]. left. reflexivity.
      * cbn. unfold same. change (lower ">") with ">"%char.
        destruct (Ascii.eqb_spec ">" (lower c)) as [E|]; [|reflexivity].
        exfalso. apply Hc. apply lower_outside_letters; [congruence|]. left. reflexivity.
Qed.

Lemma exec_at_svg (s : string) :
  exec_at true (source Svg.svg_re) [] s = at_head s.
Proof.
  unfold Svg.svg_re, at_head. cbn [source exec_at].
  rewrite eat_ci. destruct (strip_ci "<svg" s) as [s1|]; [|reflexivity].
  rewrite (greedy_until_gt
             (fun s' => repeat Svg.any_char Lazy
                (fun got rest =>
                   match eat true "</svg>" rest with
                   | Some s'0 => Some (([] ++ [got])%list, s'0)
                   | None => None
                   end) 0 "" s')).
  destruct (until_char ">" s1) as [[a b]|]; [|reflexivity].
  rewrite lazy_until_close. destruct (find_ci "</svg>" b) as [[i r]|]; reflexivity.
Qed.

Lemma strip_svg_closes (s r : string) :
  strip_ci "<svg" s = Some r -> closes s <-> closes r.
Proof.
  intros H.
  destruct s as [|c1 s]; [discriminate H|]. cbn [strip_ci] in H.
  destruct (Ascii.eqb_spec (lower "<") (lower c1)) as [E1|]; [|discriminate].
  destruct s as [|c2 s]; [discriminate H|]. cbn [strip_ci] in H.
  destruct (Ascii.eqb_spec (lower "s") (lower c2)) as [E2|]; [|discriminate].
  destruct s as [|c3 s]; [discriminate H|]. cbn [strip_ci] in H.
  destruct (Ascii.eqb_spec (lower "v") (lower c3)) as [E3|]; [|discriminate].
  destruct s as [|c4 s]; [discriminate H|]. cbn [strip_ci] in H.
  destruct (Ascii.eqb_spec (lower "g") (lower c4)) as [E4|]; [|discriminate].
  inversion H; subst r.
  assert (N1 : Ascii.eqb c1 ">" = false).
  { apply Ascii.eqb_neq. intros ->. vm_compute in E1. discriminate E1. }
  assert (N2 : Ascii.eqb c2 ">" = false).
  { apply Ascii.eqb_neq. intros ->. vm_compute in E2. discriminate E2. }
  assert (N3 : Ascii.eqb c3 ">" = false).
  { apply Ascii.eqb_neq. intros ->. vm_compute in E3. discriminate E3. }
  assert (N4 : Ascii.eqb c4 ">" = false).
  { apply Ascii.eqb_neq. intros ->. vm_compute in E4. discriminate E4. }
  split.
  - intros C. now apply closes_skip in C; [apply closes_skip in C; [apply closes_skip in C;
      [apply closes_skip in C|]|]|].
  - intros C. now repeat apply closes_cons.
Qed.

Lemma at_head_closes (s : string) : at_head s <> None -> closes s.
Proof.
  unfold at_head. destruct (strip_ci "<svg" s) as [r|] eqn:E; [|congruence].
  intros H. apply (strip_svg_closes _ _ E).
  destruct (until_char ">" r) as [[a b]|] eqn:U; [|congruence].
  exists a, b. split; [exact U|].
  destruct (find_ci "</svg>" b) as [[i t]|]; congruence.
Qed.

Lemma exec_svg_none (s : string) : ~ closes s -> exec Svg.svg_re s = None.
Proof.
  induction s as [|c s IH]; intros H; cbn [exec]; rewrite exec_at_svg.
  - destruct (at_head "") eqn:E; [|reflexivity].
    exfalso. apply H, at_head_closes. congruence.
  - destruct (at_head (String c s)) eqn:E.
    + exfalso. apply H, at_head_closes. congruence.
    + apply IH. intros C. apply H. now apply closes_cons.
Qed.

(** The svg pattern captures the inner markup between the svg tags. *)
Lemma exec_svg (content : string) :
  exec Svg.svg_re content = option_map (fun inner => [inner]) (inner_markup content).
Proof.
  unfold inner_markup. induction content as [|c s IH].
  - reflexivity.
  - cbn [exec find_ci]. rewrite exec_at_svg. unfold at_head.
    destruct (strip_ci "<svg" (String c s)) as [r|] eqn:E.
    + destruct (until_char ">" r) as [[a b]|] eqn:U.
      * destruct (find_ci "</svg>" b) as [[i t]|] eqn:F; [reflexivity|].
        cbn [option_map]. apply exec_svg_none. intros C. apply closes_cons with (c:=c) in C.
        apply (strip_svg_closes _ _ E) in C. destruct C as (a' & b' & U' & F').
        rewrite U in U'. inversion U'; subst. contradiction.
      * cbn [option_map]. apply exec_svg_none. intros C. apply closes_cons with (c:=c) in C.
        apply (strip_svg_closes _ _ E) in C. destruct C as (a' & b' & U' & F').
        rewrite U in U'. discriminate.
    + rewrite IH. destruct (find_ci "<svg" s) as [[a b]|]; reflexivity.
Qed.

End RegExpFacts.

Module NumberFacts.
Import JsString JsNumber Reference StringFacts.
Local Open Scope Z_scope.

Lemma digits_append (ds u : string) (acc : N) (n : Z) :
  all is_digit ds = true ->
  match u with String c _ => is_digit c = false | EmptyString => True end ->
  digits acc n (ds ++ u) = let '(v, k, _) := digits acc n ds in (v, k, u).
Proof.
  revert acc n; induction ds as [|d ds IH]; intros acc n Hd Hu.
  - cbn. destruct u as [|c u]; [reflexivity|]. cbn [digits]. now rewrite Hu.
  - cbn in Hd. apply andb_prop in Hd. destruct Hd as [Hd Hds].
    cbn [String.append digits]. rewrite Hd. now apply IH.
Qed.

Lemma digits_count (ds : string) (acc : N) (n : Z) :
  let '(_, k, _) := digits acc n ds in n <= k.
Proof.
  revert acc n; induction ds as [|d ds IH]; intros acc n; cbn [digits]; [lia|].
  destruct (is_digit d); [|lia].
  specialize (IH (acc * 10 + (code d - 48))%N (n + 1)).
  destruct (digits _ _ ds) as [[v k] t]. lia.
Qed.

Lemma digits_all (ds : string) (acc : N) (n : Z) :
  all is_digit ds = true -> let '(_, _, t) := digits acc n ds in t = "".
Proof.
  revert acc n; induction ds as [|d ds IH]; intros acc n H; cbn [digits]; [reflexivity|].
  cbn in H. apply andb_prop in H. destruct H as [Hd Hds]. rewrite Hd. now apply IH.
Qed.

Lemma digit_facts (c : ascii) :
  is_digit c = true ->
  is_white c = false /\ Ascii.eqb c "-" = false /\ Ascii.eqb c "+" = false
  /\ Ascii.eqb c "." = false /\ c <> "I"%char.
Proof.
  unfold is_digit, is_white. intros H. apply andb_prop in H. destruct H as [H1 H2].
  apply N.leb_le in H1, H2.
  repeat split.
  - repeat (apply orb_false_intro); [apply andb_false_intro2| |]; 
      first [apply N.leb_gt | apply N.eqb_neq]; unfold code in *; lia.
  - apply Ascii.eqb_neq. intros ->. vm_compute in H1. contradiction.
  - apply Ascii.eqb_neq. intros ->. vm_compute in H1. contradiction.
  - apply Ascii.eqb_neq. intros ->. vm_compute in H1. contradiction.
  - intros ->. vm_compute in H2. contradiction.
Qed.

(** [parseFloat] ignores a unit suffix after a run of digits. *)
Lemma parseFloat_unit_suffix (ds u : string) :
  ds <> "" -> all is_digit ds = true -> unit_suffix u = true ->
  parseFloat (ds ++ u) = parseFloat ds.
Proof.
  intros Hne Hds Hu. destruct ds as [|d ds]; [contradiction|].
  pose proof Hds as Hd. cbn in Hd. apply andb_prop in Hd. destruct Hd as [Hd _].
  destruct (digit_facts d Hd) as (W & M & P & D & I).
  unfold parseFloat. cbn [String.append trimStart]. rewrite W.
  unfold sign. rewrite M, P.
  assert (Pre : forall t, startsWith (String d t) "Infinity" = false).
  { intros t. cbn [startsWith]. destruct (Ascii.eqb_spec "I" d); [congruence | reflexivity]. }
  rewrite !Pre.
  change (String d (ds ++ u)) with (String d ds ++ u).
  rewrite digits_append; [|assumption|].
  2:{ destruct u as [|c u]; [exact Logic.I|]. cbn in Hu.
      destruct (is_digit c); [discriminate | reflexivity]. }
  pose proof (digits_all (String d ds) 0 0 Hds) as Ht.
  pose proof (digits_count ds (0 * 10 + (code d - 48))%N (0 + 1)) as Hc.
  cbn [digits] in *. rewrite Hd in *.
  destruct (digits _ _ ds) as [[v k] t]. subst t.
  assert ((k =? 0) = false) as -> by (apply Z.eqb_neq; lia).
  destruct u as [|c u]; [reflexivity|].
  unfold unit_suffix in Hu. apply andb_prop in Hu. destruct Hu as [Hu He].
  apply andb_prop in Hu. destruct Hu as [_ Hp].
  apply negb_true_iff in Hp. rewrite Hp.
  apply Z.eqb_eq in He. rewrite He. reflexivity.
Qed.

End NumberFacts.

Module SvgFacts.
Import JsString JsNumber Types Svg Reference StringFacts RegExpFacts NumberFacts.

Lemma trimStart_headed (s : string) : headed (trimStart s).
Proof.
  induction s as [|c s IH]; cbn [trimStart]; [exact I|].
  destruct (is_white c) eqn:E; [exact IH | exact E].
Qed.

Lemma trimStart_fixed (s : string) : headed s -> trimStart s = s.
Proof. destruct s as [|c s]; cbn; [reflexivity|]. now intros ->. Qed.

Lemma trimEnd_headed (s : string) : headed s -> headed (trimEnd s).
Proof.
  destruct s as [|c s]; cbn [trimEnd headed]; [auto|].
  intros E. rewrite E. cbn [andb headed]. exact E.
Qed.

Lemma trimEnd_idem (s : string) : trimEnd (trimEnd s) = trimEnd s.
Proof.
  induction s as [|c s IH]; cbn [trimEnd]; [reflexivity|].
  destruct (is_white c && is_empty (trimEnd s)) eqn:E; [reflexivity|].
  cbn [trimEnd]. rewrite IH, E. reflexivity.
Qed.

Lemma trim_idem (s : string) : trim (trim s) = trim s.
Proof.
  unfold trim. rewrite (trimStart_fixed (trimEnd _)).
  - apply trimEnd_idem.
  - apply trimEnd_headed, trimStart_headed.
Qed.

Lemma parseNumericAttribute_numeric (o : option string) :
  parseNumericAttribute o = match o with Some v => numeric v | None => None end.
Proof.
  destruct o as [v|]; [|reflexivity]. unfold parseNumericAttribute, numeric.
  destruct v; reflexivity.
Qed.

Lemma parseViewBoxDimensions_components (viewBox : string) :
  parseViewBoxDimensions (trim viewBox)
  = (option_map (fun '(_, _, w, _) => w) (components (trim viewBox)),
     option_map (fun '(_, _, _, h) => h) (components (trim viewBox))).
Proof.
  unfold parseViewBoxDimensions, components. rewrite trim_idem.
  destruct (List.map parseFloat _) as [|a [|b [|c [|d [|e l]]]]]; try reflexivity.
  cbn. rewrite orb_false_r.
  destruct (isNaN a), (isNaN b), (isNaN c), (isNaN d); reflexivity.
Qed.

Lemma split_run_token (set : ascii -> bool) (cur t rest : string) :
  all (fun c => negb (set c)) t = true ->
  split_run set cur (t ++ rest) = split_run set (cur ++ t) rest.
Proof.
  revert cur; induction t as [|c t IH]; intros cur H.
  - cbn. now rewrite append_nil_r.
  - cbn in H. apply andb_prop in H. destruct H as [Hc H].
    apply negb_true_iff in Hc. cbn [String.append split_run]. rewrite Hc.
    rewrite IH by assumption. now rewrite append_snoc.
Qed.

Lemma split_run_gap (set : ascii -> bool) (cur s t rest : string) :
  gap set s -> token set t ->
  split_run set cur (s ++ t ++ rest) = cur :: split_run set "" (t ++ rest).
Proof.
  intros [Hne Hs] [Tne Ht]. destruct t as [|d t]; [contradiction|].
  cbn in Ht. apply andb_prop in Ht. destruct Ht as [Hd _]. apply negb_true_iff in Hd.
  induction s as [|c s IH]; [contradiction|].
  cbn in Hs. apply andb_prop in Hs. destruct Hs as [Hc Hs].
  cbn [String.append split_run]. rewrite Hc.
  destruct s as [|c' s].
  - cbn [String.append]. rewrite !Hd. cbn [split_run String.append]. rewrite ?Hd. reflexivity.
  - cbn [String.append]. cbn in Hs. apply andb_prop in Hs. destruct Hs as [Hc' Hs].
    rewrite Hc'. apply IH; [discriminate|]. cbn. now rewrite Hc', Hs.
Qed.

(** Four tokens separated by runs of white space and commas split into
    those tokens. *)
Lemma split_four (a b c d s1 s2 s3 : string) :
  token is_separator a -> token is_separator b -> token is_separator c ->
  token is_separator d ->
  gap is_separator s1 -> gap is_separator s2 -> gap is_separator s3 ->
  split is_separator (a ++ s1 ++ b ++ s2 ++ c ++ s3 ++ d) = [a; b; c; d].
Proof.
  intros A B C D S1 S2 S3. unfold split.
  rewrite split_run_token by apply A. cbn [String.append].
  rewrite split_run_gap by assumption.
  rewrite split_run_token by apply B. cbn [String.append].
  rewrite split_run_gap by assumption.
  rewrite split_run_token by apply C. cbn [String.append].
  rewrite <- (append_nil_r d) at 1. rewrite split_run_gap by assumption.
  rewrite split_run_token by apply D. reflexivity.
Qed.

Lemma components_four (a b c d s1 s2 s3 : string) :
  token is_separator a -> token is_separator b -> token is_separator c ->
  token is_separator d ->
  gap is_separator s1 -> gap is_separator s2 -> gap is_separator s3 ->
  components (a ++ s1 ++ b ++ s2 ++ c ++ s3 ++ d)
  = if isNaN (parseFloat a) || isNaN (parseFloat b) || isNaN (parseFloat c)
       || isNaN (parseFloat d)
    then None
    else Some (parseFloat a, parseFloat b, parseFloat c, parseFloat d).
Proof.
  intros. unfold components. rewrite split_four by assumption. reflexivity.
Qed.

(** What a successful parse is made of. *)
Lemma parseSvgFile_Some (content : string) (r : ParsedSvg) :
  parseSvgFile (Some content) = Some r ->
  exists v inner,
    attribute "viewBox" content = Some v /\ has_attribute "viewBox" v content
    /\ inner_markup content = Some inner /\ trim inner <> ""
    /\ r = {| p_body := trim inner;
              p_width := resolved (explicit "width" content)
                           (option_map (fun '(_, _, w, _) => w) (components (trim v)))
                           DEFAULT_SVG_DIMENSION;
              p_height := resolved (explicit "height" content)
                            (option_map (fun '(_, _, _, h) => h) (components (trim v)))
                            DEFAULT_SVG_DIMENSION;
              p_viewBox := trim v |}.
Proof.
  unfold parseSvgFile, truthy_group. rewrite exec_svg.
  destruct (RegExp.exec (attribute_re "viewBox") content) as [caps|] eqn:E; [|discriminate].
  destruct (exec_attribute_sound _ _ _ E) as (v & -> & Hv).
  cbn [RegExp.group1]. destruct (falsy v); [discriminate|].
  destruct (inner_markup content) as [inner|]; [|discriminate].
  cbn [option_map RegExp.group1].
  destruct (falsy (trim inner)) eqn:F; [discriminate|].
  intros H. inversion H; subst r; clear H.
  exists v, inner. rewrite <- exec_attribute, E.
  repeat split; auto.
  - intros T. rewrite T in F. discriminate.
  - rewrite parseViewBoxDimensions_components, !parseNumericAttribute_numeric.
    unfold explicit, resolved, nullish, orElse. rewrite !exec_attribute. cbn [fst snd].
    f_equal.
    + destruct (attribute "width" content) as [w|];
        [destruct (numeric w)|]; try reflexivity;
        destruct (components (trim v)) as [[[[? ?] ?] ?]|]; reflexivity.
    + destruct (attribute "height" content) as [w|];
        [destruct (numeric w)|]; try reflexivity;
        destruct (components (trim v)) as [[[[? ?] ?] ?]|]; reflexivity.
Qed.

(** X29.  The width and the height of a parsed text are resolved in
    this order: the number the first [width="..."] / [height="..."] of
    the text denotes, when it denotes a finite one (the place is found
    by a scan of the text: it may be the tail of a longer name or lie
    in a child element); else the third / fourth component of the
    trimmed viewBox value, when that has exactly four numeric
    components; else 512.  A run of digits followed by a unit suffix,
    as in 128px, denotes what the digits denote. *)
Theorem parseSvgFile_dimension_order (content : string) (r : ParsedSvg) :
  parseSvgFile (Some content) = Some r ->
  p_width r = resolved (explicit "width" content)
                (option_map (fun '(_, _, w, _) => w) (components (p_viewBox r)))
                (of_Z 512)
  /\ p_height r = resolved (explicit "height" content)
                    (option_map (fun '(_, _, _, h) => h) (components (p_viewBox r)))
                    (of_Z 512)
  /\ (forall ds u, ds <> "" -> all is_digit ds = true -> unit_suffix u = true ->
        numeric (ds ++ u) = numeric ds)
  /\ (forall a b c d s1 s2 s3,
        token is_separator a -> token is_separator b -> token is_separator c ->
        token is_separator d ->
        gap is_separator s1 -> gap is_separator s2 -> gap is_separator s3 ->
        components (a ++ s1 ++ b ++ s2 ++ c ++ s3 ++ d)
        = if isNaN (parseFloat a) || isNaN (parseFloat b) || isNaN (parseFloat c)
             || isNaN (parseFloat d)
          then None
          else Some (parseFloat a, parseFloat b, parseFloat c, parseFloat d)).
Proof.
  intros H. apply parseSvgFile_Some in H.
  destruct H as (v & inner & _ & _ & _ & _ & ->). cbn [p_width p_height p_viewBox].
  split; [reflexivity|]. split; [reflexivity|]. split.
  - intros ds u Hne Hd Hu. unfold numeric. now rewrite parseFloat_unit_suffix.
  - intros. now apply components_four.
Qed.

Lemma parseSvgFile_dimension_order_witness :
  let r := {| p_body := dq "<path d='M0 0h320v512H0z'/>";
              p_width := of_Z 128; p_height := of_Z 256; p_viewBox := "0 0 320 512" |} in
  p_width r = resolved (explicit "width" Fixtures.sized_128px)
                (option_map (fun '(_, _, w, _) => w) (components (p_viewBox r)))
                (of_Z 512)
  /\ p_height r = resolved (explicit "height" Fixtures.sized_128px)
                    (option_map (fun '(_, _, _, h) => h) (components (p_viewBox r)))
                    (of_Z 512)
  /\ (forall ds u, ds <> "" -> all is_digit ds = true -> unit_suffix u = true ->
        numeric (ds ++ u) = numeric ds)
  /\ (forall a b c d s1 s2 s3,
        token is_separator a -> token is_separator b -> token is_separator c ->
        token is_separator d ->
        gap is_separator s1 -> gap is_separator s2 -> gap is_separator s3 ->
        components (a ++ s1 ++ b ++ s2 ++ c ++ s3 ++ d)
        = if isNaN (parseFloat a) || isNaN (parseFloat b) || isNaN (parseFloat c)
             || isNaN (parseFloat d)
          then None
          else Some (parseFloat a, parseFloat b, parseFloat c, parseFloat d)).
Proof.
  apply (parseSvgFile_dimension_order Fixtures.sized_128px). vm_compute. reflexivity.
Defined.

Lemma attribute_nonempty (attr content v : string) :
  attribute attr content = Some v -> falsy v = false.
Proof.
  induction content as [|c content IH]; cbn [attribute].
  - destruct (strip _ _) as [rest|]; [|discriminate]. unfold quoted.
    destruct (until_char dquote rest) as [[w t]|]; [|discriminate].
    destruct (is_empty w) eqn:E; [discriminate|]. now intros [= <-].
  - destruct (strip _ _) as [rest|]; [|exact IH]. unfold quoted.
    destruct (until_char dquote rest) as [[w t]|]; [|exact IH].
    destruct (is_empty w) eqn:E; [exact IH|]. now intros [= <-].
Qed.

(** The normalizer, in terms of the attribute and of the inner markup. *)
Lemma parseSvgFile_normalized (content : string) :
  parseSvgFile (Some content)
  = match attribute "viewBox" content, inner_markup content with
    | Some v, Some inner =>
        if is_empty (trim inner) then None
        else Some {| p_body := trim inner;
                     p_width := resolved (explicit "width" content)
                                  (option_map (fun '(_, _, w, _) => w) (components (trim v)))
                                  DEFAULT_SVG_DIMENSION;
                     p_height := resolved (explicit "height" content)
                                   (option_map (fun '(_, _, _, h) => h) (components (trim v)))
                                   DEFAULT_SVG_DIMENSION;
                     p_viewBox := trim v |}
    | _, _ => None
    end.
Proof.
  unfold parseSvgFile, truthy_group. rewrite exec_svg, !exec_attribute.
  destruct (attribute "viewBox" content) as [v|] eqn:A; [|reflexivity].
  rewrite (attribute_nonempty _ _ _ A).
  destruct (inner_markup content) as [inner|]; [|reflexivity].
  cbn [option_map RegExp.group1]. unfold falsy.
  destruct (is_empty (trim inner)); [reflexivity|].
  rewrite parseViewBoxDimensions_components, !parseNumericAttribute_numeric.
  unfold explicit, resolved, nullish, orElse. cbn [fst snd]. do 2 f_equal.
  - destruct (attribute "width" content) as [w|];
      [destruct (numeric w)|]; try reflexivity;
      destruct (components (trim v)) as [[[[? ?] ?] ?]|]; reflexivity.
  - destruct (attribute "height" content) as [w|];
      [destruct (numeric w)|]; try reflexivity;
      destruct (components (trim v)) as [[[[? ?] ?] ?]|]; reflexivity.
Qed.

(** X30.  The normalizer is total: a parsed result or the null
    outcome.  It is null when the text reads [viewBox="..."] nowhere,
    when the inner markup between the first opening svg tag and the
    first closing one after it is missing or empty after trimming, and
    when the file cannot be read, and in no other case; a parsed result
    carries the trimmed value of the first [viewBox="..."] and the
    trimmed inner markup, which is not empty. *)
Theorem parseSvgFile_null_outcome (content : string) :
  (lacks_attribute "viewBox" content -> parseSvgFile (Some content) = None)
  /\ (match inner_markup content with
      | Some inner => trim inner = ""
      | None => True
      end -> parseSvgFile (Some content) = None)
  /\ parseSvgFile None = None
  /\ (parseSvgFile (Some content) = None
      <-> attribute "viewBox" content = None
          \/ match inner_markup content with
             | Some inner => trim inner = ""
             | None => True
             end)
  /\ (forall r, parseSvgFile (Some content) = Some r ->
        exists v inner,
          attribute "viewBox" content = Some v /\ has_attribute "viewBox" v content
          /\ p_viewBox r = trim v
          /\ inner_markup content = Some inner /\ p_body r = trim inner
          /\ p_body r <> "").
Proof.
  split; [|split; [|split; [|split]]].
  - intros L. destruct (parseSvgFile (Some content)) as [r|] eqn:E; [|reflexivity].
    apply parseSvgFile_Some in E. destruct E as (v & inner & _ & Hv & _).
    exfalso. exact (L v Hv).
  - intros B. destruct (parseSvgFile (Some content)) as [r|] eqn:E; [|reflexivity].
    apply parseSvgFile_Some in E. destruct E as (v & inner & _ & _ & Hi & Hn & _).
    rewrite Hi in B. contradiction.
  - reflexivity.
  - rewrite parseSvgFile_normalized.
    destruct (attribute "viewBox" content) as [v|]; [|tauto].
    destruct (inner_markup content) as [inner|]; [|tauto].
    destruct (trim inner) as [|c t]; cbn [is_empty]; [tauto|].
    split; [discriminate|]. intros [H|H]; discriminate.
  - intros r E. apply parseSvgFile_Some in E.
    destruct E as (v & inner & Ha & Hv & Hi & Hn & ->).
    exists v, inner. cbn [p_viewBox p_body]. auto 10.
Qed.

End SvgFacts.

(** ** The staging store *)

Module JsonFacts.
Import JsString Json StringFacts.

Lemma run_escape_char (c : ascii) (tail cur : string) (acc : list string) :
  run (escape_char c ++ tail) (InString cur) acc
  = run tail (InString (cur ++ String c "")) acc.
Proof.
  destruct c as [[] [] [] [] [] [] [] []]; reflexivity.
Qed.

Lemma run_escape (s tail cur : string) (acc : list string) :
  run (escape s ++ quote ++ tail) (InString cur) acc
  = run tail AfterValue (acc ++ [(cur ++ s)%string])%list.
Proof.
  revert cur; induction s as [|c s IH]; intros cur.
  - cbn. now rewrite append_nil_r.
  - cbn [escape]. rewrite append_assoc, run_escape_char, IH.
    now rewrite append_snoc.
Qed.

Lemma run_quoted (s tail : string) (acc : list string) (st : state) :
  st = Opened \/ st = AfterComma ->
  run (quoteJSONString s ++ tail) st acc = run tail AfterValue (acc ++ [s])%list.
Proof.
  intros H. unfold quoteJSONString. rewrite !append_assoc.
  destruct H as [-> | ->]; cbn [String.append quote run];
    change (is_ws dquote) with false; rewrite Ascii.eqb_refl;
    try change (Ascii.eqb dquote "]") with false; cbn iota; apply run_escape.
Qed.

Lemma run_elements (l : list string) (acc : list string) (st : state) :
  st = Opened \/ st = AfterComma -> l <> [] ->
  run (join "," (List.map quoteJSONString l) ++ "]") st acc = Some (acc ++ l)%list.
Proof.
  intros Hst Hl. revert acc st Hst. induction l as [|x l IH]; [contradiction|].
  intros acc st Hst. destruct l as [|y l].
  - cbn [List.map join]. rewrite run_quoted by assumption. reflexivity.
  - change (join "," (List.map quoteJSONString (x :: y :: l)))
      with (quoteJSONString x ++ "," ++ join "," (List.map quoteJSONString (y :: l))).
    rewrite !append_assoc, run_quoted by assumption.
    cbn [String.append run]. change (is_ws ",") with false.
    change (Ascii.eqb "," ",") with true. cbn iota.
    rewrite IH by (auto; discriminate). now rewrite <- List.app_assoc.
Qed.

(** [JSON.parse] reads back what [JSON.stringify] wrote. *)
Lemma parse_stringify (terms : list string) : parse (stringify terms) = Some terms.
Proof.
  unfold parse, stringify. destruct terms as [|x l].
  - reflexivity.
  - cbn [String.append run]. change (is_ws "[") with false.
    change (Ascii.eqb "[" "[") with true. cbn iota.
    apply (run_elements (x :: l) [] Opened); [auto | discriminate].
Qed.

End JsonFacts.

(** ** The store *)

Module DatabaseFacts.
Import JsString JsNumber Types DatabaseService Reference StringFacts JsonFacts Fixtures.

(** *** Integers as numbers *)

Lemma shr_1_m (mrs : shr_record) :
  0 <= shr_m mrs -> shr_m (shr_1 mrs) = Z.div2 (shr_m mrs).
Proof. destruct mrs as [[|[p|p|]|p] r s]; cbn; intros H; try reflexivity; lia. Qed.

Lemma iter_shr_1_m (n : positive) (mrs : shr_record) :
  0 <= shr_m mrs -> shr_m (SpecFloat.iter_pos shr_1 n mrs) = Z.shiftr (shr_m mrs) (Zpos n).
Proof.
  revert mrs. induction n as [n IH|n IH|]; intros mrs H; cbn [SpecFloat.iter_pos].
  - assert (H1 : 0 <= shr_m (shr_1 mrs)) by (rewrite shr_1_m by assumption; now apply Z.div2_nonneg).
    assert (H2 : 0 <= shr_m (SpecFloat.iter_pos shr_1 n (shr_1 mrs)))
      by (rewrite IH by assumption; now apply Z.shiftr_nonneg).
    rewrite IH by assumption. rewrite IH by assumption. rewrite shr_1_m by assumption.
    rewrite Z.div2_spec, !Z.shiftr_shiftr by lia. f_equal. lia.
  - assert (H2 : 0 <= shr_m (SpecFloat.iter_pos shr_1 n mrs))
      by (rewrite IH by assumption; now apply Z.shiftr_nonneg).
    rewrite IH by assumption. rewrite IH by assumption.
    rewrite Z.shiftr_shiftr by lia. f_equal. lia.
  - rewrite shr_1_m by assumption. apply Z.div2_spec.
Qed.

Lemma digits2_size (p : positive) : digits2_pos p = Pos.size p.
Proof. induction p as [p IH|p IH|]; cbn; now rewrite ?IH. Qed.

Lemma digits2_bound (p : positive) : 2 ^ (Zpos (digits2_pos p) - 1) <= Zpos p.
Proof.
  rewrite digits2_size. pose proof (Pos.size_le p) as H.
  assert (E : Zpos (2 ^ Pos.size p) = 2 ^ Zpos (Pos.size p)) by now rewrite Pos2Z.inj_pow.
  assert (L : 2 ^ Zpos (Pos.size p) <= 2 * Zpos p) by (rewrite <- E; exact H).
  replace (Zpos (Pos.size p)) with (Z.succ (Zpos (Pos.size p) - 1)) in L by lia.
  rewrite Z.pow_succ_r in L by lia. lia.
Qed.

Lemma shr_record_m (m : Z) (l : location) : shr_m (shr_record_of_loc m l) = m.
Proof. destruct l as [|[]]; reflexivity. Qed.

(** Away from the subnormal range, rounding a positive mantissa leaves
    a positive mantissa. *)
Lemma shr_fexp_positive (m : positive) (e : Z) (l : location) :
  -1022 <= e ->
  0 < shr_m (fst (shr_fexp prec emax (Zpos m) e l))
  /\ e <= snd (shr_fexp prec emax (Zpos m) e l).
Proof.
  intros He. unfold shr_fexp, shr, fexp, SpecFloat.emin, prec, emax. cbn [Zdigits2].
  pose proof (digits2_bound m) as B. set (d := Zpos (digits2_pos m)) in *.
  assert (Hd : 1 <= d) by (unfold d; lia).
  rewrite Z.max_l by lia.
  replace (d + e - 53 - e) with (d - 53) by lia.
  destruct (d - 53) as [|n|n] eqn:N; cbn [fst snd]; rewrite ?shr_record_m; try lia.
  rewrite iter_shr_1_m by (rewrite shr_record_m; lia). rewrite shr_record_m.
  split; [|lia]. rewrite Z.shiftr_div_pow2 by lia.
  apply Z.div_str_pos. split; [apply Z.pow_pos_nonneg; lia|].
  etransitivity; [|exact B]. apply Z.pow_le_mono_r; lia.
Qed.

Lemma round_nearest_even_positive (m : Z) (l : location) :
  0 < m -> 0 < round_nearest_even m l.
Proof.
  intros H. destruct l as [|[]]; cbn; try lia. destruct (Z.even m); lia.
Qed.

Lemma binary_round_aux_regular (sx : bool) (m : positive) (e : Z) :
  -1022 <= e ->
  match binary_round_aux prec emax sx (Zpos m) e loc_Exact with
  | S754_finite _ _ _ | S754_infinity _ => True
  | _ => False
  end.
Proof.
  intros He. unfold binary_round_aux.
  destruct (shr_fexp_positive m e loc_Exact He) as [H1 E1].
  destruct (shr_fexp prec emax (Zpos m) e loc_Exact) as [mrs' e']. cbn [fst snd] in *.
  pose proof (round_nearest_even_positive _ (loc_of_shr_record mrs') H1) as H2.
  destruct (round_nearest_even (shr_m mrs') (loc_of_shr_record mrs')) as [|m2|m2]; try lia.
  destruct (shr_fexp_positive m2 e' loc_Exact ltac:(lia)) as [H3 _].
  destruct (shr_fexp prec emax (Zpos m2) e' loc_Exact) as [mrs'' e'']. cbn [fst snd] in *.
  destruct (shr_m mrs''); try lia. destruct (_ <=? _); exact I.
Qed.

(** An integer, as a number, is neither NaN nor the negative zero. *)
Lemma of_Z_regular (z : Z) :
  isNaN (of_Z z) = false /\ JsNumber.eqb (of_Z z) (S754_zero true) = false.
Proof.
  unfold of_Z, of_decimal. destruct (Z.abs_N z) as [|p] eqn:A.
  - assert (z = 0) by lia. subst z. split; reflexivity.
  - cbn [Z.leb Z.compare]. unfold binary_round.
    set (m := (p * Z.to_pos (10 ^ 0))%positive).
    assert (G : exists mz ez, shl_align m 0 (fexp prec emax (Zpos (digits2_pos m) + 0)) = (mz, ez)
                              /\ -1022 <= ez).
    { unfold shl_align, fexp, SpecFloat.emin, prec, emax.
      rewrite Z.max_l by lia.
      destruct (Zpos (digits2_pos m) + 0 - 53 - 0) eqn:D; eexists _, _; (split; [reflexivity|]); lia. }
    destruct G as (mz & ez & -> & Hez).
    pose proof (binary_round_aux_regular (z <? 0) mz ez Hez) as R.
    destruct (binary_round_aux prec emax (z <? 0) (Zpos mz) ez loc_Exact);
      try contradiction; split; reflexivity.
Qed.

(** *** The latest writes *)

Lemma same_key_iff (a b : IconData) : same_key a b = true <-> key a = key b.
Proof.
  unfold same_key, key. rewrite andb_true_iff, !String.eqb_eq.
  split; [intros [-> ->]; reflexivity | intros [= -> ->]; auto].
Qed.

Lemma same_key_sym (a b : IconData) : same_key a b = same_key b a.
Proof. unfold same_key. now rewrite (String.eqb_sym (name a)), (String.eqb_sym (style a)). Qed.

Lemma latest_snoc (ws : list IconData) (d : IconData) :
  latest (ws ++ [d])
  = (List.filter (fun x => negb (same_key d x)) (latest ws) ++ [d])%list.
Proof.
  induction ws as [|x ws IH]; [reflexivity|].
  cbn [app latest]. rewrite existsb_app. cbn [existsb]. rewrite orb_false_r.
  destruct (existsb (same_key x) ws); cbn [orb]; [exact IH|].
  cbn [List.filter]. rewrite (same_key_sym d x).
  destruct (same_key x d); cbn [negb]; [exact IH|].
  cbn [app]. now rewrite IH.
Qed.

Lemma latest_incl (ws : list IconData) (d : IconData) : In d (latest ws) -> In d ws.
Proof.
  induction ws as [|x ws IH]; [auto|]. cbn [latest].
  destruct (existsb (same_key x) ws); cbn [In]; intuition.
Qed.

Lemma latest_NoDup (ws : list IconData) : NoDup (List.map key (latest ws)).
Proof.
  induction ws as [|x ws IH]; [constructor|]. cbn [latest].
  destruct (existsb (same_key x) ws) eqn:E; [exact IH|].
  cbn [List.map]. constructor; [|exact IH].
  intros H. apply list_elem_of_In, in_map_iff in H. destruct H as (y & Hk & Hy).
  apply latest_incl in Hy.
  assert (existsb (same_key x) ws = true); [|congruence].
  apply existsb_exists. exists y. split; [exact Hy|]. now apply same_key_iff.
Qed.

Lemma last_write_latest (n s : string) (ws : list IconData) :
  match last_write n s ws with
  | Some d => In d (latest ws) /\ key d = (n, s)
  | None => forall d, In d ws -> key d <> (n, s)
  end.
Proof.
  induction ws as [|x ws IH]; [intros d []|]. cbn [last_write latest].
  destruct (last_write n s ws) as [d'|].
  - destruct IH as [Hin Hk]. split; [|exact Hk].
    destruct (existsb (same_key x) ws); [exact Hin | now right].
  - destruct (String.eqb (name x) n && String.eqb (style x) s) eqn:E.
    + apply andb_true_iff in E. destruct E as [En Es].
      apply String.eqb_eq in En, Es. subst n s.
      destruct (existsb (same_key x) ws) eqn:X.
      * apply existsb_exists in X. destruct X as (y & Hy & Hs).
        apply same_key_iff in Hs. exfalso. exact (IH y Hy (eq_sym Hs)).
      * split; [now left | reflexivity].
    + intros d [<-|Hd]; [|now apply IH].
      unfold key. intros [= <- <-]. rewrite !String.eqb_refl in E. discriminate.
Qed.

Lemma Forall2_filter_agree {A B} (R : A -> B -> Prop) (p : A -> bool) (q : B -> bool)
    (l1 : list A) (l2 : list B) :
  Forall2 R l1 l2 -> (forall a b, R a b -> p a = q b) ->
  Forall2 R (List.filter p l1) (List.filter q l2).
Proof.
  intros H Hpq. induction H as [|a b l1 l2 Hab H IH]; [constructor|].
  cbn [List.filter]. rewrite (Hpq a b Hab). destruct (q b); [constructor|]; assumption.
Qed.

(** *** Rows and records *)

Lemma integer_unsigned_zero (x : number) : integer x = unsigned_zero x.
Proof. destruct x as [[]| | |]; reflexivity. Qed.

(** [bind] refuses the records that are not accepted, and binds the
    others as the store gives them back. *)
Lemma bind_accepted (id : Z) (d : IconData) :
  bind id d = if accepted d then Some (row_of id (as_stored d)) else None.
Proof.
  unfold bind, accepted.
  destruct (isNaN (width d)); [reflexivity|]. destruct (isNaN (height d)); [reflexivity|].
  cbn [orb negb andb]. unfold row_of, as_stored. cbn.
  now rewrite !integer_unsigned_zero.
Qed.

Lemma insertIcon_accepted (db : Database) (d : IconData) :
  insertIcon db d
  = if accepted d
    then Some {| icons := (List.filter (fun r => negb (String.eqb (r_name r) (name d)
                                                     && String.eqb (r_style r) (style d)))
                                      (icons db)
                           ++ [row_of (sqlite_sequence db + 1) (as_stored d)])%list;
                 sqlite_sequence := sqlite_sequence db + 1 |}
    else None.
Proof.
  unfold insertIcon. rewrite bind_accepted. destruct (accepted d); reflexivity.
Qed.

Lemma attempt_rejected (db : Database) (d : IconData) :
  accepted d = false -> attempt db d = db.
Proof. intros H. unfold attempt. now rewrite insertIcon_accepted, H. Qed.

Lemma written_snoc (ws : list IconData) (d : IconData) :
  written (ws ++ [d])
  = if accepted d then (written ws ++ [as_stored d])%list else written ws.
Proof.
  unfold written. rewrite List.filter_app, List.map_app. cbn [List.filter].
  destruct (accepted d); cbn [List.map]; [reflexivity | apply app_nil_r].
Qed.

Lemma written_app (ws1 ws2 : list IconData) :
  written (ws1 ++ ws2) = (written ws1 ++ written ws2)%list.
Proof. unfold written. now rewrite List.filter_app, List.map_app. Qed.

Lemma after_app (ws1 ws2 : list IconData) :
  fold_left attempt ws2 (after ws1) = after (ws1 ++ ws2).
Proof. unfold after. now rewrite fold_left_app. Qed.

(** The rows of the store hold the latest of the records written, in
    the order of those writes. *)
Lemma after_latest (ws : list IconData) :
  Forall2 holds (icons (after ws)) (latest (written ws)).
Proof.
  unfold after. induction ws as [|d ws IH] using rev_ind; [constructor|].
  rewrite fold_left_app, written_snoc. cbn [fold_left]. unfold attempt at 1.
  rewrite insertIcon_accepted. destruct (accepted d); [|exact IH].
  rewrite latest_snoc. cbn [icons]. apply Forall2_app.
  - apply Forall2_filter_agree; [exact IH|].
    intros r x (id & ->). rewrite same_key_sym. reflexivity.
  - repeat constructor. eexists. reflexivity.
Qed.

Lemma holds_key (r : Row) (d : IconData) : holds r d -> row_key r = key d.
Proof. intros (id & ->). reflexivity. Qed.

Lemma stringify_not_empty (terms : list string) : falsy (Json.stringify terms) = false.
Proof. reflexivity. Qed.

Lemma to_icon_row_of (id : Z) (d : IconData) : to_icon (style d) (row_of id d) = Some d.
Proof.
  unfold to_icon, parse_terms. cbn [row_of r_searchTerms].
  rewrite stringify_not_empty, parse_stringify. destruct d; reflexivity.
Qed.

Lemma to_icon_holds (r : Row) (d : IconData) :
  holds r d -> to_icon (r_style r) r = Some d.
Proof. intros (id & ->). apply to_icon_row_of. Qed.

Lemma as_stored_key (d : IconData) : key (as_stored d) = key d.
Proof. reflexivity. Qed.

Lemma unsigned_zero_regular (x : number) :
  JsNumber.eqb x (S754_zero true) = false -> unsigned_zero x = x.
Proof. unfold unsigned_zero. now intros ->. Qed.

Lemma Forall2_In_l {A B} (R : A -> B -> Prop) (l1 : list A) (l2 : list B) (a : A) :
  Forall2 R l1 l2 -> In a l1 -> exists b, In b l2 /\ R a b.
Proof.
  intros H. induction H as [|x y l1 l2 Hxy H IH]; [intros []|].
  intros [<-|Ha]; [exists y; split; [now left | assumption]|].
  destruct (IH Ha) as (b & Hb & Hr). exists b. split; [now right | assumption].
Qed.

Lemma Forall2_In_r {A B} (R : A -> B -> Prop) (l1 : list A) (l2 : list B) (b : B) :
  Forall2 R l1 l2 -> In b l2 -> exists a, In a l1 /\ R a b.
Proof.
  intros H. induction H as [|x y l1 l2 Hxy H IH]; [intros []|].
  intros [<-|Hb]; [exists x; split; [now left | assumption]|].
  destruct (IH Hb) as (a & Ha & Hr). exists a. split; [now right | assumption].
Qed.

Lemma Forall2_map_eq {A B C} (R : A -> B -> Prop) (f : A -> C) (g : B -> C)
    (l1 : list A) (l2 : list B) :
  Forall2 R l1 l2 -> (forall a b, R a b -> f a = g b) -> List.map f l1 = List.map g l2.
Proof.
  intros H Hfg. induction H as [|a b l1 l2 Hab H IH]; [reflexivity|].
  cbn [List.map]. now rewrite (Hfg a b Hab), IH.
Qed.


(** C10.  A record with integer width and height, and with a string for
    its unicode, as its type has it, is accepted by [insertIcon] on a
    fresh store and read back by [getIconsByStyle], for its style,
    equal to the input in every field, the list of search terms
    included. *)
Theorem insert_then_list_roundtrip (d : IconData) :
  (exists w, width d = of_Z w) -> (exists h, height d = of_Z h) ->
  (exists u, unicode d = Some u) ->
  exists db,
    insertIcon initDatabase d = Some db
    /\ getIconsByStyle db (style d) = Some [d].
Proof.
  intros (w & Hw) (h & Hh) _.
  destruct (of_Z_regular w) as [Nw Zw], (of_Z_regular h) as [Nh Zh].
  assert (A : accepted d = true) by (unfold accepted; now rewrite Hw, Hh, Nw, Nh).
  assert (S : as_stored d = d).
  { unfold as_stored. rewrite Hw, Hh, !unsigned_zero_regular by assumption.
    rewrite <- Hw, <- Hh. now destruct d. }
  rewrite insertIcon_accepted, A, S. eexists. split; [reflexivity|].
  unfold getIconsByStyle. cbn [initDatabase icons List.filter app row_of r_style].
  rewrite String.eqb_refl. cbn [mapM].
  rewrite to_icon_row_of. reflexivity.
Qed.

Lemma insert_then_list_roundtrip_witness :
  exists db,
    insertIcon initDatabase bell = Some db
    /\ getIconsByStyle db "solid" = Some [bell].
Proof.
  apply (insert_then_list_roundtrip bell);
    [exists 448%Z | exists 512%Z | exists "f0f3"]; reflexivity.
Defined.

Lemma getIconsByStyle_holds (st : string) (rows : list Row) (ds : list IconData) :
  Forall2 holds rows ds ->
  mapM (to_icon st) (List.filter (fun r => String.eqb (r_style r) st) rows)
  = Some (List.filter (fun d => String.eqb (style d) st) ds).
Proof.
  intros H. induction H as [|r d rows ds Hrd H IH]; [reflexivity|].
  cbn [List.filter]. destruct Hrd as (id & ->). cbn [row_of r_style].
  destruct (String.eqb_spec (style d) st) as [<-|]; [|exact IH].
  cbn [mapM]. rewrite IH, to_icon_row_of. reflexivity.
Qed.

(** [getIconsByStyle] returns the records the store keeps of the
    style, in the order of their latest writes. *)
Lemma getIconsByStyle_after (writes : list IconData) (st : string) :
  getIconsByStyle (after writes) st
  = Some (List.filter (fun d => String.eqb (style d) st) (latest (written writes))).
Proof. apply getIconsByStyle_holds, after_latest. Qed.

(** A record just written is the last of its style. *)
Lemma insertIcon_listed (writes : list IconData) (d : IconData) :
  accepted d = true ->
  exists db others,
    insertIcon (after writes) d = Some db
    /\ getIconsByStyle db (style d) = Some (others ++ [as_stored d])%list.
Proof.
  intros A.
  assert (E : exists db, insertIcon (after writes) d = Some db)
    by (rewrite insertIcon_accepted, A; eauto).
  destruct E as (db & E). exists db.
  assert (D : db = after (writes ++ [d])).
  { unfold after. rewrite fold_left_app. cbn [fold_left]. unfold attempt at 1.
    unfold after in E. now rewrite E. }
  eexists. split; [exact E|].
  rewrite D, getIconsByStyle_after, written_snoc, A, latest_snoc, List.filter_app.
  cbn [List.filter as_stored style]. rewrite String.eqb_refl. reflexivity.
Qed.

(** C4, evaluated at two records written in the reverse order of
    their names, and in that order: [getIconsByStyle] lists them in the
    order of insertion, not in the order of the names; the query has no
    ORDER BY. *)
Lemma getIconsByStyle_not_by_name :
  getIconsByStyle (after [bolt; anchor]) "solid" = Some [bolt; anchor]
  /\ getIconsByStyle (after [anchor; bolt]) "solid" = Some [anchor; bolt]
  /\ String.ltb (name anchor) (name bolt) = true.
Proof. vm_compute. repeat split. Qed.

Lemma after_keys (writes : list IconData) :
  List.map row_key (icons (after writes)) = List.map key (latest (written writes)).
Proof.
  apply (Forall2_map_eq _ _ _ _ _ (after_latest writes)). intros r d. apply holds_key.
Qed.

Lemma after_keys_NoDup (writes : list IconData) :
  NoDup (List.map row_key (icons (after writes))).
Proof. rewrite after_keys. apply latest_NoDup. Qed.

Lemma NoDup_key_eq (l : list IconData) (a b : IconData) :
  NoDup (List.map key l) -> In a l -> In b l -> key a = key b -> a = b.
Proof.
  induction l as [|x l IH]; [intros _ []|]. cbn [List.map].
  intros N. apply NoDup_cons in N. destruct N as [Nx N].
  intros [->|Ha] [->|Hb] K; auto.
  - exfalso. apply Nx. apply list_elem_of_In, in_map_iff. exists b. auto.
  - exfalso. apply Nx. apply list_elem_of_In, in_map_iff. exists a. auto.
Qed.

(** The latest of the writes are the last writes of their keys. *)
Lemma latest_last_write (ws : list IconData) (d : IconData) :
  In d (latest ws) <-> last_write (name d) (style d) ws = Some d.
Proof.
  pose proof (last_write_latest (name d) (style d) ws) as L. split.
  - intros H. destruct (last_write (name d) (style d) ws) as [d'|].
    + destruct L as [Hd' K]. f_equal.
      apply (NoDup_key_eq (latest ws)); [apply latest_NoDup | assumption..].
    + exfalso. apply (L d (latest_incl _ _ H)). reflexivity.
  - intros E. rewrite E in L. tauto.
Qed.

(** C5 (amended).  [insertIcon] throws exactly for a record whose width
    or height is NaN, whatever the store holds, and then the store is
    left as it was.  After any sequence of calls the store has at most
    one row for a (name, style), and [getIconsByStyle] lists, for a
    style, the records that are the last accepted write of their
    (name, style), as the store gives them back: every field as it was
    written, the negative zero read back as zero. *)
Theorem insertIcon_last_write_wins (writes : list IconData) :
  (forall db d, insertIcon db d = None <-> accepted d = false)
  /\ (forall d, accepted d = false -> after (writes ++ [d]) = after writes)
  /\ NoDup (List.map row_key (icons (after writes)))
  /\ forall s, exists records,
       getIconsByStyle (after writes) s = Some records
       /\ NoDup (List.map name records)
       /\ forall d, In d records
                    <-> style d = s /\ last_write (name d) s (written writes) = Some d.
Proof.
  split; [|split; [|split]].
  - intros db d. rewrite insertIcon_accepted. destruct (accepted d); split; congruence.
  - intros d A. rewrite <- after_app. cbn [fold_left]. now apply attempt_rejected.
  - apply after_keys_NoDup.
  - intros s. rewrite getIconsByStyle_after. eexists. split; [reflexivity|]. split.
    + pose proof (latest_NoDup (written writes)) as N.
      induction (latest (written writes)) as [|x l IH]; [constructor|].
      cbn [List.map] in N. apply NoDup_cons in N. destruct N as [Nx N].
      cbn [List.filter]. destruct (String.eqb_spec (style x) s) as [E|]; [|now apply IH].
      cbn [List.map]. apply NoDup_cons. split; [|now apply IH].
      intros H. apply Nx. apply list_elem_of_In. apply list_elem_of_In, in_map_iff in H.
      destruct H as (y & Hy & Hin). apply filter_In in Hin. destruct Hin as [Hin Hs].
      apply String.eqb_eq in Hs. apply in_map_iff. exists y. split; [|exact Hin].
      unfold key. congruence.
    + intros d. rewrite filter_In, String.eqb_eq, latest_last_write. split.
      * intros [L E]. split; [exact E|]. now rewrite <- E.
      * intros [E L]. split; [|exact E]. now rewrite E.
Qed.

(** C5, as stated, fails: the call for a record whose width is NaN
    throws, although its key is in the store, and a width of negative
    zero is not the width the store gives back. *)
Lemma insertIcon_rejects_NaN :
  getIconsByStyle (after [bell]) "solid" = Some [bell]
  /\ key Samples.bell_NaN = key bell
  /\ insertIcon (after [bell]) Samples.bell_NaN = None
  /\ getIconsByStyle (after [Samples.bell_negative_zero]) "solid"
     = Some [Samples.resized bell (of_Z 0)]
  /\ JsNumber.eqb (width Samples.bell_negative_zero) (of_Z 0) = false.
Proof. vm_compute. repeat split. Qed.

(** *** LIKE *)

Lemma like_percent (p s : string) :
  like (String "%" p) s
  = like p s || match s with String _ s' => like (String "%" p) s' | EmptyString => false end.
Proof. destruct s; reflexivity. Qed.

Lemma like_char (c : ascii) (p s : string) :
  Ascii.eqb c "%" = false ->
  like (String c p) s
  = match s with
    | String d s' => (Ascii.eqb c "_" || Ascii.eqb (lower c) (lower d)) && like p s'
    | EmptyString => false
    end.
Proof. intros H. cbn [like]. rewrite H. reflexivity. Qed.

Lemma like_any (p s : string) :
  like (String "%" p) s = true <-> exists before rest, s = before ++ rest /\ like p rest = true.
Proof.
  induction s as [|c s IH]; rewrite like_percent.
  - rewrite orb_false_r. split.
    + intros H. exists "", "". auto.
    + intros (b & r & Hs & H). destruct b; [|discriminate]. cbn in Hs. now subst.
  - rewrite orb_true_iff, IH. split.
    + intros [H | (b & r & -> & H)].
      * exists "", (String c s). auto.
      * exists (String c b), r. auto.
    + intros (b & r & Hs & H). destruct b as [|x b].
      * cbn in Hs. subst r. now left.
      * cbn in Hs. injection Hs as -> ->. right. eauto.
Qed.

Lemma lowercase_empty (s : string) : lowercase s = "" -> s = "".
Proof. destruct s; [reflexivity | discriminate]. Qed.

Lemma like_literal (q p s : string) :
  wildcard_free q = true ->
  like (q ++ p) s = true
  <-> exists mid rest, s = mid ++ rest /\ lowercase mid = lowercase q /\ like p rest = true.
Proof.
  revert s; induction q as [|c q IH]; intros s W.
  - cbn [String.append]. split.
    + intros H. exists "", s. repeat split; auto.
    + intros (mid & rest & -> & Hm & H). apply lowercase_empty in Hm. now subst.
  - cbn in W. apply andb_prop in W. destruct W as [Wc W].
    apply andb_prop in Wc. destruct Wc as [Wp Wu].
    apply negb_true_iff in Wp, Wu.
    cbn [String.append]. rewrite like_char by assumption. rewrite Wu. cbn [orb].
    destruct s as [|d s].
    + split; [discriminate|]. intros (mid & rest & Hs & Hm & _).
      destruct mid; discriminate.
    + rewrite andb_true_iff, (IH s W), Ascii.eqb_eq. split.
      * intros (Hc & mid & rest & -> & Hm & H).
        exists (String d mid), rest. cbn. rewrite Hm, Hc. repeat split; auto.
      * intros (mid & rest & Hs & Hm & H). destruct mid as [|x mid]; [discriminate|].
        cbn in Hs, Hm. injection Hs as -> ->. injection Hm as Hx Hm.
        split; [now symmetry|]. exists mid, rest. repeat split; auto.
Qed.

Lemma strip_ci_split (q t r : string) :
  strip_ci q t = Some r <-> exists mid, t = mid ++ r /\ lowercase mid = lowercase q.
Proof.
  revert t; induction q as [|c q IH]; intros t.
  - cbn [strip_ci]. split.
    + intros [= ->]. exists "". auto.
    + intros (mid & -> & Hm). apply lowercase_empty in Hm. now subst.
  - destruct t as [|d t]; cbn [strip_ci].
    + split; [discriminate|]. intros (mid & Hs & Hm). destruct mid; discriminate.
    + destruct (Ascii.eqb_spec (lower c) (lower d)) as [E|E].
      * rewrite IH. split.
        -- intros (mid & -> & Hm). exists (String d mid). cbn. rewrite Hm, E. auto.
        -- intros (mid & Hs & Hm). destruct mid as [|x mid]; [discriminate|].
           cbn in Hs, Hm. injection Hs as -> ->. injection Hm as _ Hm. eauto.
      * split; [discriminate|]. intros (mid & Hs & Hm).
        destruct mid as [|x mid]; [discriminate|].
        cbn in Hs, Hm. injection Hs as -> ->. injection Hm as Hx _. congruence.
Qed.

(** The test [includes_ci] decides [contains_ci]. *)
Lemma includes_ci_contains (q t : string) : includes_ci q t = true <-> contains_ci q t.
Proof.
  unfold contains_ci. induction t as [|c t IH]; cbn [includes_ci].
  - destruct (strip_ci q "") as [r|] eqn:E.
    + apply strip_ci_split in E. destruct E as (mid & Hs & Hm).
      split; [|reflexivity]. intros _. exists "", mid, r. auto.
    + split; [discriminate|]. intros (b & mid & a & Hs & Hm).
      destruct b; [|discriminate]. cbn in Hs.
      assert (strip_ci q "" = Some a) by (apply strip_ci_split; eauto). congruence.
  - destruct (strip_ci q (String c t)) as [r|] eqn:E.
    + apply strip_ci_split in E. destruct E as (mid & Hs & Hm).
      split; [|reflexivity]. intros _. exists "", mid, r. auto.
    + rewrite IH. split.
      * intros (b & mid & a & -> & Hm). exists (String c b), mid, a. auto.
      * intros (b & mid & a & Hs & Hm). destruct b as [|x b].
        -- cbn in Hs. assert (strip_ci q (String c t) = Some a)
             by (apply strip_ci_split; eauto). congruence.
        -- cbn in Hs. injection Hs as -> ->. eauto.
Qed.

(** For a query without wildcards, the pattern [%query%] matches the
    texts that contain the query, the case of ASCII letters apart. *)
Lemma like_contains (q s : string) :
  wildcard_free q = true -> like ("%" ++ q ++ "%") s = true <-> contains_ci q s.
Proof.
  intros W. cbn [String.append]. rewrite like_any. unfold contains_ci. split.
  - intros (b & r & -> & H). apply (like_literal q "%" r W) in H.
    destruct H as (mid & rest & -> & Hm & _). eauto.
  - intros (b & mid & a & -> & Hm). exists b, (mid ++ a). split; [reflexivity|].
    apply (like_literal q "%" _ W). exists mid, a. repeat split; auto.
    apply like_any. exists a, "". rewrite append_nil_r. auto.
Qed.

(** *** ORDER BY name, style *)

Lemma compare_refl (a : string) : String.compare a a = Eq.
Proof.
  pose proof (String.compare_antisym a a) as H.
  destruct (String.compare a a); cbn in H; congruence.
Qed.

Lemma compare_lt_trans (a b c : string) :
  String.compare a b = Lt -> String.compare b c = Lt -> String.compare a c = Lt.
Proof.
  intros H1 H2.
  assert (L1 : String.le a b) by (unfold String.le, String.leb; now rewrite H1).
  assert (L2 : String.le b c) by (unfold String.le, String.leb; now rewrite H2).
  assert (L : String.le a c) by (etrans; eassumption).
  unfold String.le, String.leb in L.
  destruct (String.compare a c) eqn:E; [|reflexivity|contradiction].
  apply String.compare_eq_iff in E. subst c.
  assert (a = b) by (apply (anti_symm String.le); assumption). subst b.
  rewrite compare_refl in H1. discriminate.
Qed.

Lemma leb_trans (a b c : string) :
  String.leb a b = true -> String.leb b c = true -> String.leb a c = true.
Proof.
  intros H1 H2. apply Is_true_true. apply Is_true_true in H1, H2.
  change (String.le a c). etrans; eassumption.
Qed.

#[local] Instance name_style_le_total : Total name_style_le.
Proof.
  intros a b. unfold name_style_le, name_style_leb.
  rewrite (String.compare_antisym (r_name a) (r_name b)).
  destruct (String.compare (r_name b) (r_name a)); cbn [CompOpp]; auto.
  apply String.leb_total.
Qed.

#[local] Instance name_style_le_trans : Transitive name_style_le.
Proof.
  intros a b c. unfold name_style_le, name_style_leb.
  destruct (String.compare (r_name a) (r_name b)) eqn:E1; [| |discriminate];
    destruct (String.compare (r_name b) (r_name c)) eqn:E2; try discriminate.
  - apply String.compare_eq_iff in E1, E2. rewrite E1, E2.
    rewrite compare_refl. apply leb_trans.
  - apply String.compare_eq_iff in E1. rewrite E1, E2. auto.
  - apply String.compare_eq_iff in E2. rewrite <- E2, E1. auto.
  - rewrite (compare_lt_trans _ _ _ E1 E2). auto.
Qed.


(** *** Texts up to a NUL character, and the length of a pattern *)

Lemma all_append (p : ascii -> bool) (a b : string) : all p (a ++ b) = all p a && all p b.
Proof.
  induction a as [|c a IH]; [reflexivity|]. cbn. rewrite IH. now rewrite andb_assoc.
Qed.

Lemma c_string_nul_free (s : string) : nul_free s = true -> c_string s = s.
Proof.
  induction s as [|c s IH]; [reflexivity|]. cbn. intros H.
  apply andb_prop in H. destruct H as [Hc Hs]. apply negb_true_iff in Hc.
  now rewrite Hc, (IH Hs).
Qed.

Lemma escape_char_nul_free (c : ascii) : nul_free (Json.escape_char c) = true.
Proof. destruct c as [[] [] [] [] [] [] [] []]; reflexivity. Qed.

Lemma escape_nul_free (s : string) : nul_free (Json.escape s) = true.
Proof.
  induction s as [|c s IH]; [reflexivity|]. cbn [Json.escape]. unfold nul_free in *.
  now rewrite all_append, escape_char_nul_free, IH.
Qed.

Lemma quoted_nul_free (l : list string) :
  nul_free (join "," (List.map Json.quoteJSONString l)) = true.
Proof.
  assert (Q : forall x, nul_free (Json.quoteJSONString x) = true).
  { intros x. unfold Json.quoteJSONString, nul_free. rewrite !all_append.
    fold (nul_free (Json.escape x)). now rewrite escape_nul_free. }
  induction l as [|x [|y l] IH]; [reflexivity | apply Q |].
  change (join "," (List.map Json.quoteJSONString (x :: y :: l)))
    with (Json.quoteJSONString x ++ "," ++ join "," (List.map Json.quoteJSONString (y :: l))).
  unfold nul_free in *. rewrite !all_append. now rewrite Q, IH.
Qed.

(** The text [JSON.stringify] writes has no NUL character: it escapes
    the control characters. *)
Lemma stringify_nul_free (terms : list string) : nul_free (Json.stringify terms) = true.
Proof.
  unfold Json.stringify, nul_free. rewrite !all_append.
  fold (nul_free (join "," (List.map Json.quoteJSONString terms))).
  now rewrite quoted_nul_free.
Qed.

Lemma pattern_nul_free (query : string) :
  nul_free query = true -> c_string ("%" ++ query ++ "%") = "%" ++ query ++ "%".
Proof.
  intros H. apply c_string_nul_free. unfold nul_free in *.
  rewrite !all_append. now rewrite H.
Qed.

Lemma utf8_length_app (a b : string) :
  utf8_length (a ++ b) = (utf8_length a + utf8_length b)%N.
Proof. induction a as [|c a IH]; [reflexivity|]. cbn. rewrite IH. lia. Qed.

Lemma pattern_within_limit (query : string) :
  within_limit query = true ->
  (SQLITE_MAX_LIKE_PATTERN_LENGTH <? utf8_length ("%" ++ query ++ "%"))%N = false.
Proof.
  unfold within_limit, SQLITE_MAX_LIKE_PATTERN_LENGTH. intros H.
  apply N.leb_le in H. apply N.ltb_ge. rewrite !utf8_length_app.
  change (utf8_length "%") with 1%N. lia.
Qed.

(** *** [searchIcons] *)

Lemma mapM_holds (rows : list Row) :
  (forall r, In r rows -> exists d, holds r d) ->
  exists ds, mapM (fun r => to_icon (r_style r) r) rows = Some ds /\ Forall2 holds rows ds.
Proof.
  induction rows as [|r rows IH]; intros H.
  - exists []. split; [reflexivity | constructor].
  - destruct (H r (or_introl eq_refl)) as (d & Hd).
    destruct IH as (ds & Hm & Hf); [intros r' Hr'; apply H; now right|].
    exists (d :: ds). split; [|now constructor].
    cbn [mapM]. rewrite (to_icon_holds r d Hd), Hm. reflexivity.
Qed.

Lemma holds_le (r1 r2 : Row) (d1 d2 : IconData) :
  holds r1 d1 -> holds r2 d2 -> name_style_le r1 r2 -> by_name_style d1 d2.
Proof.
  intros (i1 & ->) (i2 & ->). unfold name_style_le, name_style_leb, by_name_style.
  cbn [row_of r_name r_style]. destruct (String.compare (name d1) (name d2)); auto.
  discriminate.
Qed.

Lemma sorted_holds (rows : list Row) (ds : list IconData) :
  Forall2 holds rows ds -> StronglySorted name_style_le rows ->
  StronglySorted by_name_style ds.
Proof.
  intros F. induction F as [|r d rows ds Hrd F IH]; intros S; [constructor|].
  apply StronglySorted_inv in S. destruct S as [S Hall].
  constructor; [now apply IH|].
  clear IH S. induction F as [|r' d' rows ds Hrd' F IH]; [constructor|].
  apply Forall_cons in Hall. destruct Hall as [Hle Hall].
  constructor; [eapply holds_le; eassumption | now apply IH].
Qed.

Lemma NoDup_map_filter {A B} (f : A -> B) (p : A -> bool) (l : list A) :
  NoDup (List.map f l) -> NoDup (List.map f (List.filter p l)).
Proof.
  induction l as [|x l IH]; [auto|]. cbn [List.map List.filter].
  intros N. apply NoDup_cons in N. destruct N as [Nx N].
  destruct (p x); [|now apply IH]. cbn [List.map]. apply NoDup_cons. split; [|now apply IH].
  intros H. apply Nx. apply list_elem_of_In. apply list_elem_of_In, in_map_iff in H.
  destruct H as (y & Hy & Hin). apply filter_In in Hin. apply in_map_iff. exists y. tauto.
Qed.

Lemma style_selected_holds (styles : option (list string)) (r : Row) (d : IconData) :
  holds r d -> style_selected styles r = true <-> in_styles styles d.
Proof.
  intros (id & ->). unfold style_selected, in_styles. cbn [row_of r_style].
  destruct styles as [[|s l]|]; try tauto.
  rewrite existsb_exists. split.
  - intros (x & Hx & E). apply String.eqb_eq in E. now subst.
  - intros H. exists (style d). split; [exact H | apply String.eqb_refl].
Qed.

Lemma holds_inj (r : Row) (d1 d2 : IconData) : holds r d1 -> holds r d2 -> d1 = d2.
Proof.
  intros H1 H2. apply to_icon_holds in H1, H2. congruence.
Qed.

Lemma matched_holds (query : string) (r : Row) (d : IconData) :
  holds r d -> matches query r = Notions.matched query d.
Proof. intros (id & ->). reflexivity. Qed.

(** The rows [searchIcons] selects, for a pattern within the limit. *)
Lemma selected_rows (writes : list IconData) (query : string)
    (styles : option (list string)) :
  exists result,
    mapM (fun r => to_icon (r_style r) r)
      (merge_sort name_style_le
         (List.filter (fun r => matches query r && style_selected styles r)
            (icons (after writes))))
    = Some result
    /\ StronglySorted by_name_style result
    /\ NoDup (List.map key result)
    /\ forall d,
         In d result
         <-> In d (latest (written writes)) /\ Notions.matched query d = true
             /\ in_styles styles d.
Proof.
  pose proof (after_latest writes) as F.
  set (rows := icons (after writes)) in *.
  set (P := fun r => matches query r && style_selected styles r).
  set (sorted := merge_sort name_style_le (List.filter P rows)).
  assert (Perm : sorted ≡ₚ List.filter P rows) by apply merge_sort_Permutation.
  assert (Hin : forall r, In r sorted <-> In r rows /\ P r = true).
  { intros r. rewrite <- filter_In. split; apply Permutation_in; [exact Perm | now symmetry]. }
  destruct (mapM_holds sorted) as (result & Hm & Hf).
  { intros r Hr. apply Hin in Hr. destruct Hr as [Hr _].
    destruct (Forall2_In_l _ _ _ _ F Hr) as (d & _ & Hd). eauto. }
  exists result. split; [exact Hm|]. split; [|split].
  - apply (sorted_holds sorted); [exact Hf|]. apply StronglySorted_merge_sort; apply _.
  - rewrite <- (Forall2_map_eq _ row_key key _ _ Hf) by (intros; now apply holds_key).
    rewrite Perm. apply NoDup_map_filter.
    rewrite (Forall2_map_eq _ row_key key _ _ F) by (intros; now apply holds_key).
    apply latest_NoDup.
  - intros d. split.
    + intros Hd. destruct (Forall2_In_r _ _ _ _ Hf Hd) as (r & Hr & Hrd).
      apply Hin in Hr. destruct Hr as [Hr HP].
      destruct (Forall2_In_l _ _ _ _ F Hr) as (d' & Hd' & Hrd').
      rewrite (holds_inj _ _ _ Hrd Hrd'). unfold P in HP.
      apply andb_prop in HP. destruct HP as [HM HS]. split; [exact Hd'|]. split.
      * now rewrite <- (matched_holds query r d' Hrd').
      * now apply (style_selected_holds styles r d' Hrd').
    + intros (Hd & HM & HS). destruct (Forall2_In_r _ _ _ _ F Hd) as (r & Hr & Hrd).
      assert (Hs : In r sorted).
      { apply Hin. split; [exact Hr|]. unfold P. apply andb_true_intro. split.
        - now rewrite (matched_holds query r d Hrd).
        - now apply (style_selected_holds styles r d Hrd). }
      destruct (Forall2_In_l _ _ _ _ Hf Hs) as (d' & Hd' & Hrd').
      now rewrite (holds_inj _ _ _ Hrd Hrd').
Qed.

(** Whether LIKE is evaluated at all: on some row of the given styles. *)
Lemma candidates_after (writes : list IconData) (styles : option (list string)) :
  existsb (style_selected styles) (icons (after writes)) = true
  <-> exists d, In d (latest (written writes)) /\ in_styles styles d.
Proof.
  pose proof (after_latest writes) as F. rewrite existsb_exists. split.
  - intros (r & Hr & S). destruct (Forall2_In_l _ _ _ _ F Hr) as (d & Hd & Hrd).
    exists d. split; [exact Hd|]. now apply (style_selected_holds styles r d Hrd).
  - intros (d & Hd & S). destruct (Forall2_In_r _ _ _ _ F Hd) as (r & Hr & Hrd).
    exists r. split; [exact Hr|]. now apply (style_selected_holds styles r d Hrd).
Qed.

(** C8, evaluated at a bracket and at a query with an underscore:
    the query is matched against the serialised list of search terms,
    so a bracket finds every record although no name and no search
    term contains one; and the underscore is a wildcard of LIKE, so
    [u_e] finds [user]. *)
Lemma searchIcons_matches_serialised_text :
  searchIcons (after [user]) "[" None = Some [user]
  /\ includes_ci "[" (name user) = false
  /\ existsb (includes_ci "[") (searchTerms user) = false
  /\ searchIcons (after [user]) "u_e" None = Some [user]
  /\ includes_ci "u_e" (name user) = false
  /\ existsb (includes_ci "u_e") (searchTerms user) = false.
Proof. vm_compute. repeat split. Qed.

End DatabaseFacts.
(** ** The store: listing styles, upserts and search *)

Module StoreFacts.
Import JsString JsNumber Types DatabaseService Reference Notions StringFacts JsonFacts Fixtures.
Import DatabaseFacts.

(** Every key written has a record in the store. *)
Lemma latest_covers (ws : list IconData) (d : IconData) :
  In d ws -> exists d', In d' (latest ws) /\ key d' = key d.
Proof.
  revert d. induction ws as [|x ws IH]; intros d; [intros []|].
  cbn [latest]. intros [<-|H].
  - destruct (existsb (same_key x) ws) eqn:E.
    + apply existsb_exists in E. destruct E as (y & Hy & Hk).
      apply same_key_iff in Hk. destruct (IH y Hy) as (d' & Hd' & Hk').
      exists d'. split; [exact Hd' | congruence].
    + exists x. split; [now left | reflexivity].
  - destruct (IH d H) as (d' & Hd' & Hk').
    exists d'. split; [|exact Hk'].
    destruct (existsb (same_key x) ws); [exact Hd' | now right].
Qed.

Lemma written_In (ws : list IconData) (x : IconData) :
  In x (written ws) <-> exists d, In d ws /\ accepted d = true /\ x = as_stored d.
Proof.
  unfold written. rewrite in_map_iff. split.
  - intros (d & <- & H). apply filter_In in H. exists d. tauto.
  - intros (d & H & A & ->). exists d. split; [reflexivity|]. apply filter_In. tauto.
Qed.

Lemma styles_after (writes : list IconData) (s : string) :
  In s (List.map r_style (icons (after writes)))
  <-> exists d, In d writes /\ accepted d = true /\ style d = s.
Proof.
  pose proof (after_latest writes) as F. rewrite in_map_iff. split.
  - intros (r & <- & Hr). destruct (Forall2_In_l _ _ _ _ F Hr) as (x & Hx & (id & ->)).
    apply latest_incl, written_In in Hx. destruct Hx as (d & Hd & A & ->).
    exists d. auto.
  - intros (d & Hd & A & <-).
    assert (W : In (as_stored d) (written writes)) by (apply written_In; eauto).
    destruct (latest_covers _ _ W) as (x & Hx & Hk).
    destruct (Forall2_In_r _ _ _ _ F Hx) as (r & Hr & (id & ->)).
    exists (row_of id x). split; [|exact Hr]. cbn. unfold key in Hk. cbn in Hk. congruence.
Qed.

Lemma getAvailableStyles_In (db : Database) (s : string) :
  In s (getAvailableStyles db) <-> In s (List.map r_style (icons db)).
Proof.
  unfold getAvailableStyles. rewrite <- !list_elem_of_In.
  rewrite merge_sort_Permutation. apply elem_of_remove_dups.
Qed.

Lemma getAvailableStyles_sorted (db : Database) :
  StronglySorted String.le (getAvailableStyles db) /\ NoDup (getAvailableStyles db).
Proof.
  unfold getAvailableStyles. split.
  - apply StronglySorted_merge_sort; apply _.
  - rewrite merge_sort_Permutation. apply NoDup_remove_dups.
Qed.

(** X1.  [getAvailableStyles] lists the styles of the records written
    to the store, in strictly ascending order of their code units: each
    style once, and no other string.  The records written are those
    the store accepted. *)
Theorem getAvailableStyles_sorted_distinct (writes : list IconData) :
  let styles := getAvailableStyles (after writes) in
  StronglySorted (fun a b => String.ltb a b = true) styles
  /\ forall s, In s styles <-> exists d, In d writes /\ accepted d = true /\ style d = s.
Proof.
  intros styles. split.
  - destruct (getAvailableStyles_sorted (after writes)) as [S N]. fold styles in S, N.
    clear - S N. induction S as [|a l S IH H]; [constructor|].
    apply NoDup_cons in N. destruct N as [Na N]. constructor; [now apply IH|].
    clear IH S N. induction H as [|b l Hab H IH]; [constructor|].
    constructor.
    + unfold String.le, String.leb in Hab. unfold String.ltb.
      destruct (String.compare a b) eqn:E; [|reflexivity|contradiction].
      apply String.compare_eq_iff in E. subst b. exfalso. apply Na. now left.
    + apply IH. intros Hin. apply Na. now right.
  - intros s. unfold styles. rewrite getAvailableStyles_In. apply styles_after.
Qed.

(** X2.  The result of [getAvailableStyles] does not depend on the order
    of the writes, nor on how often a style was written: two sequences
    of writes in which the same styles occur, among the records the
    store accepts, give the same list. *)
Theorem getAvailableStyles_order_independent (writes1 writes2 : list IconData) :
  (forall s, In s (List.map style (List.filter accepted writes1))
             <-> In s (List.map style (List.filter accepted writes2))) ->
  getAvailableStyles (after writes1) = getAvailableStyles (after writes2).
Proof.
  intros H.
  destruct (getAvailableStyles_sorted (after writes1)) as [S1 N1].
  destruct (getAvailableStyles_sorted (after writes2)) as [S2 N2].
  apply (StronglySorted_unique String.le); [assumption..|].
  apply NoDup_Permutation; [assumption..|].
  assert (E : forall ws s, (exists d, In d ws /\ accepted d = true /\ style d = s)
                           <-> In s (List.map style (List.filter accepted ws))).
  { intros ws s. rewrite in_map_iff. split.
    - intros (d & Hd & A & <-). exists d. split; [reflexivity|]. apply filter_In. auto.
    - intros (d & <- & Hd). apply filter_In in Hd. exists d. tauto. }
  intros s. rewrite !list_elem_of_In, !getAvailableStyles_In, !styles_after, !E. apply H.
Qed.

Lemma getAvailableStyles_order_independent_witness :
  getAvailableStyles (after [bolt; user]) = getAvailableStyles (after [user; bolt; anchor]).
Proof.
  apply (getAvailableStyles_order_independent [bolt; user] [user; bolt; anchor]).
  intros s. vm_compute. tauto.
Defined.

(** *** Upserts *)

Lemma mapM_filter_agree {A B} (f : A -> option B) (q : A -> bool) (q' : B -> bool)
    (rows : list A) (l : list B) :
  (forall r x, f r = Some x -> q r = q' x) ->
  mapM f rows = Some l -> mapM f (List.filter q rows) = Some (List.filter q' l).
Proof.
  intros Hq. revert l. induction rows as [|r rows IH]; intros l; cbn [mapM List.filter].
  - intros [= <-]. reflexivity.
  - destruct (f r) as [x|] eqn:Fr; [|discriminate]. cbn.
    destruct (mapM f rows) as [l'|]; [|discriminate]. cbn. intros [= <-].
    cbn [List.filter]. rewrite <- (Hq r x Fr). specialize (IH l' eq_refl).
    destruct (q r); [|exact IH]. cbn [mapM]. rewrite Fr, IH. reflexivity.
Qed.

Lemma mapM_app_Some {A B} (f : A -> option B) (rows1 rows2 : list A) (l1 l2 : list B) :
  mapM f rows1 = Some l1 -> mapM f rows2 = Some l2 ->
  mapM f (rows1 ++ rows2) = Some (l1 ++ l2)%list.
Proof.
  revert l1. induction rows1 as [|r rows1 IH]; intros l1; cbn [mapM app].
  - intros [= <-]. auto.
  - destruct (f r) as [x|]; [|discriminate]. cbn.
    destruct (mapM f rows1) as [l'|]; [|discriminate]. cbn. intros [= <-] H2.
    rewrite (IH l' eq_refl H2). reflexivity.
Qed.

Lemma filter_twice {A} (p q : A -> bool) (l : list A) :
  List.filter p (List.filter q l) = List.filter (fun x => q x && p x) l.
Proof.
  induction l as [|x l IH]; [reflexivity|]. cbn [List.filter].
  destruct (q x); cbn [List.filter andb]; [destruct (p x)|]; now rewrite IH.
Qed.

Lemma filter_agree {A} (p q : A -> bool) (l : list A) :
  (forall x, In x l -> p x = q x) -> List.filter p l = List.filter q l.
Proof.
  induction l as [|x l IH]; intros H; [reflexivity|]. cbn [List.filter].
  rewrite (H x (or_introl eq_refl)), IH; [reflexivity|]. intros y Hy. apply H. now right.
Qed.

Lemma filter_all {A} (l : list A) : List.filter (fun _ => true) l = l.
Proof. induction l as [|x l IH]; [reflexivity|]. cbn. now rewrite IH. Qed.

Lemma to_icon_name (st : string) (r : Row) (x : IconData) :
  to_icon st r = Some x -> name x = r_name r.
Proof.
  unfold to_icon. destruct (parse_terms (r_searchTerms r)); [|discriminate].
  cbn. now intros [= <-].
Qed.

(** X3.  [insertIcon] is an upsert on (name, style), whatever the store
    holds.  For a record whose width or height is NaN the call throws.
    For any other record it returns; the listing of every other style
    is unchanged, and in the listing of the record's own style the
    record of the same name, if any, is gone, the other records keep
    their places and the new record comes last, as the store gives it
    back. *)
Theorem insertIcon_upsert (db : Database) (d : IconData) :
  (accepted d = false -> insertIcon db d = None)
  /\ (accepted d = true ->
      exists db',
        insertIcon db d = Some db'
        /\ (forall st, style d <> st -> getIconsByStyle db' st = getIconsByStyle db st)
        /\ (forall l, getIconsByStyle db (style d) = Some l ->
              getIconsByStyle db' (style d)
              = Some (List.filter (fun x => negb (String.eqb (name x) (name d))) l
                      ++ [as_stored d])%list)).
Proof.
  rewrite insertIcon_accepted. split; intros A; rewrite A; [reflexivity|].
  eexists. split; [reflexivity|].
  unfold getIconsByStyle. cbn [icons]. split.
  - intros st Hst. rewrite List.filter_app. cbn [List.filter row_of r_style as_stored style].
    destruct (String.eqb_spec (style d) st) as [E|_]; [contradiction|].
    rewrite app_nil_r, filter_twice. f_equal. apply filter_agree.
    intros r _.
    destruct (String.eqb_spec (r_style r) st) as [->|]; [|now rewrite andb_false_r].
    destruct (String.eqb_spec st (style d)) as [->|]; [contradiction|].
    now rewrite andb_false_r.
  - intros l Hl. rewrite List.filter_app. cbn [List.filter row_of r_style as_stored style].
    rewrite String.eqb_refl. rewrite filter_twice.
    rewrite (filter_agree _ (fun r => String.eqb (r_style r) (style d)
                                     && negb (String.eqb (r_name r) (name d)))).
    2:{ intros r _.
        destruct (String.eqb (r_style r) (style d)); [|now rewrite andb_false_r].
        now rewrite !andb_true_r, andb_true_l. }
    rewrite <- filter_twice.
    rewrite (mapM_app_Some _ _ _
               (List.filter (fun x => negb (String.eqb (name x) (name d))) l) [as_stored d]);
      [reflexivity| |].
    + apply (mapM_filter_agree _ _ (fun x => negb (String.eqb (name x) (name d))));
        [|exact Hl].
      intros r x H. now rewrite (to_icon_name _ r x H).
    + cbn [mapM]. rewrite (to_icon_row_of _ (as_stored d)). reflexivity.
Qed.

(** *** Search *)

Lemma by_name_style_antisym (a b : IconData) :
  by_name_style a b -> by_name_style b a -> key a = key b.
Proof.
  unfold by_name_style, key. rewrite (String.compare_antisym (name a) (name b)).
  destruct (String.compare (name b) (name a)) eqn:E; cbn [CompOpp]; try tauto.
  apply String.compare_eq_iff in E. intros H1 H2. f_equal; [now symmetry|].
  now apply String.leb_antisym.
Qed.

(** Two lists of records in the order of (name, style), without
    repeated keys and with the same members, are the same list. *)
Lemma sorted_records_unique (l1 l2 : list IconData) :
  StronglySorted by_name_style l1 -> StronglySorted by_name_style l2 ->
  NoDup (List.map key l1) -> NoDup (List.map key l2) ->
  (forall d, In d l1 <-> In d l2) -> l1 = l2.
Proof.
  revert l2. induction l1 as [|a l1 IH]; intros [|b l2] S1 S2 N1 N2 H.
  - reflexivity.
  - exfalso. apply (H b). now left.
  - exfalso. apply (H a). now left.
  - apply StronglySorted_inv in S1, S2. destruct S1 as [S1 A1], S2 as [S2 A2].
    cbn [List.map] in N1, N2. apply NoDup_cons in N1, N2.
    destruct N1 as [Na N1], N2 as [Nb N2].
    rewrite Forall_forall in A1, A2.
    assert (a = b) as <-.
    { destruct (proj1 (H a) (or_introl eq_refl)) as [E|Ha]; [now symmetry|].
      destruct (proj2 (H b) (or_introl eq_refl)) as [E|Hb]; [exact E|].
      exfalso. apply Nb. apply list_elem_of_In, in_map_iff. exists a. split; [|exact Ha].
      apply by_name_style_antisym; [apply A1 | apply A2]; now apply list_elem_of_In. }
    f_equal. apply IH; try assumption. intros d. split; intros Hd.
    + destruct (proj1 (H d) (or_intror Hd)) as [E|Hd']; [|exact Hd'].
      exfalso. apply Na. apply list_elem_of_In, in_map_iff. exists d. split; [now subst|exact Hd].
    + destruct (proj2 (H d) (or_intror Hd)) as [E|Hd']; [|exact Hd'].
      exfalso. apply Nb. apply list_elem_of_In, in_map_iff. exists d. split; [now subst|exact Hd].
Qed.

Lemma matches_contains (query : string) (r : Row) (d : IconData) :
  wildcard_free query = true -> nul_free query = true -> nul_free (name d) = true ->
  holds r d ->
  matches query r = true
  <-> contains_ci query (name d) \/ contains_ci query (Json.stringify (searchTerms d)).
Proof.
  intros W Q N (id & ->). unfold matches. cbn [row_of r_name r_searchTerms].
  rewrite (pattern_nul_free query Q), (c_string_nul_free _ N),
    (c_string_nul_free _ (stringify_nul_free _)).
  rewrite orb_true_iff, !like_contains by assumption. reflexivity.
Qed.

(** X4.  For a query without the wildcards of LIKE and without a NUL
    character, whose pattern is within the limit of SQLite, and a store
    whose names have no NUL character, [searchIcons] returns the
    records of the store, each once, whose name or whose serialised
    list of search terms contains the query, the case of ASCII letters
    apart, restricted to the given styles when the list is given and
    not empty, ordered by (name, style). *)
Theorem searchIcons_finds_substrings (writes : list IconData) (query : string)
    (styles : option (list string)) :
  wildcard_free query = true -> nul_free query = true -> within_limit query = true ->
  Forall (fun d => nul_free (name d) = true) writes ->
  exists result,
    searchIcons (after writes) query styles = Some result
    /\ StronglySorted by_name_style result
    /\ NoDup (List.map key result)
    /\ forall d,
         In d result
         <-> In d (latest (written writes))
             /\ (contains_ci query (name d)
                 \/ contains_ci query (Json.stringify (searchTerms d)))
             /\ in_styles styles d.
Proof.
  intros W Q L N. unfold searchIcons. rewrite (pattern_within_limit query L). cbn [andb].
  destruct (selected_rows writes query styles) as (result & Hm & Hs & Hn & Hin).
  exists result. split; [exact Hm|]. split; [exact Hs|]. split; [exact Hn|].
  intros d. rewrite Hin. split; intros (Hd & HM & HS); (split; [exact Hd|]); (split; [|exact HS]).
  - assert (Nd : nul_free (name d) = true).
    { apply latest_incl, written_In in Hd. destruct Hd as (x & Hx & _ & ->).
      rewrite Forall_forall in N. apply (N x). now apply list_elem_of_In. }
    apply (matches_contains query (row_of 0 d) d W Q Nd); [now exists 0 | exact HM].
  - assert (Nd : nul_free (name d) = true).
    { apply latest_incl, written_In in Hd. destruct Hd as (x & Hx & _ & ->).
      rewrite Forall_forall in N. apply (N x). now apply list_elem_of_In. }
    apply (matches_contains query (row_of 0 d) d W Q Nd); [now exists 0 | exact HM].
Qed.

Lemma searchIcons_finds_substrings_witness :
  exists result,
    searchIcons (after [bolt; user; anchor; bell]) "B" (Some ["solid"]) = Some result
    /\ StronglySorted by_name_style result
    /\ NoDup (List.map key result)
    /\ forall d,
         In d result
         <-> In d (latest (written [bolt; user; anchor; bell]))
             /\ (contains_ci "B" (name d)
                 \/ contains_ci "B" (Json.stringify (searchTerms d)))
             /\ in_styles (Some ["solid"]) d.
Proof.
  apply (searchIcons_finds_substrings [bolt; user; anchor; bell] "B" (Some ["solid"]));
    try reflexivity.
  repeat constructor.
Defined.

Lemma searchIcons_same_records (writes1 writes2 : list IconData) (query : string)
    (styles : option (list string)) :
  (forall d, In d (latest (written writes1)) <-> In d (latest (written writes2))) ->
  searchIcons (after writes1) query styles = searchIcons (after writes2) query styles.
Proof.
  intros H. unfold searchIcons.
  assert (C : existsb (style_selected styles) (icons (after writes1))
              = existsb (style_selected styles) (icons (after writes2))).
  { apply eq_true_iff_eq. rewrite !candidates_after.
    split; intros (d & Hd & S); exists d; (split; [now apply H | exact S]). }
  rewrite C. destruct (_ && _); [reflexivity|].
  destruct (selected_rows writes1 query styles) as (r1 & -> & S1 & N1 & M1).
  destruct (selected_rows writes2 query styles) as (r2 & -> & S2 & N2 & M2).
  f_equal. apply sorted_records_unique; try assumption.
  intros d. rewrite M1, M2, H. reflexivity.
Qed.

(** X5.  The result of [searchIcons] does not depend on the order in
    which the records were written: two stores that hold the same
    records answer every search alike, with the same list or with the
    same failure. *)
Theorem searchIcons_order_independent (writes1 writes2 : list IconData) (query : string)
    (styles : option (list string)) :
  (forall d, In d (latest (written writes1)) <-> In d (latest (written writes2))) ->
  searchIcons (after writes1) query styles = searchIcons (after writes2) query styles.
Proof. apply searchIcons_same_records. Qed.

Lemma searchIcons_order_independent_witness :
  searchIcons (after [bolt; anchor]) "o" None = searchIcons (after [anchor; bolt]) "o" None.
Proof.
  apply (searchIcons_order_independent [bolt; anchor] [anchor; bolt] "o" None).
  intros d. vm_compute. tauto.
Defined.

Lemma lower_percent (c : ascii) : Ascii.eqb (lower c) "%" = Ascii.eqb c "%".
Proof. destruct c as [[] [] [] [] [] [] [] []]; reflexivity. Qed.

Lemma lower_underscore (c : ascii) : Ascii.eqb (lower c) "_" = Ascii.eqb c "_".
Proof. destruct c as [[] [] [] [] [] [] [] []]; reflexivity. Qed.

Lemma lower_idem (c : ascii) : lower (lower c) = lower c.
Proof. destruct c as [[] [] [] [] [] [] [] []]; reflexivity. Qed.

(** LIKE does not look at the case of the letters of its pattern. *)
Lemma like_lowercase (p s : string) : like (lowercase p) s = like p s.
Proof.
  revert s. induction p as [|c p IH]; intros s; [reflexivity|].
  cbn [lowercase]. destruct (Ascii.eqb c "%") eqn:E.
  - apply Ascii.eqb_eq in E. subst c. change (lower "%") with "%"%char.
    induction s as [|x s IHs].
    + rewrite (like_percent (lowercase p) ""), (like_percent p ""), IH. reflexivity.
    + rewrite (like_percent (lowercase p) (String x s)), (like_percent p (String x s)).
      now rewrite IH, IHs.
  - rewrite !like_char by (now rewrite ?lower_percent).
    destruct s as [|x s]; [reflexivity|].
    now rewrite lower_underscore, lower_idem, IH.
Qed.

Lemma lowercase_app (a b : string) : lowercase (a ++ b) = lowercase a ++ lowercase b.
Proof. induction a as [|c a IH]; [reflexivity|]. cbn. now rewrite IH. Qed.

Lemma lower_nul (c : ascii) : (code (lower c) =? 0)%N = (code c =? 0)%N.
Proof. destruct c as [[] [] [] [] [] [] [] []]; reflexivity. Qed.

Lemma lower_bytes (c : ascii) : (code (lower c) <? 128)%N = (code c <? 128)%N.
Proof. destruct c as [[] [] [] [] [] [] [] []]; reflexivity. Qed.

Lemma c_string_lowercase (s : string) : c_string (lowercase s) = lowercase (c_string s).
Proof.
  induction s as [|c s IH]; [reflexivity|]. cbn [lowercase c_string].
  rewrite lower_nul. destruct (code c =? 0)%N; [reflexivity|]. cbn. now rewrite IH.
Qed.

Lemma utf8_length_lowercase (s : string) : utf8_length (lowercase s) = utf8_length s.
Proof.
  induction s as [|c s IH]; [reflexivity|]. cbn [lowercase utf8_length].
  now rewrite lower_bytes, IH.
Qed.

Lemma pattern_case (q1 q2 : string) :
  lowercase q1 = lowercase q2 ->
  lowercase ("%" ++ q1 ++ "%") = lowercase ("%" ++ q2 ++ "%").
Proof. intros H. cbn [String.append lowercase]. now rewrite !lowercase_app, H. Qed.

Lemma matches_case (q1 q2 : string) (r : Row) :
  lowercase q1 = lowercase q2 -> matches q1 r = matches q2 r.
Proof.
  intros H. unfold matches. cbv zeta.
  rewrite <- (like_lowercase (c_string ("%" ++ q1 ++ "%")) (c_string (r_name r))).
  rewrite <- (like_lowercase (c_string ("%" ++ q2 ++ "%")) (c_string (r_name r))).
  rewrite <- (like_lowercase (c_string ("%" ++ q1 ++ "%")) (c_string (r_searchTerms r))).
  rewrite <- (like_lowercase (c_string ("%" ++ q2 ++ "%")) (c_string (r_searchTerms r))).
  now rewrite <- !c_string_lowercase, (pattern_case q1 q2 H).
Qed.

(** X6.  [searchIcons] does not look at the case of the ASCII letters
    of the query: two queries that differ in letter case only give the
    same result on every store. *)
Theorem searchIcons_ignores_query_case (db : Database) (query1 query2 : string)
    (styles : option (list string)) :
  lowercase query1 = lowercase query2 ->
  searchIcons db query1 styles = searchIcons db query2 styles.
Proof.
  intros H. unfold searchIcons.
  rewrite <- (utf8_length_lowercase ("%" ++ query1 ++ "%")),
    <- (utf8_length_lowercase ("%" ++ query2 ++ "%")), (pattern_case query1 query2 H).
  destruct (_ && _); [reflexivity|]. do 2 f_equal.
  apply filter_agree. intros r _. now rewrite (matches_case query1 query2 r H).
Qed.

Lemma searchIcons_ignores_query_case_witness :
  searchIcons (after [bell; user]) "BeLL" None = searchIcons (after [bell; user]) "bell" None.
Proof.
  apply (searchIcons_ignores_query_case (after [bell; user]) "BeLL" "bell" None).
  reflexivity.
Defined.

(** *** Writing a record again *)

Lemma latest_app (ws1 ws2 : list IconData) :
  latest (ws1 ++ ws2)
  = (List.filter (fun x => negb (existsb (same_key x) ws2)) (latest ws1) ++ latest ws2)%list.
Proof.
  induction ws1 as [|a ws1 IH]; [reflexivity|].
  cbn [app latest]. rewrite existsb_app.
  destruct (existsb (same_key a) ws1); cbn [orb]; [exact IH|].
  cbn [List.filter]. destruct (existsb (same_key a) ws2); cbn [negb]; [exact IH|].
  cbn [app]. now rewrite IH.
Qed.

(** Writing the same records a second time leaves the same records. *)
Lemma latest_again (ws1 ws2 : list IconData) :
  latest ((ws1 ++ ws2) ++ ws2) = latest (ws1 ++ ws2).
Proof.
  rewrite (latest_app (ws1 ++ ws2)), (latest_app ws1), List.filter_app.
  rewrite filter_twice.
  rewrite (filter_agree (fun x => negb (existsb (same_key x) ws2)
                                  && negb (existsb (same_key x) ws2))
                        (fun x => negb (existsb (same_key x) ws2)))
    by (intros; now rewrite andb_diag).
  rewrite <- app_assoc. f_equal.
  rewrite (filter_agree _ (fun _ => false) (latest ws2)); [now rewrite filter_false|].
  intros x Hx. apply negb_false_iff, existsb_exists.
  exists x. split; [now apply latest_incl | now apply same_key_iff].
Qed.

Lemma styles_latest (writes : list IconData) (s : string) :
  In s (List.map r_style (icons (after writes)))
  <-> In s (List.map style (latest (written writes))).
Proof.
  rewrite (Forall2_map_eq holds r_style style _ _ (after_latest writes)); [reflexivity|].
  intros r d (id & ->). reflexivity.
Qed.

Lemma getAvailableStyles_same_records (writes1 writes2 : list IconData) :
  latest (written writes1) = latest (written writes2) ->
  getAvailableStyles (after writes1) = getAvailableStyles (after writes2).
Proof.
  intros H.
  destruct (getAvailableStyles_sorted (after writes1)) as [S1 N1].
  destruct (getAvailableStyles_sorted (after writes2)) as [S2 N2].
  apply (StronglySorted_unique String.le); [assumption..|].
  apply NoDup_Permutation; [assumption..|].
  intros s. rewrite !list_elem_of_In, !getAvailableStyles_In, !styles_latest. now rewrite H.
Qed.

Lemma getIconsByStyle_same_records (writes1 writes2 : list IconData) (st : string) :
  latest (written writes1) = latest (written writes2) ->
  getIconsByStyle (after writes1) st = getIconsByStyle (after writes2) st.
Proof. intros H. now rewrite !getIconsByStyle_after, H. Qed.

(** The three queries see the same store after the writes [ws2] and
    after those writes made twice. *)
Lemma written_again (ws1 ws2 : list IconData) :
  let once := after (ws1 ++ ws2) in
  let twice := after ((ws1 ++ ws2) ++ ws2) in
  getAvailableStyles twice = getAvailableStyles once
  /\ (forall st, getIconsByStyle twice st = getIconsByStyle once st)
  /\ (forall query styles, searchIcons twice query styles = searchIcons once query styles).
Proof.
  cbv zeta.
  assert (L : latest (written ((ws1 ++ ws2) ++ ws2)) = latest (written (ws1 ++ ws2)))
    by (rewrite !written_app; apply latest_again).
  split; [|split].
  - now apply getAvailableStyles_same_records.
  - intros st. now apply getIconsByStyle_same_records.
  - intros query styles. apply searchIcons_same_records. now rewrite L.
Qed.

(** X7.  [insertIcon] is idempotent for what the queries return:
    calling it a second time with the same record, whether the calls
    return or throw, changes the result of none of
    [getAvailableStyles], [getIconsByStyle] and [searchIcons]. *)
Theorem insertIcon_idempotent (writes : list IconData) (d : IconData) :
  let once := attempt (after writes) d in
  let twice := attempt once d in
  getAvailableStyles twice = getAvailableStyles once
  /\ (forall st, getIconsByStyle twice st = getIconsByStyle once st)
  /\ (forall query styles, searchIcons twice query styles = searchIcons once query styles).
Proof.
  cbv zeta.
  change (attempt (attempt (after writes) d) d)
    with (fold_left attempt [d] (fold_left attempt [d] (after writes))).
  change (attempt (after writes) d) with (fold_left attempt [d] (after writes)).
  rewrite !after_app. apply (written_again writes [d]).
Qed.

End StoreFacts.
(** ** The body a descriptor yields *)

Module DescriptorFacts.
Import JsString JsNumber Types Svg Reference.
Import StringFacts RegExpFacts SvgFacts.

Lemma extractBodyFromRawSvg_markup (d : SvgData) :
  extractBodyFromRawSvg (svg_raw d) = raw_markup d.
Proof.
  unfold extractBodyFromRawSvg, raw_markup, truthy_group.
  destruct (svg_raw d) as [raw|]; [|reflexivity].
  destruct raw as [|c raw]; [reflexivity|]. cbn [falsy is_empty].
  rewrite exec_svg. destruct (inner_markup (String c raw)) as [inner|]; [|reflexivity].
  cbn [option_map RegExp.group1]. destruct inner as [|i inner]; [reflexivity|].
  cbn [falsy is_empty]. destruct (trim (String i inner)); reflexivity.
Qed.

(** [buildSvgBody] yields the body the descriptor is said to yield. *)
Lemma buildSvgBody_synthesized (d : SvgData) : buildSvgBody d = synthesized d.
Proof.
  unfold buildSvgBody, synthesized. rewrite extractBodyFromRawSvg_markup.
  destruct (raw_markup d); [reflexivity|].
  unfold path_markup, path_strings.
  destruct (svg_path d) as [[p|l]|]; [| |reflexivity].
  - destruct p as [|c p]; [reflexivity|].
    destruct (List.filter nonblank [String c p]); reflexivity.
  - destruct (List.filter nonblank l); reflexivity.
Qed.

Lemma join_headed (sep x : string) (l : list string) :
  is_empty x = false -> is_empty (join sep (x :: l)) = false.
Proof. destruct x; [discriminate|]. destruct l; reflexivity. Qed.

Lemma path_join_nonempty (p : string) (ps : list string) :
  falsy (join newline (List.map path_element (p :: ps))) = false.
Proof. cbn [List.map]. now apply join_headed. Qed.

Lemma synthesized_nonempty (d : SvgData) (b : string) :
  synthesized d = Some b -> falsy b = false.
Proof.
  unfold synthesized, raw_markup, path_markup.
  destruct (svg_raw d) as [raw|].
  - destruct (inner_markup raw) as [inner|].
    + destruct (is_empty (trim inner)) eqn:E; [|intros [= <-]; exact E].
      destruct (List.filter nonblank (path_strings d)); [discriminate|].
      intros [= <-]. apply path_join_nonempty.
    + destruct (List.filter nonblank (path_strings d)); [discriminate|].
      intros [= <-]. apply path_join_nonempty.
  - destruct (List.filter nonblank (path_strings d)); [discriminate|].
    intros [= <-]. apply path_join_nonempty.
Qed.

Lemma parsed_body_nonempty (file : option string) (p : ParsedSvg) :
  parseSvgFile file = Some p -> falsy (p_body p) = false.
Proof.
  destruct file as [content|]; [|discriminate]. intros H.
  apply parseSvgFile_Some in H. destruct H as (v & inner & _ & _ & _ & Hn & ->).
  cbn. destruct (trim inner); [contradiction | reflexivity].
Qed.

End DescriptorFacts.

(** ** Bodies *)

Module MarkupFacts.
Import JsString JsNumber Types Svg Reference StringFacts RegExpFacts NumberFacts SvgFacts.
Import DatabaseFacts DescriptorFacts.

Lemma strip_ci_prefix (lit x y : string) :
  strip_ci lit (x ++ y) = None -> strip_ci lit x = None.
Proof.
  intros H. destruct (strip_ci lit x) as [r|] eqn:E; [|reflexivity].
  apply strip_ci_split in E. destruct E as (mid & -> & Hm).
  assert (strip_ci lit ((mid ++ r) ++ y) = Some (r ++ y)); [|congruence].
  apply strip_ci_split. exists mid. now rewrite append_assoc.
Qed.

Lemma find_ci_split (lit s a b : string) :
  find_ci lit s = Some (a, b) ->
  exists mid, s = a ++ mid ++ b /\ lowercase mid = lowercase lit.
Proof.
  revert a. induction s as [|c s IH]; intros a; cbn [find_ci].
  - destruct (strip_ci lit "") as [r|] eqn:E; [|discriminate].
    intros [= <- <-]. now apply strip_ci_split.
  - destruct (strip_ci lit (String c s)) as [r|] eqn:E.
    + intros [= <- <-]. now apply strip_ci_split.
    + destruct (find_ci lit s) as [[a' b']|]; [|discriminate].
      intros [= <- <-]. destruct (IH a' eq_refl) as (mid & -> & Hm).
      exists mid. auto.
Qed.

(** The text before the first occurrence holds no occurrence. *)
Lemma find_ci_first (lit s a b : string) :
  lit <> "" -> find_ci lit s = Some (a, b) -> includes_ci lit a = false.
Proof.
  intros Hl. revert a. induction s as [|c s IH]; intros a; cbn [find_ci].
  - destruct (strip_ci lit "") as [r|] eqn:E; [|discriminate].
    intros [= <- <-]. destruct lit; [congruence | reflexivity].
  - destruct (strip_ci lit (String c s)) as [r|] eqn:E.
    + intros [= <- <-]. destruct lit; [congruence | reflexivity].
    + destruct (find_ci lit s) as [[a' b']|] eqn:F; [|discriminate].
      intros [= <- <-]. cbn [includes_ci].
      destruct (find_ci_split _ _ _ _ F) as (mid & S & _).
      rewrite S in E. change (String c (a' ++ mid ++ b')) with (String c a' ++ mid ++ b') in E.
      rewrite (strip_ci_prefix _ _ _ E). now apply IH.
Qed.

Lemma trimStart_suffix (s : string) : exists pre, s = pre ++ trimStart s.
Proof.
  induction s as [|c s IH]; [now exists ""|]. cbn [trimStart].
  destruct (is_white c); [|now exists ""].
  destruct IH as (pre & H). exists (String c pre). cbn. now f_equal.
Qed.

Lemma trimEnd_prefix (s : string) : exists post, s = trimEnd s ++ post.
Proof.
  induction s as [|c s IH]; [now exists ""|]. cbn [trimEnd].
  destruct IH as (post & H).
  destruct (is_white c && is_empty (trimEnd s)) eqn:E.
  - exists (String c s). reflexivity.
  - exists post. cbn. now f_equal.
Qed.

Lemma trim_within (s : string) : exists pre post, s = pre ++ trim s ++ post.
Proof.
  destruct (trimStart_suffix s) as (pre & H1).
  destruct (trimEnd_prefix (trimStart s)) as (post & H2).
  exists pre, post. unfold trim. now rewrite <- H2.
Qed.

Lemma contains_ci_within (q pre mid post : string) :
  contains_ci q mid -> contains_ci q (pre ++ mid ++ post).
Proof.
  intros (b & m & a & -> & Hm). exists (pre ++ b), m, (a ++ post).
  split; [|exact Hm]. now rewrite !append_assoc.
Qed.

Lemma includes_ci_trim (q s : string) :
  includes_ci q s = false -> includes_ci q (trim s) = false.
Proof.
  intros H. destruct (includes_ci q (trim s)) eqn:E; [|reflexivity].
  apply includes_ci_contains in E. destruct (trim_within s) as (pre & post & Hs).
  apply (contains_ci_within q pre _ post) in E. rewrite <- Hs in E.
  apply includes_ci_contains in E. congruence.
Qed.

Lemma inner_markup_open (content inner : string) :
  inner_markup content = Some inner -> includes_ci "</svg>" inner = false.
Proof.
  unfold inner_markup.
  destruct (find_ci "<svg" content) as [[a b]|]; [|discriminate].
  destruct (until_char ">" b) as [[c d]|]; [|discriminate].
  destruct (find_ci "</svg>" d) as [[i r]|] eqn:F; [|discriminate].
  intros [= <-]. apply (find_ci_first "</svg>" d i r); [discriminate | exact F].
Qed.

(** [extractBodyFromRawSvg] in terms of the inner markup. *)
Lemma extractBodyFromRawSvg_inner (raw : option string) :
  extractBodyFromRawSvg raw
  = match raw with
    | Some text =>
        match inner_markup text with
        | Some inner => if is_empty (trim inner) then None else Some (trim inner)
        | None => None
        end
    | None => None
    end.
Proof.
  exact (extractBodyFromRawSvg_markup
           {| svg_height := None; svg_path := None; svg_raw := raw;
              svg_viewBox := None; svg_width := None |}).
Qed.

Lemma trimEnd_closed (a : string) (c : ascii) :
  is_white c = false -> trimEnd (a ++ String c "") = a ++ String c "".
Proof.
  intros H. induction a as [|x a IH]; cbn [String.append trimEnd].
  - now rewrite H.
  - rewrite IH. destruct (a ++ String c "") eqn:E; [destruct a; discriminate|].
    now rewrite andb_false_r.
Qed.

Lemma join_last (sep : string) (l : list string) (x : string) :
  exists a, join sep (l ++ [x]) = a ++ x.
Proof.
  induction l as [|y l IH]; [now exists ""|].
  destruct IH as (a & H). cbn [app].
  change (join sep (y :: l ++ [x])) with
    (match (l ++ [x])%list with [] => y | _ => y ++ sep ++ join sep (l ++ [x]) end).
  destruct (l ++ [x])%list eqn:E; [destruct l; discriminate|].
  rewrite H. exists (y ++ sep ++ a). now rewrite !append_assoc.
Qed.

Lemma path_element_closed (segment : string) :
  exists a, path_element segment = String "<" a ++ String ">" "".
Proof.
  exists ("path d=" ++ quote ++ segment ++ quote ++ " fill=" ++ quote ++ "currentColor"
          ++ quote ++ " /").
  change (String "<" ?a) with ("<" ++ a). unfold path_element.
  rewrite !append_assoc. reflexivity.
Qed.

Lemma paths_trimmed (p : string) (ps : list string) :
  let b := join newline (List.map path_element (p :: ps)) in
  b <> "" /\ trim b = b.
Proof.
  cbv zeta. split.
  - pose proof (path_join_nonempty p ps) as H. intros E. rewrite E in H. discriminate.
  - destruct (exists_last (l := List.map path_element (p :: ps)) ltac:(discriminate))
      as (l & x & E).
    assert (Hx : exists a, x = a ++ String ">" "").
    { assert (H : In x (List.map path_element (p :: ps)))
        by (rewrite E; apply in_or_app; right; now left).
      apply in_map_iff in H. destruct H as (seg & <- & _).
      destruct (path_element_closed seg) as (a & ->). eauto. }
    destruct Hx as (a & ->). rewrite E.
    destruct (join_last newline l (a ++ String ">" "")) as (a' & J).
    assert (Hh : headed (join newline (l ++ [a ++ String ">" ""]))).
    { rewrite <- E. cbn [List.map]. destruct (path_element_closed p) as (a'' & ->).
      destruct (List.map path_element ps); reflexivity. }
    unfold trim. rewrite (trimStart_fixed _ Hh). rewrite J, <- append_assoc.
    now apply trimEnd_closed.
Qed.

(** The bodies the three functions yield are not empty, and trimmed. *)
Lemma bodies_trimmed :
  (forall file p, parseSvgFile file = Some p -> p_body p <> "" /\ trim (p_body p) = p_body p)
  /\ (forall raw b, extractBodyFromRawSvg raw = Some b -> b <> "" /\ trim b = b)
  /\ (forall d b, buildSvgBody d = Some b -> b <> "" /\ trim b = b).
Proof.
  assert (X : forall raw b, extractBodyFromRawSvg raw = Some b -> b <> "" /\ trim b = b).
  { intros raw b. rewrite extractBodyFromRawSvg_inner.
    destruct raw as [text|]; [|discriminate].
    destruct (inner_markup text) as [inner|]; [|discriminate].
    destruct (is_empty (trim inner)) eqn:E; [discriminate|]. intros [= <-].
    split; [|apply trim_idem]. intros T. rewrite T in E. discriminate. }
  split; [|split; [exact X|]].
  - intros [content|] p H; [|discriminate].
    apply parseSvgFile_Some in H. destruct H as (v & inner & _ & _ & _ & Hn & ->).
    cbn [p_body]. split; [exact Hn | apply trim_idem].
  - intros d b. unfold buildSvgBody.
    destruct (extractBodyFromRawSvg (svg_raw d)) as [rawBody|] eqn:R.
    + intros [= <-]. now apply (X (svg_raw d)).
    + destruct (svg_path d) as [[seg|l]|]; [| |discriminate].
      * destruct seg as [|c seg]; [discriminate|].
        destruct (List.filter nonblank [String c seg]) as [|p ps]; [discriminate|].
        intros [= <-]. apply paths_trimmed.
      * destruct (List.filter nonblank l) as [|p ps]; [discriminate|].
        intros [= <-]. apply paths_trimmed.
Qed.

(** X8.  A body that [parseSvgFile], [extractBodyFromRawSvg] or
    [buildSvgBody] returns is never the empty string and has no white
    space at either end. *)
Theorem bodies_trimmed_nonempty :
  (forall file p, parseSvgFile file = Some p -> p_body p <> "" /\ trim (p_body p) = p_body p)
  /\ (forall raw b, extractBodyFromRawSvg raw = Some b -> b <> "" /\ trim b = b)
  /\ (forall d b, buildSvgBody d = Some b -> b <> "" /\ trim b = b).
Proof. exact bodies_trimmed. Qed.

(** X9.  The body [parseSvgFile] and [extractBodyFromRawSvg] extract
    ends before the first closing svg tag: it never contains the text
    [</svg>], in any letter case, so the markup of a document with a
    nested svg element is cut at the inner closing tag. *)
Theorem body_ends_at_first_closing_tag :
  (forall file p, parseSvgFile file = Some p -> includes_ci "</svg>" (p_body p) = false)
  /\ (forall raw b, extractBodyFromRawSvg raw = Some b -> includes_ci "</svg>" b = false).
Proof.
  split.
  - intros [content|] p H; [|discriminate].
    apply parseSvgFile_Some in H. destruct H as (v & inner & _ & _ & Hi & _ & ->).
    cbn [p_body]. apply includes_ci_trim. now apply (inner_markup_open content).
  - intros raw b. rewrite extractBodyFromRawSvg_inner.
    destruct raw as [text|]; [|discriminate].
    destruct (inner_markup text) as [inner|] eqn:Hi; [|discriminate].
    destruct (is_empty (trim inner)); [discriminate|]. intros [= <-].
    apply includes_ci_trim. now apply (inner_markup_open text).
Qed.

(** X10.  [parseSvgFile] and [extractBodyFromRawSvg] extract the same
    body from the same text: when the file parses, the raw-text
    extraction returns its body; and when the raw-text extraction
    returns a body and the text has a viewBox attribute, the file
    parses, with that body. *)
Theorem parseSvgFile_extractBody_agree (content : string) :
  (forall p, parseSvgFile (Some content) = Some p ->
     extractBodyFromRawSvg (Some content) = Some (p_body p))
  /\ (forall b, extractBodyFromRawSvg (Some content) = Some b ->
        attribute "viewBox" content <> None ->
        exists p, parseSvgFile (Some content) = Some p /\ p_body p = b).
Proof.
  rewrite extractBodyFromRawSvg_inner, (parseSvgFile_normalized content). split.
  - intros p. destruct (attribute "viewBox" content) as [v|]; [|discriminate].
    destruct (inner_markup content) as [inner|]; [|discriminate].
    destruct (is_empty (trim inner)); [discriminate|]. now intros [= <-].
  - intros b. destruct (inner_markup content) as [inner|].
    + destruct (is_empty (trim inner)); [discriminate|]. intros [= <-] Hv.
      destruct (attribute "viewBox" content) as [v|]; [|contradiction]. eauto.
    + discriminate.
Qed.

Lemma numeric_finite (v : string) (x : number) : numeric v = Some x -> isNaN x = false.
Proof.
  unfold numeric. destruct (isFinite (parseFloat v)) eqn:E; [|discriminate].
  intros [= <-]. now destruct (parseFloat v).
Qed.

Lemma resolved_number (a c : option number) :
  (forall x, a = Some x -> isNaN x = false) -> (forall x, c = Some x -> isNaN x = false) ->
  isNaN (resolved a c DEFAULT_SVG_DIMENSION) = false.
Proof.
  intros Ha Hc. unfold resolved. destruct a as [x|]; [now apply Ha|].
  destruct c as [x|]; [now apply Hc | reflexivity].
Qed.

(** The width and the height of a parsed file are numbers. *)
Lemma parsed_numbers (file : option string) (p : ParsedSvg) :
  parseSvgFile file = Some p -> isNaN (p_width p) = false /\ isNaN (p_height p) = false.
Proof.
  destruct file as [content|]; [|discriminate]. intros H.
  apply parseSvgFile_Some in H. destruct H as (v & inner & _ & _ & _ & _ & ->).
  cbn [p_width p_height].
  assert (C : forall a b c d, components (trim v) = Some (a, b, c, d) ->
              isNaN c = false /\ isNaN d = false).
  { unfold components. intros a b c d.
    destruct (List.map parseFloat _) as [|a' [|b' [|c' [|d' [|e l]]]]]; try discriminate.
    destruct (isNaN a'), (isNaN b'), (isNaN c') eqn:Ec, (isNaN d') eqn:Ed; try discriminate.
    intros [= <- <- <- <-]. auto. }
  split; apply resolved_number.
  - unfold explicit. intros x.
    destruct (attribute "width" content); [apply numeric_finite | discriminate].
  - destruct (components (trim v)) as [[[[a b] c] d]|]; [|discriminate].
    intros x [= <-]. now apply (C a b c d).
  - unfold explicit. intros x.
    destruct (attribute "height" content); [apply numeric_finite | discriminate].
  - destruct (components (trim v)) as [[[[a b] c] d]|]; [|discriminate].
    intros x [= <-]. now apply (C a b c d).
Qed.

(** X11.  The width and the height [parseSvgFile] returns are never
    NaN: an attribute that is no finite number and a viewBox with a
    component that is no number are passed over. *)
Theorem parseSvgFile_dimensions_are_numbers (file : option string) (p : ParsedSvg) :
  parseSvgFile file = Some p -> isNaN (p_width p) = false /\ isNaN (p_height p) = false.
Proof. apply parsed_numbers. Qed.

Lemma parseSvgFile_dimensions_are_numbers_witness :
  isNaN (p_width Samples.parsed_viewBox_only) = false
  /\ isNaN (p_height Samples.parsed_viewBox_only) = false.
Proof.
  apply (parseSvgFile_dimensions_are_numbers (Some Fixtures.viewBox_only)
           Samples.parsed_viewBox_only).
  vm_compute. reflexivity.
Defined.

End MarkupFacts.

(** ** A pass over a kit *)

Module PassFacts.
Import JsString JsNumber Types Svg DatabaseService KitParserService Reference Notions.
Import StringFacts RegExpFacts SvgFacts DatabaseFacts DescriptorFacts Fixtures Samples.
Import StoreFacts MarkupFacts.

(** *** The pass as a sequence of inserts *)

Lemma attempt_accepted (db : Database) (d : IconData) :
  accepted d = true -> insertIcon db d = Some (attempt db d).
Proof.
  intros A. unfold attempt. rewrite insertIcon_accepted, A. reflexivity.
Qed.

Lemma insertIcon_rejected (db : Database) (d : IconData) :
  accepted d = false -> insertIcon db d = None.
Proof. intros A. now rewrite insertIcon_accepted, A. Qed.

Lemma fold_step_rejected (metadata : gmap string FontAwesomeIcon) (style : string)
    (files : list (string * option string)) (db : Database) :
  fold_left (step metadata style) files (db, Rejected) = (db, Rejected).
Proof. induction files as [|e files IH]; [reflexivity | exact IH]. Qed.

Lemma fold_step (metadata : gmap string FontAwesomeIcon) (style : string)
    (files : list (string * option string)) (db : Database) :
  fold_left (step metadata style) files (db, Resolved)
  = (fold_left attempt
       (fst (performed (List.map event_of
                          (omap (fun e => reconcile metadata style (fst e) (snd e)) files))))
       db,
     snd (performed (List.map event_of
                       (omap (fun e => reconcile metadata style (fst e) (snd e)) files)))).
Proof.
  revert db. induction files as [|e files IH]; intros db; [reflexivity|].
  cbn [fold_left omap list_omap]. unfold step at 2. cbn [fst snd].
  destruct (reconcile metadata style (fst e) (snd e)) as [d|]; [|apply IH].
  cbn [List.map performed]. unfold event_of at 1 3.
  destruct (accepted d) eqn:A.
  - rewrite (attempt_accepted _ _ A), IH.
    destruct (performed _) as [ws c]. reflexivity.
  - rewrite (insertIcon_rejected _ _ A). cbn [performed fst snd fold_left].
    apply fold_step_rejected.
Qed.

Lemma fold_styleLoop_rejected (metadata : gmap string FontAwesomeIcon)
    (entries : list (string * DirEntry)) (db : Database) :
  fold_left (styleLoop metadata) entries (db, Rejected) = (db, Rejected).
Proof. induction entries as [|e entries IH]; [reflexivity | exact IH]. Qed.

Lemma performed_app (l1 l2 : list event) :
  performed (l1 ++ l2)
  = match snd (performed l1) with
    | Resolved => ((fst (performed l1) ++ fst (performed l2))%list, snd (performed l2))
    | Rejected => (fst (performed l1), Rejected)
    end.
Proof.
  induction l1 as [|[d|] l1 IH]; cbn [app performed].
  - now destruct (performed l2).
  - rewrite IH. destruct (performed l1) as [ws c]. cbn [fst snd]. now destruct c.
  - reflexivity.
Qed.

Lemma styleLoop_events (metadata : gmap string FontAwesomeIcon)
    (subdir : string * DirEntry) (db : Database) :
  styleLoop metadata (db, Resolved) subdir
  = (fold_left attempt (fst (performed (events metadata subdir))) db,
     snd (performed (events metadata subdir))).
Proof.
  unfold styleLoop, events, reconciled. cbn [fst snd].
  destruct (snd subdir) as [files| |]; [apply fold_step | reflexivity..].
Qed.

Lemma fold_styleLoop (metadata : gmap string FontAwesomeIcon)
    (entries : list (string * DirEntry)) (db : Database) :
  fold_left (styleLoop metadata) entries (db, Resolved)
  = (fold_left attempt (fst (performed (flat_map (events metadata) entries))) db,
     snd (performed (flat_map (events metadata) entries))).
Proof.
  revert db. induction entries as [|e entries IH]; intros db; [reflexivity|].
  cbn [fold_left flat_map]. rewrite styleLoop_events, performed_app.
  destruct (performed (events metadata e)) as [ws c]. cbn [fst snd]. destruct c.
  - rewrite IH. cbn [fst snd]. now rewrite fold_left_app.
  - apply fold_styleLoop_rejected.
Qed.

Lemma parseKit_trace (db : Database) (kit : Kit) :
  parseKit db kit = (fold_left attempt (fst (trace kit)) db, snd (trace kit)).
Proof.
  unfold parseKit, trace. destruct (svgsDir kit) as [entries|]; [|reflexivity].
  apply fold_styleLoop.
Qed.

Lemma performed_accepted (ds : list IconData) :
  Forall (fun d => accepted d = true) ds ->
  performed (List.map event_of ds) = (ds, Resolved).
Proof.
  induction 1 as [|d ds A _ IH]; [reflexivity|].
  cbn [List.map performed]. unfold event_of at 1. now rewrite A, IH.
Qed.

Lemma events_accepted (metadata : gmap string FontAwesomeIcon)
    (entries : list (string * DirEntry)) :
  listable entries ->
  Forall (fun d => accepted d = true) (flat_map (reconciled metadata) entries) ->
  performed (flat_map (events metadata) entries)
  = (flat_map (reconciled metadata) entries, Resolved).
Proof.
  induction entries as [|[st e] entries IH]; intros L F; [reflexivity|].
  cbn [flat_map] in *. apply Forall_app in F. destruct F as [F1 F2].
  assert (L' : listable entries) by (intros s H; apply (L s); now right).
  rewrite performed_app, (IH L' F2).
  unfold events at 1 2. cbn [fst snd].
  destruct e as [files| |].
  - rewrite (performed_accepted _ F1). reflexivity.
  - exfalso. apply (L st). now left.
  - reflexivity.
Qed.

(** A pass over a kit whose directories can be listed and whose records
    the store accepts is the sequence of upserts of those records. *)
Lemma parseKit_pass (db : Database) (kit : Kit) (entries : list (string * DirEntry)) :
  svgsDir kit = Some entries -> listable entries ->
  Forall (fun d => accepted d = true) (pass kit) ->
  parseKit db kit = (fold_left attempt (pass kit) db, Resolved).
Proof.
  intros E L F. rewrite parseKit_trace. unfold trace, pass in *. rewrite E in *.
  now rewrite (events_accepted _ _ L F).
Qed.

(** *** What a record is made of *)

Lemma append_not_empty (a b : string) (c : ascii) : is_empty (a ++ String c b) = false.
Proof. destruct a; reflexivity. Qed.

Lemma formatViewBox_not_empty (d : SvgData) (w h : option number) :
  is_empty (formatViewBox d w h) = false.
Proof.
  unfold formatViewBox.
  destruct (svg_viewBox d) as [[|a [|b [|c [|e [|x l]]]]]|]; try reflexivity.
  cbn [List.map join]. apply append_not_empty.
Qed.

Lemma inherited_In (key : string) :
  JsObject.inherited key = true <-> In key JsObject.prototype_names.
Proof.
  unfold JsObject.inherited. rewrite existsb_exists. split.
  - intros (x & Hx & E). apply String.eqb_eq in E. now subst.
  - intros H. exists key. split; [exact H | apply String.eqb_refl].
Qed.

Lemma assemble_Some (iconName st : string) (icon : JsObject.property FontAwesomeIcon)
    (content : option string) (d : IconData) :
  assemble iconName st icon content = Some d ->
  name d = iconName /\ style d = st
  /\ body d <> "" /\ trim (body d) = body d /\ viewBox d <> ""
  /\ unicode d = unicode_of icon /\ searchTerms d = searchTerms_of icon
  /\ ((exists p, parseSvgFile content = Some p
                 /\ width d = p_width p /\ height d = p_height p)
      \/ (parseSvgFile content = None
          /\ width d = fst (deriveDimensions (svgData_of icon st))
          /\ height d = snd (deriveDimensions (svgData_of icon st)))).
Proof.
  unfold assemble.
  destruct (deriveDimensions (svgData_of icon st)) as [dw dh].
  destruct bodies_trimmed as (Bp & _ & Bd).
  set (vb := if absent (option_map p_viewBox (parseSvgFile content)) then _ else _).
  assert (V : exists v, vb = Some v /\ v <> "").
  { unfold vb. destruct (parseSvgFile content) as [p|]; cbn [option_map absent].
    - destruct (falsy (p_viewBox p)) eqn:E.
      + destruct (svgData_of icon st) as [sd|]; eexists; (split; [reflexivity|]).
        * intros Z. pose proof (formatViewBox_not_empty sd
            (Some (nullish (Some (p_width p)) dw)) (Some (nullish (Some (p_height p)) dh))) as F.
          rewrite Z in F. discriminate.
        * discriminate.
      + eexists. split; [reflexivity|]. intros Z. rewrite Z in E. discriminate.
    - destruct (svgData_of icon st) as [sd|]; eexists; (split; [reflexivity|]).
      + intros Z. pose proof (formatViewBox_not_empty sd
          (Some (nullish None dw)) (Some (nullish None dh))) as F.
        rewrite Z in F. discriminate.
      + discriminate. }
  destruct V as (v & -> & Hv).
  set (b := match svgData_of icon st with Some _ => _ | None => _ end).
  assert (B : forall x, b = Some x -> x <> "" /\ trim x = x).
  { unfold b. intros x. destruct (parseSvgFile content) as [p|] eqn:P; cbn [option_map absent].
    - destruct (Bp _ _ P) as [Hn Ht].
      assert (falsy (p_body p) = false) as ->
        by (destruct (p_body p); [contradiction | reflexivity]).
      destruct (svgData_of icon st); intros [= <-]; auto.
    - destruct (svgData_of icon st) as [sd|]; [apply Bd | discriminate]. }
  destruct b as [x|]; [|discriminate]. destruct (B x eq_refl) as [Hn Ht].
  destruct (falsy x) eqn:E; [discriminate|]. intros [= <-]. cbn.
  repeat split; auto.
  destruct (parseSvgFile content) as [p|]; [left | right]; eauto.
Qed.

(** What a reconciled record is made of. *)
Lemma reconcile_Some (metadata : gmap string FontAwesomeIcon) (st file : string)
    (content : option string) (d : IconData) :
  reconcile metadata st file content = Some d ->
  name d = basename file ".svg" /\ style d = st
  /\ body d <> "" /\ trim (body d) = body d /\ viewBox d <> ""
  /\ ((exists icon,
         metadata !! name d = Some icon
         /\ unicode d = Some (icon_unicode icon) /\ searchTerms d = terms_of icon)
      \/ (metadata !! name d = None /\ In (name d) JsObject.prototype_names
          /\ unicode d = None /\ searchTerms d = [])).
Proof.
  unfold reconcile, JsObject.get.
  destruct (metadata !! basename file ".svg") as [icon|] eqn:M.
  - intros H. apply assemble_Some in H.
    destruct H as (Hn & Hs & Hb & Ht & Hv & Hu & Hterms & _).
    repeat split; auto. left. exists icon. rewrite Hn. auto.
  - destruct (JsObject.inherited (basename file ".svg")) eqn:I; [|discriminate].
    intros H. apply assemble_Some in H.
    destruct H as (Hn & Hs & Hb & Ht & Hv & Hu & Hterms & _).
    repeat split; auto. right. rewrite Hn. apply inherited_In in I. auto.
Qed.

Lemma deriveDimensions_numbers (svgData : option SvgData) :
  (forall d x, svgData = Some d -> In x (numbers_of d) -> isNaN x = false) ->
  isNaN (fst (deriveDimensions svgData)) = false
  /\ isNaN (snd (deriveDimensions svgData)) = false.
Proof.
  intros H. destruct svgData as [d|]; [|split; reflexivity].
  specialize (H d). unfold deriveDimensions, numbers_of in *.
  destruct (svg_width d) as [w|], (svg_height d) as [h|];
    destruct (svg_viewBox d) as [[|a [|b [|c [|e [|x l]]]]]|];
    cbn [orElse nullish fst snd app] in *; split;
    try reflexivity; apply H; cbn; auto 10.
Qed.

(** The store accepts the records of a metadata map read from JSON. *)
Lemma reconcile_accepted (metadata : gmap string FontAwesomeIcon) (st file : string)
    (content : option string) (d : IconData) :
  from_json metadata -> reconcile metadata st file content = Some d -> accepted d = true.
Proof.
  intros [_ J]. unfold reconcile.
  set (found := JsObject.get metadata (basename file ".svg")).
  assert (N : forall sd x, svgData_of found st = Some sd -> In x (numbers_of sd) ->
              isNaN x = false).
  { unfold found, JsObject.get, svgData_of.
    destruct (metadata !! basename file ".svg") as [icon|] eqn:M.
    - unfold JsObject.get. destruct (icon_svg icon !! st) as [sd'|] eqn:S.
      + intros sd x [= <-]. exact (J _ icon st sd' x M S).
      + destruct (JsObject.inherited st); [|discriminate]. intros sd x [= <-] [].
    - destruct (JsObject.inherited _); discriminate. }
  intros H.
  assert (A : assemble (basename file ".svg") st found content = Some d)
    by (destruct found; [exact H | exact H | discriminate]).
  apply assemble_Some in A. destruct A as (_ & _ & _ & _ & _ & _ & _ & D).
  destruct (deriveDimensions_numbers _ N) as [Dw Dh].
  unfold accepted. destruct D as [(p & P & -> & ->) | (_ & -> & ->)].
  - destruct (parsed_numbers _ _ P) as [-> ->]. reflexivity.
  - now rewrite Dw, Dh.
Qed.

(** Where a record of a pass comes from. *)
Lemma pass_In (kit : Kit) (d : IconData) :
  In d (pass kit) ->
  exists entries st files file content,
    svgsDir kit = Some entries /\ In (st, Directory files) entries
    /\ In (file, content) files /\ endsWith file ".svg" = true
    /\ reconcile (metadata_of kit) st file content = Some d.
Proof.
  unfold pass. destruct (svgsDir kit) as [entries|]; [|intros []].
  intros H. apply in_flat_map in H. destruct H as ([st e] & He & Hd).
  unfold reconciled in Hd. cbn [fst snd] in Hd. destruct e as [files| |]; try destruct Hd.
  apply list_elem_of_In, list_elem_of_omap in Hd. destruct Hd as ([file content] & Hf & R).
  apply list_elem_of_In in Hf. unfold svgFiles in Hf. apply filter_In in Hf.
  cbn [fst snd] in *. destruct Hf as [Hf Hs].
  exists entries, st, files, file, content. auto.
Qed.

Lemma pass_accepted (kit : Kit) :
  from_json (metadata_of kit) -> Forall (fun d => accepted d = true) (pass kit).
Proof.
  intros J. apply Forall_forall. intros d H. apply list_elem_of_In, pass_In in H.
  destruct H as (entries & st & files & file & content & _ & _ & _ & _ & R).
  exact (reconcile_accepted _ _ _ _ _ J R).
Qed.


Lemma get_own {A} (own : gmap string A) (key : string) (a : A) :
  own !! key = Some a -> JsObject.get own key = JsObject.Own a.
Proof. unfold JsObject.get. now intros ->. Qed.

(** A file that parses gives a record, whatever the metadata holds for
    its name. *)
Lemma assemble_parsed (iconName st : string) (icon : JsObject.property FontAwesomeIcon)
    (content : option string) (p : ParsedSvg) :
  parseSvgFile content = Some p ->
  exists d,
    assemble iconName st icon content = Some d
    /\ name d = iconName /\ style d = st /\ body d = p_body p.
Proof.
  intros Hp. unfold assemble. rewrite Hp. cbn [option_map absent].
  pose proof (parsed_body_nonempty _ _ Hp) as Hb. unfold falsy in *.
  destruct (deriveDimensions (svgData_of icon st)) as [dw dh].
  destruct (svgData_of icon st) as [sd|]; rewrite ?Hb; cbn [nullish]; rewrite ?Hb;
    eexists; (split; [reflexivity|]); cbn; auto.
Qed.

Lemma In_pass (kit : Kit) (entries : list (string * DirEntry)) (st : string)
    (files : list (string * option string)) (file : string) (content : option string)
    (d : IconData) :
  svgsDir kit = Some entries -> In (st, Directory files) entries ->
  In (file, content) files -> endsWith file ".svg" = true ->
  reconcile (metadata_of kit) st file content = Some d -> In d (pass kit).
Proof.
  intros E He Hf Hs R. unfold pass. rewrite E. apply in_flat_map.
  exists (st, Directory files). split; [exact He|].
  unfold reconciled. cbn [fst snd]. apply list_elem_of_In, list_elem_of_omap.
  exists (file, content). split; [|exact R].
  apply list_elem_of_In. unfold svgFiles. apply filter_In. auto.
Qed.

Lemma sample_metadata_from_json (d : SvgData) :
  (forall x, In x (numbers_of d) -> isNaN x = false) -> from_json (sample_metadata d).
Proof.
  intros H. split; [now apply lookup_singleton_ne|].
  intros name icon st d' x M S X. unfold sample_metadata in M.
  apply lookup_singleton_Some in M. destruct M as [_ <-].
  cbn [sample_icon icon_svg] in S.
  apply lookup_singleton_Some in S. destruct S as [_ <-]. now apply H.
Qed.

Lemma box_numbers : forall x, In x (numbers_of with_path_and_box) -> isNaN x = false.
Proof. intros x X. vm_compute in X. intuition (subst; reflexivity). Qed.

(** X12.  After a pass on a fresh store, over a kit whose directories
    can be listed and whose metadata is read from a JSON file without
    the key [__proto__], every record the store lists for a style has
    a body that is not empty and is trimmed, a viewBox that is not
    empty, and the name of an [.svg] file of the directory of that
    style; its name has a metadata entry, whose unicode and search
    terms it has, or it is the name of a member of [Object.prototype],
    and then it has no unicode and no search term.  And every [.svg]
    file of the directory of a style that parses, and whose name has a
    metadata entry, has a record of its name listed for the style. *)
Theorem parseKit_store_invariant (kit : Kit) (entries : list (string * DirEntry)) :
  svgsDir kit = Some entries -> listable entries -> from_json (metadata_of kit) ->
  exists db,
    parseKit initDatabase kit = (db, Resolved)
    /\ forall st, exists records,
         getIconsByStyle db st = Some records
         /\ (forall d, In d records ->
               style d = st /\ body d <> "" /\ trim (body d) = body d /\ viewBox d <> ""
               /\ exists files file content,
                    In (st, Directory files) entries
                    /\ In (file, content) files /\ endsWith file ".svg" = true
                    /\ name d = basename file ".svg"
                    /\ ((exists icon,
                           metadata_of kit !! name d = Some icon
                           /\ unicode d = Some (icon_unicode icon)
                           /\ searchTerms d = terms_of icon)
                        \/ (metadata_of kit !! name d = None
                            /\ In (name d) JsObject.prototype_names
                            /\ unicode d = None /\ searchTerms d = [])))
         /\ (forall files file content icon p,
               In (st, Directory files) entries -> In (file, content) files ->
               endsWith file ".svg" = true ->
               metadata_of kit !! basename file ".svg" = Some icon ->
               parseSvgFile content = Some p ->
               In (basename file ".svg") (List.map name records)).
Proof.
  intros E L J. rewrite (parseKit_pass _ kit entries E L (pass_accepted kit J)).
  eexists. split; [reflexivity|]. intros st.
  change initDatabase with (after []). rewrite after_app. cbn [app].
  rewrite getIconsByStyle_after.
  eexists. split; [reflexivity|]. split.
  - intros d H.
    apply filter_In in H. destruct H as [H Hst]. apply String.eqb_eq in Hst.
    apply latest_incl, written_In in H. destruct H as (x & H & _ & ->).
    apply pass_In in H.
    destruct H as (entries' & st' & files & file & content & E' & He & Hf & Hs & R).
    rewrite E in E'. injection E' as <-.
    apply reconcile_Some in R. destruct R as (Hn & Hst' & Hb & Ht & Hv & Hm).
    cbn [as_stored style body viewBox name unicode searchTerms] in *.
    assert (st' = st) by congruence. subst st'.
    split; [exact Hst|]. split; [exact Hb|]. split; [exact Ht|]. split; [exact Hv|].
    exists files, file, content.
    repeat split; try assumption. now rewrite <- Hst.
  - intros files file content icon p He Hf Hs M P.
    destruct (assemble_parsed (basename file ".svg") st (JsObject.Own icon) content p P)
      as (d & A & Hn & Hst & _).
    assert (R : reconcile (metadata_of kit) st file content = Some d)
      by (unfold reconcile; now rewrite (get_own _ _ _ M)).
    pose proof (In_pass kit entries st files file content d E He Hf Hs R) as Hp.
    assert (W : In (as_stored d) (written (pass kit))).
    { apply written_In. exists d. split; [exact Hp|]. split; [|reflexivity].
      pose proof (pass_accepted kit J) as F. rewrite Forall_forall in F.
      apply F. now apply list_elem_of_In. }
    destruct (latest_covers _ _ W) as (d' & Hd' & K).
    unfold key in K. cbn [as_stored name style] in K. injection K as Kn Ks.
    apply in_map_iff. exists d'. split; [congruence|].
    apply filter_In. split; [exact Hd'|]. apply String.eqb_eq. congruence.
Qed.

Lemma parseKit_store_invariant_witness :
  exists db,
    parseKit initDatabase mixed_kit = (db, Resolved)
    /\ getIconsByStyle db "solid" = Some [sample_record]
    /\ forall st, exists records,
         getIconsByStyle db st = Some records
         /\ (forall d, In d records -> style d = st /\ body d <> "")
         /\ (st = "solid" -> In "sample" (List.map name records)).
Proof.
  assert (J : from_json (metadata_of mixed_kit))
    by exact (sample_metadata_from_json _ box_numbers).
  assert (L : listable mixed_entries).
  { intros st [H|[H|[]]]; discriminate. }
  destruct (parseKit_store_invariant mixed_kit mixed_entries eq_refl L J) as (db & P & H).
  exists db. split; [exact P|]. split.
  - assert (D : db = fst (parseKit initDatabase mixed_kit)) by now rewrite P.
    rewrite D. vm_compute. reflexivity.
  - intros st. destruct (H st) as (records & Lr & R & C).
    exists records. split; [exact Lr|]. split.
    + intros d Hd. destruct (R d Hd) as (S & B & _). split; assumption.
    + intros ->.
      apply (C [("sample.svg", Some rect_48_64); ("notes.txt", None)] "sample.svg"
               (Some rect_48_64) (sample_icon with_path_and_box) parsed_rect_48_64).
      * now left.
      * now left.
      * reflexivity.
      * reflexivity.
      * vm_compute. reflexivity.
Defined.

(** X13.  A second pass over the same kit ends as the first did,
    resolved or rejected, and changes the result of none of
    [getAvailableStyles], [getIconsByStyle] and [searchIcons]: the
    records are overwritten by themselves.  Both passes are resolved
    when the directories can be listed and the metadata is read from a
    JSON file without the key [__proto__]. *)
Theorem parseKit_second_pass (writes : list IconData) (kit : Kit) :
  exists db1 db2 c,
    parseKit (after writes) kit = (db1, c) /\ parseKit db1 kit = (db2, c)
    /\ getAvailableStyles db2 = getAvailableStyles db1
    /\ (forall st, getIconsByStyle db2 st = getIconsByStyle db1 st)
    /\ (forall query styles, searchIcons db2 query styles = searchIcons db1 query styles)
    /\ (forall entries, svgsDir kit = Some entries -> listable entries ->
          from_json (metadata_of kit) -> c = Resolved).
Proof.
  exists (after (writes ++ fst (trace kit))),
    (after ((writes ++ fst (trace kit)) ++ fst (trace kit))), (snd (trace kit)).
  split; [now rewrite parseKit_trace, after_app|].
  split; [now rewrite parseKit_trace, after_app|].
  destruct (written_again writes (fst (trace kit))) as (H1 & H2 & H3).
  split; [exact H1|]. split; [exact H2|]. split; [exact H3|].
  intros entries E L J.
  pose proof (parseKit_pass initDatabase kit entries E L (pass_accepted kit J)) as P.
  rewrite parseKit_trace in P. now injection P.
Qed.

Lemma parseKit_second_pass_witness :
  exists db1 db2,
    parseKit (after [anchor]) mixed_kit = (db1, Resolved)
    /\ parseKit db1 mixed_kit = (db2, Resolved)
    /\ getAvailableStyles db2 = getAvailableStyles db1
    /\ (forall st, getIconsByStyle db2 st = getIconsByStyle db1 st)
    /\ (forall query styles, searchIcons db2 query styles = searchIcons db1 query styles).
Proof.
  destruct (parseKit_second_pass [anchor] mixed_kit)
    as (db1 & db2 & c & P1 & P2 & H1 & H2 & H3 & R).
  assert (L : listable mixed_entries) by (intros st [H|[H|[]]]; discriminate).
  rewrite (R mixed_entries eq_refl L (sample_metadata_from_json _ box_numbers)) in P1, P2.
  exists db1, db2. repeat split; assumption.
Defined.

Lemma reconciled_nothing (metadata : gmap string FontAwesomeIcon) (st : string)
    (files : list (string * option string)) :
  (forall file content, In (file, content) files -> endsWith file ".svg" = true ->
     JsObject.get metadata (basename file ".svg") = JsObject.Undefined) ->
  reconciled metadata (st, Directory files) = [].
Proof.
  intros H. unfold reconciled, svgFiles. cbn [fst snd].
  induction files as [|[file content] files IH]; [reflexivity|].
  cbn [List.filter fst]. destruct (endsWith file ".svg") eqn:S.
  - cbn [omap list_omap fst snd]. unfold reconcile at 1.
    rewrite (H file content (or_introl eq_refl) S).
    apply IH. intros f c Hf Hs. apply (H f c); [now right | exact Hs].
  - apply IH. intros f c Hf Hs. apply (H f c); [now right | exact Hs].
Qed.

(** X14.  When [icons.json] cannot be read, or holds no entry, and no
    [.svg] file is named after a member of [Object.prototype], the
    pass over a kit whose directories can be listed is resolved and
    leaves the store as it is: no file is given a record. *)
Theorem parseKit_without_metadata (db : Database) (kit : Kit)
    (entries : list (string * DirEntry)) :
  iconsMetadata kit = None \/ iconsMetadata kit = Some ∅ ->
  svgsDir kit = Some entries -> listable entries ->
  (forall st files file content,
     In (st, Directory files) entries -> In (file, content) files ->
     endsWith file ".svg" = true -> ~ In (basename file ".svg") JsObject.prototype_names) ->
  parseKit db kit = (db, Resolved).
Proof.
  intros M E L N.
  assert (P : pass kit = []).
  { unfold pass. rewrite E.
    assert (metadata_of kit = ∅) as -> by (unfold metadata_of; now destruct M as [-> | ->]).
    clear - N. induction entries as [|[st e] entries' IH]; [reflexivity|].
    cbn [flat_map]. rewrite IH by (intros st' files f c H; apply (N st' files f c); now right).
    destruct e as [files| |]; try reflexivity.
    rewrite reconciled_nothing; [reflexivity|].
    intros file content Hf S. unfold JsObject.get. rewrite lookup_empty.
    destruct (JsObject.inherited (basename file ".svg")) eqn:I; [|reflexivity].
    exfalso. apply (N st files file content); [now left | assumption.. |].
    now apply inherited_In. }
  rewrite (parseKit_pass db kit entries E L); rewrite P; [reflexivity | constructor].
Qed.

Lemma parseKit_without_metadata_witness :
  parseKit (after [anchor]) kit_without_metadata = (after [anchor], Resolved).
Proof.
  apply (parseKit_without_metadata (after [anchor]) kit_without_metadata
           [("solid", Directory [("sample.svg", Some rect_48_64)])]).
  - left. reflexivity.
  - reflexivity.
  - intros st [H|[]]; discriminate.
  - intros st files file content [[= <- <-]|[]] [[= <- <-]|[]] _. vm_compute. intuition discriminate.
Defined.

(** *** Each key once *)

Lemma substring_all (s : string) : substring 0 (String.length s) s = s.
Proof. induction s as [|c s IH]; [reflexivity|]. cbn. now rewrite IH. Qed.

Lemma substring_split (s : string) (m k : nat) :
  (m + k)%nat = String.length s -> substring 0 m s ++ substring m k s = s.
Proof.
  revert m. induction s as [|c s IH]; intros m H.
  - destruct m, k; try discriminate. reflexivity.
  - destruct m as [|m].
    + cbn in H. subst k. cbn [substring String.append]. now rewrite substring_all.
    + cbn [substring String.append]. f_equal. apply IH. cbn in H. lia.
Qed.

(** The name of an [.svg] file is its base name and the extension. *)
Lemma basename_svg (file : string) :
  endsWith file ".svg" = true -> file = basename file ".svg" ++ ".svg".
Proof.
  intros H. unfold basename. rewrite H. cbn [is_empty negb andb].
  unfold endsWith in H. apply andb_prop in H. destruct H as [Hk He].
  apply Nat.leb_le in Hk. apply String.eqb_eq in He.
  transitivity (substring 0 (String.length file - String.length ".svg") file
                ++ substring (String.length file - String.length ".svg")
                     (String.length ".svg") file).
  - symmetry. apply substring_split. lia.
  - now rewrite He.
Qed.

Lemma reconciled_In (metadata : gmap string FontAwesomeIcon) (st : string)
    (files : list (string * option string)) (d : IconData) :
  In d (reconciled metadata (st, Directory files)) ->
  style d = st
  /\ exists file, In file (List.map fst files) /\ endsWith file ".svg" = true
                  /\ name d = basename file ".svg".
Proof.
  unfold reconciled. cbn [fst snd]. intros H.
  apply list_elem_of_In, list_elem_of_omap in H. destruct H as ([file content] & Hf & R).
  apply list_elem_of_In in Hf. unfold svgFiles in Hf. apply filter_In in Hf.
  cbn [fst snd] in *. destruct Hf as [Hf Hs].
  apply reconcile_Some in R. destruct R as (Hn & Hst & _).
  split; [exact Hst|]. exists file. split; [|auto].
  apply in_map_iff. exists (file, content). auto.
Qed.

Lemma reconciled_keys (metadata : gmap string FontAwesomeIcon) (st : string)
    (files : list (string * option string)) :
  NoDup (List.map fst files) ->
  NoDup (List.map key (reconciled metadata (st, Directory files))).
Proof.
  induction files as [|[file content] files IH]; [constructor|].
  cbn [List.map fst]. intros N. apply NoDup_cons in N. destruct N as [Nf N].
  specialize (IH N). unfold reconciled in *. cbn [fst snd] in *.
  unfold svgFiles in *. cbn [List.filter fst].
  destruct (endsWith file ".svg") eqn:S; [|exact IH].
  cbn [omap list_omap fst snd].
  destruct (reconcile metadata st file content) as [d|] eqn:R; [|exact IH].
  cbn [List.map]. apply NoDup_cons. split; [|exact IH].
  intros H. apply list_elem_of_In, in_map_iff in H. destruct H as (d' & Hk & Hd').
  apply (reconciled_In metadata st files) in Hd'.
  destruct Hd' as (_ & file' & Hf' & S' & Hn').
  apply reconcile_Some in R. destruct R as (Hn & _).
  apply Nf. apply list_elem_of_In.
  rewrite (basename_svg file S), <- Hn.
  assert (name d = name d') as -> by (unfold key in Hk; congruence).
  rewrite Hn', <- (basename_svg file' S'). exact Hf'.
Qed.

Lemma latest_id (ws : list IconData) : NoDup (List.map key ws) -> latest ws = ws.
Proof.
  induction ws as [|d ws IH]; [reflexivity|]. cbn [List.map latest].
  intros N. apply NoDup_cons in N. destruct N as [Nd N].
  destruct (existsb (same_key d) ws) eqn:E.
  - exfalso. apply Nd. apply existsb_exists in E. destruct E as (x & Hx & Hk).
    apply same_key_iff in Hk. apply list_elem_of_In, in_map_iff. exists x. auto.
  - now rewrite IH.
Qed.

Section UniqueNames.
Variable metadata : gmap string FontAwesomeIcon.

Lemma pass_keys (entries : list (string * DirEntry)) :
  NoDup (List.map fst entries) ->
  (forall st files, In (st, Directory files) entries -> NoDup (List.map fst files)) ->
  NoDup (List.map key (flat_map (reconciled metadata) entries)).
Proof.
  induction entries as [|[st e] entries IH]; [constructor|].
  cbn [List.map fst flat_map]. intros N F. apply NoDup_cons in N. destruct N as [Ns N].
  rewrite List.map_app. apply NoDup_app. split; [|split].
  - destruct e as [files| |]; [|constructor..]. apply reconciled_keys. apply (F st). now left.
  - intros k H1 H2. apply list_elem_of_In, in_map_iff in H1, H2.
    destruct H1 as (d1 & K1 & H1), H2 as (d2 & K2 & H2).
    destruct e as [files| |]; try destruct H1.
    apply reconciled_In in H1. destruct H1 as [S1 _].
    apply in_flat_map in H2. destruct H2 as ([st' e'] & He' & H2).
    destruct e' as [files'| |]; try destruct H2.
    apply reconciled_In in H2. destruct H2 as [S2 _].
    apply Ns. apply list_elem_of_In, in_map_iff. exists (st', Directory files').
    split; [|exact He']. cbn. unfold key in *. congruence.
  - apply IH; [exact N|]. intros st' files' H. apply (F st'). now right.
Qed.

Lemma filter_style_none (st : string) (entries : list (string * DirEntry)) :
  ~ In st (List.map fst entries) ->
  List.filter (fun d => String.eqb (style d) st) (flat_map (reconciled metadata) entries) = [].
Proof.
  intros H. rewrite (filter_agree _ (fun _ => false)); [apply filter_false|].
  intros d Hd. apply in_flat_map in Hd. destruct Hd as ([st' e'] & He' & Hd).
  destruct e' as [files'| |]; try destruct Hd.
  apply reconciled_In in Hd. destruct Hd as [Sd _].
  apply String.eqb_neq. intros E. apply H. apply in_map_iff.
  exists (st', Directory files'). split; [cbn; congruence | exact He'].
Qed.

Lemma filter_style_pass (st : string) (files : list (string * option string))
    (entries : list (string * DirEntry)) :
  NoDup (List.map fst entries) -> In (st, Directory files) entries ->
  List.filter (fun d => String.eqb (style d) st) (flat_map (reconciled metadata) entries)
  = reconciled metadata (st, Directory files).
Proof.
  induction entries as [|[st' e'] entries IH]; [intros _ []|].
  cbn [List.map fst flat_map]. intros N H. apply NoDup_cons in N. destruct N as [Ns N].
  rewrite List.filter_app. destruct H as [[= -> ->]|H].
  - rewrite filter_style_none by (now rewrite <- list_elem_of_In).
    rewrite app_nil_r. rewrite (filter_agree _ (fun _ => true)); [apply filter_all|].
    intros d Hd. apply reconciled_In in Hd. destruct Hd as [Hd _]. cbv beta.
    rewrite Hd. apply String.eqb_refl.
  - rewrite (IH N H). rewrite (filter_agree _ (fun _ => false)); [now rewrite filter_false|].
    intros d Hd. destruct e' as [files'| |]; try destruct Hd.
    apply reconciled_In in Hd. destruct Hd as [Hd _].
    apply String.eqb_neq. intros E. apply Ns. apply list_elem_of_In, in_map_iff.
    exists (st, Directory files). split; [cbn; congruence | exact H].
Qed.

End UniqueNames.

Lemma as_stored_keys (l : list IconData) : List.map key (List.map as_stored l) = List.map key l.
Proof. rewrite List.map_map. reflexivity. Qed.

Lemma filter_as_stored (st : string) (l : list IconData) :
  List.filter (fun d => String.eqb (style d) st) (List.map as_stored l)
  = List.map as_stored (List.filter (fun d => String.eqb (style d) st) l).
Proof.
  induction l as [|x l IH]; [reflexivity|]. cbn [List.map List.filter as_stored style].
  destruct (String.eqb (style x) st); cbn [List.map]; now rewrite IH.
Qed.

Lemma written_accepted (l : list IconData) :
  Forall (fun d => accepted d = true) l -> written l = List.map as_stored l.
Proof.
  intros F. unfold written. f_equal.
  rewrite (filter_agree _ (fun _ => true)); [apply filter_all|].
  intros x Hx. rewrite Forall_forall in F. apply F. now apply list_elem_of_In.
Qed.

Lemma reconciled_names (metadata : gmap string FontAwesomeIcon) (st : string)
    (l : list (string * option string)) :
  (forall file content, In (file, content) l ->
     (exists icon, metadata !! basename file ".svg" = Some icon)
     /\ (exists p, parseSvgFile content = Some p)) ->
  List.map name (omap (fun e => reconcile metadata st (fst e) (snd e)) l)
  = List.map (fun e => basename (fst e) ".svg") l.
Proof.
  induction l as [|[file content] l IH]; intros H; [reflexivity|].
  cbn [omap list_omap fst snd List.map].
  destruct (H file content (or_introl eq_refl)) as ((icon & M) & (p & P)).
  destruct (assemble_parsed (basename file ".svg") st (JsObject.Own icon) content p P)
    as (d & A & Hn & _).
  assert (R : reconcile metadata st file content = Some d)
    by (unfold reconcile; now rewrite (get_own _ _ _ M)).
  rewrite R. cbn [List.map]. rewrite Hn. f_equal.
  apply IH. intros f c Hf. apply H. now right.
Qed.

(** X15.  When no name occurs twice in a directory listing, a pass
    writes no (name, style) key twice, and after a pass on a fresh
    store, over a kit whose directories can be listed and whose
    metadata is read from a JSON file without the key [__proto__],
    [getIconsByStyle] returns, for the style of a directory, the
    records of its [.svg] files in the order [readdir] gave them, as
    the store gives them back; when each of these files parses and has
    a metadata entry for its name, the names listed are the base names
    of the files, in that order. *)
Theorem parseKit_writes_each_key_once (kit : Kit) (entries : list (string * DirEntry)) :
  svgsDir kit = Some entries -> listable entries -> from_json (metadata_of kit) ->
  NoDup (List.map fst entries) ->
  (forall st files, In (st, Directory files) entries -> NoDup (List.map fst files)) ->
  NoDup (List.map key (pass kit))
  /\ exists db,
       parseKit initDatabase kit = (db, Resolved)
       /\ forall st files, In (st, Directory files) entries ->
            getIconsByStyle db st
            = Some (List.map as_stored (reconciled (metadata_of kit) (st, Directory files)))
            /\ ((forall file content,
                   In (file, content) files -> endsWith file ".svg" = true ->
                   (exists icon, metadata_of kit !! basename file ".svg" = Some icon)
                   /\ (exists p, parseSvgFile content = Some p)) ->
                exists records,
                  getIconsByStyle db st = Some records
                  /\ List.map name records
                     = List.map (fun e => basename (fst e) ".svg")
                         (List.filter (fun e => endsWith (fst e) ".svg") files)).
Proof.
  intros E L J N F.
  assert (K : NoDup (List.map key (pass kit))).
  { unfold pass. rewrite E. now apply pass_keys. }
  split; [exact K|].
  rewrite (parseKit_pass _ kit entries E L (pass_accepted kit J)).
  eexists. split; [reflexivity|].
  intros st files H. change initDatabase with (after []). rewrite after_app. cbn [app].
  rewrite getIconsByStyle_after, (written_accepted _ (pass_accepted kit J)).
  rewrite latest_id by (now rewrite as_stored_keys).
  rewrite filter_as_stored. unfold pass. rewrite E.
  rewrite (filter_style_pass _ _ _ _ N H).
  split; [reflexivity|]. intros P. eexists. split; [reflexivity|].
  rewrite List.map_map. cbn [as_stored name].
  unfold reconciled, svgFiles. cbn [fst snd]. apply reconciled_names.
  intros file content Hf. apply filter_In in Hf. cbn [fst] in Hf. destruct Hf as [Hf Hs].
  now apply P.
Qed.

Lemma parseKit_writes_each_key_once_witness :
  NoDup (List.map key (pass mixed_kit))
  /\ exists db,
       parseKit initDatabase mixed_kit = (db, Resolved)
       /\ getIconsByStyle db "solid" = Some [sample_record]
       /\ forall st files, In (st, Directory files) mixed_entries ->
            getIconsByStyle db st
            = Some (List.map as_stored (reconciled (metadata_of mixed_kit) (st, Directory files))).
Proof.
  assert (L : listable mixed_entries) by (intros st [H|[H|[]]]; discriminate).
  assert (N : NoDup (List.map fst mixed_entries))
    by (apply (bool_decide_unpack _); vm_compute; exact I).
  assert (F : forall st files, In (st, Directory files) mixed_entries ->
                NoDup (List.map fst files)).
  { intros st files [[= <- <-]|[H|[]]]; [|discriminate].
    apply (bool_decide_unpack _). vm_compute. exact I. }
  destruct (parseKit_writes_each_key_once mixed_kit mixed_entries eq_refl L
              (sample_metadata_from_json _ box_numbers) N F) as (K & db & P & H).
  split; [exact K|]. exists db. split; [exact P|]. split.
  - assert (D : db = fst (parseKit initDatabase mixed_kit)) by now rewrite P.
    rewrite D. vm_compute. reflexivity.
  - intros st files Hin. exact (proj1 (H st files Hin)).
Defined.

End PassFacts.
(** ** Reconciliation of file and descriptor *)

Module KitFacts.
Import JsString JsNumber Types Svg DatabaseService KitParserService Reference Notions.
Import StringFacts RegExpFacts SvgFacts DatabaseFacts DescriptorFacts Fixtures Samples.
Import StoreFacts MarkupFacts PassFacts.

Lemma performed_incl (l : list event) (d : IconData) :
  In d (fst (performed l)) -> In (Insert d) l.
Proof.
  induction l as [|[x|] l IH]; cbn [performed]; [intros [] | | intros []].
  destruct (performed l) as [ws c]. cbn [fst] in *.
  intros [->|H]; [now left | right; auto].
Qed.

Lemma events_incl (metadata : gmap string FontAwesomeIcon) (subdir : string * DirEntry)
    (d : IconData) :
  In (Insert d) (events metadata subdir) -> In d (reconciled metadata subdir).
Proof.
  unfold events, reconciled. destruct (snd subdir) as [files| |].
  - intros H. apply in_map_iff in H. destruct H as (x & E & H).
    unfold event_of in E. destruct (accepted x); [|discriminate]. now injection E as <-.
  - intros [H|[]]. discriminate.
  - intros [].
Qed.

(** What a pass inserts before it ends is among the records of the pass. *)
Lemma trace_incl (kit : Kit) (d : IconData) : In d (fst (trace kit)) -> In d (pass kit).
Proof.
  unfold trace, pass. destruct (svgsDir kit) as [entries|]; [|intros []].
  intros H. apply performed_incl, in_flat_map in H. destruct H as (e & He & H).
  apply in_flat_map. exists e. split; [exact He | now apply events_incl].
Qed.

(** After a pass on a fresh store, however it ends, a listed record has
    the style asked for and the name of an [.svg] entry of the directory
    of that style. *)
Lemma listed_has_entry (kit : Kit) (db : Database) (c : Completion) (st : string) :
  parseKit initDatabase kit = (db, c) ->
  exists records,
    getIconsByStyle db st = Some records
    /\ forall d, In d records ->
         exists entries files file content,
           svgsDir kit = Some entries /\ In (st, Directory files) entries
           /\ In (file, content) files /\ endsWith file ".svg" = true
           /\ name d = basename file ".svg".
Proof.
  rewrite parseKit_trace. intros [= <- _].
  change (fold_left attempt (fst (trace kit)) initDatabase) with (after (fst (trace kit))).
  rewrite getIconsByStyle_after. eexists. split; [reflexivity|]. intros d H.
  apply filter_In in H. destruct H as [H Hst]. apply String.eqb_eq in Hst.
  apply latest_incl, written_In in H. destruct H as (x & H & _ & ->).
  apply trace_incl, pass_In in H.
  destruct H as (entries & st' & files & file & content & E & He & Hf & Hs & R).
  apply reconcile_Some in R. destruct R as (Hn & Hst' & _).
  cbn [as_stored style name] in *. exists entries, files, file, content.
  assert (st' = st) by congruence. subst st'. repeat split; try assumption. now rewrite <- Hst.
Qed.

(** C1 (amended).  When the file parses and the descriptor carries
    embedded data, body, width and height of the record are the file's;
    so is the viewBox, unless the file's trimmed viewBox is the empty
    string, in which case it is formatted from the descriptor.  The
    record is inserted without error, and the store lists it last for
    its style, as it gives it back: with zero for a negative zero. *)
Theorem reconcile_file_wins (metadata : gmap string FontAwesomeIcon)
    (style svgFile : string) (file : option string)
    (icon : FontAwesomeIcon) (d : SvgData) (p : ParsedSvg) (writes : list IconData) :
  metadata !! basename svgFile ".svg" = Some icon ->
  icon_svg icon !! style = Some d ->
  parseSvgFile file = Some p ->
  let record :=
    {| name := basename svgFile ".svg"; style := style;
       body := p_body p; width := p_width p; height := p_height p;
       viewBox := if is_empty (p_viewBox p)
                  then formatViewBox d (Some (p_width p)) (Some (p_height p))
                  else p_viewBox p;
       unicode := Some (icon_unicode icon); searchTerms := terms_of icon |} in
  reconcile metadata style svgFile file = Some record
  /\ exists db others,
       step metadata style (after writes, Resolved) (svgFile, file) = (db, Resolved)
       /\ insertIcon (after writes) record = Some db
       /\ getIconsByStyle db style
          = Some (others ++ [ {| name := basename svgFile ".svg"; style := style;
                                 body := p_body p;
                                 width := unsigned_zero (p_width p);
                                 height := unsigned_zero (p_height p);
                                 viewBox := viewBox record;
                                 unicode := Some (icon_unicode icon);
                                 searchTerms := terms_of icon |} ])%list.
Proof.
  intros Hm Hd Hp record.
  assert (R : reconcile metadata style svgFile file = Some record).
  { unfold reconcile. rewrite (get_own _ _ _ Hm). unfold assemble, svgData_of.
    rewrite (get_own _ _ _ Hd), Hp. cbn [option_map absent].
    pose proof (parsed_body_nonempty _ _ Hp) as Hb. unfold falsy in *. rewrite Hb.
    destruct (deriveDimensions (Some d)) as [dw dh]. cbn [nullish]. rewrite Hb.
    unfold record, terms_of. cbn [unicode_of searchTerms_of].
    destruct (is_empty (p_viewBox p)); reflexivity. }
  split; [exact R|].
  assert (A : accepted record = true).
  { destruct (parsed_numbers _ _ Hp) as [Hw Hh]. unfold accepted, record.
    cbn [width height]. now rewrite Hw, Hh. }
  destruct (insertIcon_listed writes record A) as (db & others & I & L).
  exists db, others. split; [|split; [exact I | exact L]].
  unfold step. cbn [fst snd]. now rewrite R, I.
Qed.

Lemma reconcile_file_wins_witness :
  let record :=
    {| name := "sample"; style := "solid";
       body := dq "<rect width='48' height='64' fill='currentColor'/>";
       width := of_Z 48; height := of_Z 64; viewBox := "0 0 48 64";
       unicode := Some "f101"; searchTerms := ["sample"] |} in
  reconcile (sample_metadata with_path_and_box) "solid" "sample.svg" (Some rect_48_64)
  = Some record
  /\ exists db others,
       step (sample_metadata with_path_and_box) "solid" (after [anchor], Resolved)
         ("sample.svg", Some rect_48_64) = (db, Resolved)
       /\ insertIcon (after [anchor]) record = Some db
       /\ getIconsByStyle db "solid" = Some (others ++ [record])%list.
Proof.
  apply (reconcile_file_wins (sample_metadata with_path_and_box) "solid" "sample.svg"
           (Some rect_48_64) (sample_icon with_path_and_box) with_path_and_box
           {| p_body := dq "<rect width='48' height='64' fill='currentColor'/>";
              p_width := of_Z 48; p_height := of_Z 64; p_viewBox := "0 0 48 64" |}
           [anchor]); vm_compute; reflexivity.
Defined.

(** C1, as stated, fails.  This file parses and the descriptor carries
    embedded data, yet the stored viewBox is the descriptor's and not
    the file's, which is the empty string; and the width of this other
    file is the negative zero, which the store gives back as zero. *)
Lemma file_viewBox_overridden :
  (option_map p_viewBox (parseSvgFile (Some blank_viewBox)) = Some ""
   /\ option_map p_body (parseSvgFile (Some blank_viewBox)) = Some "<rect/>"
   /\ icon_svg (sample_icon with_path_and_box) !! "solid" = Some with_path_and_box
   /\ getIconsByStyle
        (fst (parseKit initDatabase (sample_kit with_path_and_box (Some blank_viewBox))))
        "solid"
      = Some [ {| name := "sample"; style := "solid"; body := "<rect/>";
                  width := of_Z 512; height := of_Z 512; viewBox := "0 0 10 10";
                  unicode := Some "f101"; searchTerms := ["sample"] |} ])
  /\ (option_map p_width (parseSvgFile (Some negative_zero_width)) = Some (S754_zero true)
      /\ getIconsByStyle
           (fst (parseKit initDatabase
                   (sample_kit with_path_and_box (Some negative_zero_width))))
           "solid"
         = Some [ {| name := "sample"; style := "solid"; body := "<rect/>";
                     width := S754_zero false; height := of_Z 10; viewBox := "0 0 10 10";
                     unicode := Some "f101"; searchTerms := ["sample"] |} ]).
Proof. vm_compute. repeat split. Qed.

(** C2 (amended).  For an [.svg] entry of a style directory whose file
    does not parse, the record, if any, is made from the descriptor,
    which is read from JSON and so holds no NaN: its body is the body
    the descriptor yields, it is inserted without error and listed last
    for its style, and there is no record when the descriptor yields no
    body.  A style directory without an [.svg] entry for a name gives no
    record of that name, whatever the descriptor holds and however the
    pass ends. *)
Theorem reconcile_descriptor_fallback :
  (forall (metadata : gmap string FontAwesomeIcon) (style svgFile : string)
          (file : option string) (icon : FontAwesomeIcon) (d : SvgData)
          (writes : list IconData),
     metadata !! basename svgFile ".svg" = Some icon ->
     icon_svg icon !! style = Some d ->
     (forall x, In x (numbers_of d) -> isNaN x = false) ->
     parseSvgFile file = None ->
     let '(w, h) := deriveDimensions (Some d) in
     let record b :=
       {| name := basename svgFile ".svg"; style := style;
          body := b; width := w; height := h;
          viewBox := formatViewBox d (Some w) (Some h);
          unicode := Some (icon_unicode icon); searchTerms := terms_of icon |} in
     reconcile metadata style svgFile file = option_map record (synthesized d)
     /\ match synthesized d with
        | Some b =>
            exists db others,
              step metadata style (after writes, Resolved) (svgFile, file) = (db, Resolved)
              /\ insertIcon (after writes) (record b) = Some db
              /\ getIconsByStyle db style = Some (others ++ [as_stored (record b)])%list
        | None =>
            step metadata style (after writes, Resolved) (svgFile, file)
            = (after writes, Resolved)
        end)
  /\ (forall (kit : Kit) (style iconName : string) (db : Database) (c : Completion),
        (forall entries files file content,
           svgsDir kit = Some entries -> In (style, Directory files) entries ->
           In (file, content) files -> endsWith file ".svg" = true ->
           basename file ".svg" <> iconName) ->
        parseKit initDatabase kit = (db, c) ->
        exists records,
          getIconsByStyle db style = Some records
          /\ ~ In iconName (List.map name records)).
Proof.
  split.
  - intros metadata style svgFile file icon d writes Hm Hd Hn Hp.
    destruct (deriveDimensions (Some d)) as [w h] eqn:D. cbn zeta.
    set (record := fun b =>
           {| name := basename svgFile ".svg"; style := style;
              body := b; width := w; height := h;
              viewBox := formatViewBox d (Some w) (Some h);
              unicode := Some (icon_unicode icon); searchTerms := terms_of icon |}).
    assert (R : reconcile metadata style svgFile file = option_map record (synthesized d)).
    { unfold reconcile. rewrite (get_own _ _ _ Hm). unfold assemble, svgData_of.
      rewrite (get_own _ _ _ Hd), Hp, D. cbn [option_map absent nullish].
      rewrite buildSvgBody_synthesized.
      destruct (synthesized d) as [b|] eqn:S; [|reflexivity].
      rewrite (synthesized_nonempty _ _ S). reflexivity. }
    split; [exact R|]. unfold step. cbn [fst snd]. rewrite R.
    destruct (synthesized d) as [b|]; [|reflexivity]. cbn [option_map].
    assert (A : accepted (record b) = true).
    { destruct (deriveDimensions_numbers (Some d)) as [Hw Hh].
      - intros d' x [= <-]. apply Hn.
      - rewrite D in Hw, Hh. cbn [fst snd] in Hw, Hh. unfold accepted, record.
        cbn [width height]. now rewrite Hw, Hh. }
    destruct (insertIcon_listed writes (record b) A) as (db & others & I & L).
    exists db, others. rewrite I. auto.
  - intros kit style iconName db c N P.
    destruct (listed_has_entry kit db c style P) as (records & L & H).
    exists records. split; [exact L|]. intros I.
    apply in_map_iff in I. destruct I as (d & E & I).
    destruct (H d I) as (entries & files & file & content & Es & He & Hf & Hs & Hn).
    apply (N entries files file content Es He Hf Hs). congruence.
Qed.

Lemma reconcile_descriptor_fallback_witness :
  let record :=
    {| name := "sample"; style := "solid";
       body := path_element "M0 0h10v10H0z" ++ newline ++ path_element "M1 1h2v2H1z";
       width := of_Z 512; height := of_Z 512; viewBox := "0 0 512 512";
       unicode := Some "f101"; searchTerms := ["sample"] |} in
  (reconcile (sample_metadata two_paths) "solid" "sample.svg" None = Some record
   /\ exists db others,
        step (sample_metadata two_paths) "solid" (after [anchor], Resolved) ("sample.svg", None)
        = (db, Resolved)
        /\ insertIcon (after [anchor]) record = Some db
        /\ getIconsByStyle db "solid" = Some (others ++ [record])%list)
  /\ exists records,
       getIconsByStyle (fst (parseKit initDatabase kit_without_file)) "solid" = Some records
       /\ ~ In "sample" (List.map name records).
Proof.
  split.
  - apply (proj1 reconcile_descriptor_fallback (sample_metadata two_paths) "solid"
             "sample.svg" None (sample_icon two_paths) two_paths [anchor]
             eq_refl eq_refl); [|reflexivity].
    intros x X. vm_compute in X. destruct X.
  - apply (proj2 reconcile_descriptor_fallback kit_without_file "solid" "sample"
             (fst (parseKit initDatabase kit_without_file))
             (snd (parseKit initDatabase kit_without_file))).
    + intros entries files file content [= <-] [[= <-]|[]] [].
    + now destruct (parseKit initDatabase kit_without_file).
Defined.

(** C2, as stated, fails.  These descriptors have raw SVG text that is
    not empty, or a path list that is not empty, and no usable file,
    yet no record is produced; and this kit has an icon whose
    descriptor yields a body and no file for it in the directory of its
    style, and the pass gives it no record. *)
Lemma descriptor_without_markup_gives_no_record :
  (svg_raw empty_raw = Some "<svg></svg>"
   /\ svg_path blank_paths = Some (PathList [" "])
   /\ parseSvgFile (Some truncated_file) = None
   /\ getIconsByStyle
        (fst (parseKit initDatabase (sample_kit empty_raw (Some truncated_file)))) "solid"
      = Some []
   /\ getIconsByStyle
        (fst (parseKit initDatabase (sample_kit blank_paths (Some truncated_file)))) "solid"
      = Some [])
  /\ (metadata_of kit_without_file !! "sample" = Some (sample_icon two_paths)
      /\ icon_svg (sample_icon two_paths) !! "solid" = Some two_paths
      /\ svg_path two_paths = Some (PathList ["M0 0h10v10H0z"; "M1 1h2v2H1z"])
      /\ synthesized two_paths
         = Some (path_element "M0 0h10v10H0z" ++ newline ++ path_element "M1 1h2v2H1z")
      /\ parseKit initDatabase kit_without_file = (initDatabase, Resolved)
      /\ getIconsByStyle initDatabase "solid" = Some []).
Proof. vm_compute. repeat split. Qed.

(** C6, evaluated at a file named after a member of [Object.prototype]:
    the metadata has no entry [constructor], yet [metadata[iconName]]
    finds the inherited member, the pair is not skipped, and the pass
    stores a record for it, without unicode and without search term. *)
Lemma parseKit_stores_inherited_name :
  metadata_of kit_with_constructor !! "constructor" = None
  /\ reconcile (metadata_of kit_with_constructor) "solid" "constructor.svg" (Some rect_48_64)
     = Some {| name := "constructor"; style := "solid";
               body := dq "<rect width='48' height='64' fill='currentColor'/>";
               width := of_Z 48; height := of_Z 64; viewBox := "0 0 48 64";
               unicode := None; searchTerms := [] |}
  /\ snd (parseKit initDatabase kit_with_constructor) = Resolved
  /\ getIconsByStyle (fst (parseKit initDatabase kit_with_constructor)) "solid"
     = Some [ {| name := "constructor"; style := "solid";
                 body := dq "<rect width='48' height='64' fill='currentColor'/>";
                 width := of_Z 48; height := of_Z 64; viewBox := "0 0 48 64";
                 unicode := None; searchTerms := [] |} ].
Proof. vm_compute. repeat split. Qed.

End KitFacts.
(** ** The export step *)

Module PackageFacts.
Import JsString JsNumber Types DatabaseService PackageGenerator Reference Notions.
Import Fixtures Samples DatabaseFacts.

Section Loop.
Variable db : Database.
Variable config : KitConfig.

Lemma exportStep_count (acc : gmap string StyleIconSet * nat) (style : string) :
  exportStep db config acc style
  = if Nat.eqb (count db style) 0 then acc
    else (JsObject.assign style (buildStyleSet config style (getIconsByStyle db style))
            (fst acc),
          (snd acc + count db style)%nat).
Proof. reflexivity. Qed.

End Loop.

Lemma assign_lookup {A} (key k : string) (v : A) (own : gmap string A) :
  JsObject.assign key v own !! k
  = if decide (key = k /\ k <> "__proto__") then Some v else own !! k.
Proof.
  unfold JsObject.assign. destruct (String.eqb_spec key "__proto__") as [E|E].
  - destruct (decide _) as [[<- H]|]; [contradiction | reflexivity].
  - destruct (decide _) as [[<- _]|H].
    + apply lookup_insert_eq.
    + apply lookup_insert_ne. intros <-. tauto.
Qed.

Lemma icons_proto (l : list Selected) : fold_left add_icon l ∅ !! "__proto__" = None.
Proof.
  induction l as [|x l IH] using rev_ind; [apply lookup_empty|].
  rewrite fold_left_app. cbn [fold_left]. unfold add_icon at 1.
  rewrite assign_lookup. destruct (decide _) as [[_ H]|]; [now contradiction H | exact IH].
Qed.

Lemma find_snoc {A} (f : A -> bool) (l : list A) (x : A) :
  find f (l ++ [x])
  = match find f l with Some y => Some y | None => if f x then Some x else None end.
Proof.
  induction l as [|y l IH]; cbn [app find]; [reflexivity|]. now destruct (f y).
Qed.

Lemma find_fresh (l : list Selected) (k : string) :
  ~ In k (List.map s_name l) -> find (fun i => String.eqb (s_name i) k) l = None.
Proof.
  induction l as [|x l IH]; [reflexivity|]. cbn [List.map In find]. intros H.
  destruct (String.eqb_spec (s_name x) k); [tauto | apply IH; tauto].
Qed.

Lemma NoDup_snoc_names (l : list Selected) (x : Selected) :
  NoDup (List.map s_name (l ++ [x])%list) ->
  NoDup (List.map s_name l) /\ ~ In (s_name x) (List.map s_name l).
Proof.
  rewrite List.map_app. intros N. apply NoDup_app in N. destruct N as (N & H & _).
  split; [exact N|]. intros Hin. apply (H (s_name x)); [now apply list_elem_of_In|].
  cbn. now left.
Qed.

(** The own properties of [iconifyIcons] after the inner loop. *)
Lemma icons_find (l : list Selected) (k : string) :
  NoDup (List.map s_name l) -> k <> "__proto__" ->
  fold_left add_icon l ∅ !! k
  = option_map toIconify (find (fun i => String.eqb (s_name i) k) l).
Proof.
  intros N K. induction l as [|x l IH] using rev_ind; [apply lookup_empty|].
  apply NoDup_snoc_names in N. destruct N as [N Hx].
  rewrite fold_left_app, find_snoc. cbn [fold_left]. unfold add_icon at 1.
  rewrite assign_lookup. destruct (decide _) as [[E _]|H].
  - rewrite E in Hx. rewrite (find_fresh _ _ Hx), E, String.eqb_refl. reflexivity.
  - rewrite (IH N). destruct (find _ l) as [y|]; [reflexivity|].
    destruct (String.eqb_spec (s_name x) k); [tauto | reflexivity].
Qed.

Lemma names_NoDup (rows : list Row) (st : string) :
  NoDup (List.map row_key rows) ->
  NoDup (List.map r_name (List.filter (fun r => String.eqb (r_style r) st) rows)).
Proof.
  induction rows as [|x rows IH]; [intros; constructor|]. cbn [List.map List.filter].
  intros N. apply NoDup_cons in N. destruct N as [Nx N].
  destruct (String.eqb_spec (r_style x) st) as [E|]; [|now apply IH].
  cbn [List.map]. apply NoDup_cons. split; [|now apply IH].
  intros H. apply Nx. apply list_elem_of_In. apply list_elem_of_In, in_map_iff in H.
  destruct H as (y & Hy & Hin). apply filter_In in Hin. destruct Hin as [Hin Hst].
  apply String.eqb_eq in Hst. apply in_map_iff. exists y. split; [|exact Hin].
  unfold row_key. congruence.
Qed.

Lemma selected_names_NoDup (writes : list IconData) (st : string) :
  NoDup (List.map s_name (getIconsByStyle (after writes) st)).
Proof.
  unfold getIconsByStyle. rewrite List.map_map. cbn [s_name].
  apply names_NoDup. apply after_keys_NoDup.
Qed.

Lemma selected_holds (rows : list Row) (records : list IconData) (st : string) :
  Forall2 holds rows records ->
  List.map (fun r => {| s_name := r_name r; s_body := r_body r;
                        s_width := r_width r; s_height := r_height r |})
           (List.filter (fun r => String.eqb (r_style r) st) rows)
  = List.map selected_of (List.filter (fun d => String.eqb (style d) st) records).
Proof.
  induction 1 as [|r d rows records (id & ->) _ IH]; [reflexivity|].
  cbn [List.filter row_of r_style]. destruct (String.eqb (style d) st); [|exact IH].
  cbn [List.map]. now rewrite IH.
Qed.

(** What the query of [generatePackage] reads of a store. *)
Lemma selected_after (writes : list IconData) (st : string) :
  getIconsByStyle (after writes) st
  = List.map selected_of
      (List.filter (fun d => String.eqb (style d) st) (latest (written writes))).
Proof. apply selected_holds, after_latest. Qed.

Lemma find_selected (l : list IconData) (k : string) :
  find (fun i => String.eqb (s_name i) k) (List.map selected_of l)
  = option_map selected_of (find (fun d => String.eqb (name d) k) l).
Proof.
  induction l as [|d l IH]; [reflexivity|]. cbn [List.map find selected_of s_name].
  now destruct (String.eqb (name d) k).
Qed.

(** C9, evaluated at a record named [__proto__] and at a style named
    [__proto__].  With the record in the store and its style selected,
    the set of the style has the total 1 and no icon: the assignment to
    [iconifyIcons] creates no property.  With the style [__proto__]
    selected and a record stored for it, no set is emitted, yet the
    record is counted in the total returned. *)
Lemma generatePackage_proto_not_emitted :
  (DatabaseService.getIconsByStyle (after [proto_named]) "solid" = Some [proto_named]
   /\ fst (generatePackage (after [proto_named]) (sample_config ["solid"])) !! "solid"
      = Some (buildStyleSet (sample_config ["solid"]) "solid" [selected_of proto_named])
   /\ info_total
        (set_info (buildStyleSet (sample_config ["solid"]) "solid" [selected_of proto_named]))
      = 1%nat
   /\ set_icons (buildStyleSet (sample_config ["solid"]) "solid" [selected_of proto_named])
      = ∅
   /\ snd (generatePackage (after [proto_named]) (sample_config ["solid"])) = 1%nat)
  /\ (DatabaseService.getIconsByStyle (after [proto_styled]) "__proto__" = Some [proto_styled]
      /\ fst (generatePackage (after [proto_styled]) (sample_config ["__proto__"])) = ∅
      /\ snd (generatePackage (after [proto_styled]) (sample_config ["__proto__"])) = 1%nat).
Proof. vm_compute. repeat split. Qed.

End PackageFacts.

(** ** The export, for any store and any selection *)

Module ExportFacts.
Import JsString JsNumber Types DatabaseService PackageGenerator Reference Notions Fixtures.
Import DatabaseFacts PackageFacts StoreFacts.

Section Sets.
Variable db : Database.
Variable config : KitConfig.

Lemma export_lookup (done : list string) (style : string) :
  fst (fold_left (exportStep db config) done (∅, 0%nat)) !! style
  = if decide (style <> "__proto__" /\ style ∈ done /\ count db style <> 0%nat)
    then Some (buildStyleSet config style (getIconsByStyle db style))
    else None.
Proof.
  revert style. induction done as [|s done IH] using rev_ind; intros style.
  - cbn. rewrite lookup_empty. destruct (decide _) as [(_ & H & _)|]; [|reflexivity].
    now apply elem_of_nil in H.
  - rewrite fold_left_app. cbn [fold_left]. rewrite exportStep_count.
    set (out := fold_left (exportStep db config) done (∅, 0%nat)) in *.
    assert (D : forall P Q (dP : Decision P) (dQ : Decision Q) (x y : option StyleIconSet),
              (P <-> Q) -> (if dP then x else y) = (if dQ then x else y)).
    { intros P Q [p|np] [q|nq] x y H; tauto. }
    destruct (Nat.eqb_spec (count db s) 0) as [Z|NZ].
    + rewrite IH. apply D. rewrite elem_of_app, list_elem_of_singleton. split; [tauto|].
      intros (K & [H| ->] & Hc); tauto.
    + cbn [fst]. rewrite assign_lookup. destruct (decide (s = style /\ _)) as [[<- K]|Hne].
      * destruct (decide _) as [_|Hn]; [reflexivity|].
        exfalso. apply Hn. split; [exact K|]. split; [|exact NZ]. apply elem_of_app. right.
        now apply list_elem_of_singleton.
      * rewrite IH. apply D.
        rewrite elem_of_app, list_elem_of_singleton. split; [tauto|].
        intros (K & [H|E] & Hc); [tauto|]. exfalso. apply Hne. split; congruence.
Qed.

Lemma export_total (done : list string) :
  snd (fold_left (exportStep db config) done (∅, 0%nat))
  = list_sum (List.map (count db) done).
Proof.
  induction done as [|s done IH] using rev_ind; [reflexivity|].
  rewrite fold_left_app. cbn [fold_left]. rewrite exportStep_count.
  rewrite List.map_app, list_sum_app. cbn [List.map]. rewrite <- IH.
  change (list_sum [count db s]) with (count db s + 0)%nat.
  destruct (Nat.eqb_spec (count db s) 0) as [Z|NZ]; [rewrite Z; lia | cbn [snd]; lia].
Qed.

Lemma count_rows (style : string) :
  count db style
  = List.length (List.filter (fun r => String.eqb (r_style r) style) (icons db)).
Proof. unfold count, getIconsByStyle. apply length_map. Qed.

(** A style has records to export exactly when it is listed as
    available. *)
Lemma count_available (style : string) :
  count db style <> 0%nat <-> In style (getAvailableStyles db).
Proof.
  rewrite getAvailableStyles_In, count_rows, in_map_iff. split.
  - destruct (List.filter _ (icons db)) as [|r l] eqn:E; [intros H; now contradiction H|].
    intros _.
    assert (H : In r (List.filter (fun r => String.eqb (r_style r) style) (icons db)))
      by (rewrite E; now left).
    apply filter_In in H. destruct H as [H S]. apply String.eqb_eq in S. eauto.
  - intros (r & S & H).
    assert (H' : In r (List.filter (fun r => String.eqb (r_style r) style) (icons db))).
    { apply filter_In. split; [exact H|]. rewrite S. apply String.eqb_refl. }
    destruct (List.filter _ (icons db)); [destruct H' | discriminate].
Qed.

Lemma filter_or_length {A} (p q : A -> bool) (l : list A) :
  (forall x, p x = true -> q x = false) ->
  (List.length (List.filter p l) + List.length (List.filter q l))%nat
  = List.length (List.filter (fun x => p x || q x) l).
Proof.
  intros H. induction l as [|x l IH]; [reflexivity|]. cbn [List.filter].
  destruct (p x) eqn:P.
  - rewrite (H x P). cbn [orb length]. lia.
  - cbn [orb]. destruct (q x); cbn [length]; lia.
Qed.

(** The counts of distinct styles add up to the number of rows of
    those styles. *)
Lemma counts_filter (styles : list string) :
  NoDup styles ->
  list_sum (List.map (count db) styles)
  = List.length (List.filter (fun r => existsb (String.eqb (r_style r)) styles) (icons db)).
Proof.
  induction styles as [|s styles IH]; intros N.
  - cbn. now rewrite filter_false.
  - apply NoDup_cons in N. destruct N as [Ns N].
    change (list_sum (List.map (count db) (s :: styles)))
      with (count db s + list_sum (List.map (count db) styles))%nat.
    cbn [existsb]. rewrite (IH N), count_rows. apply filter_or_length.
    intros r E. apply String.eqb_eq in E. subst s.
    destruct (existsb (String.eqb (r_style r)) styles) eqn:X; [|reflexivity].
    exfalso. apply Ns. apply existsb_exists in X. destruct X as (y & Hy & E).
    apply String.eqb_eq in E. subst y. now apply list_elem_of_In.
Qed.

End Sets.

Lemma columns_agree (db : Database) (style : string) (records : list IconData) :
  DatabaseService.getIconsByStyle db style = Some records ->
  getIconsByStyle db style = List.map selected_of records.
Proof.
  unfold DatabaseService.getIconsByStyle, getIconsByStyle.
  generalize (List.filter (fun r => String.eqb (r_style r) style) (icons db)).
  intros rows. revert records.
  induction rows as [|r rows IH]; intros records; cbn [mapM List.map].
  - now intros [= <-].
  - destruct (to_icon style r) as [x|] eqn:T; [|discriminate]. cbn.
    destruct (mapM (to_icon style) rows) as [l|]; [|discriminate]. cbn.
    intros [= <-]. cbn [List.map]. rewrite (IH l eq_refl). f_equal.
    unfold to_icon in T. destruct (parse_terms (r_searchTerms r)); [|discriminate].
    cbn in T. injection T as <-. reflexivity.
Qed.

(** X16.  Whatever was written to the store and whatever is selected,
    [generatePackage] emits a set for a style exactly when the style is
    selected, [getAvailableStyles] lists it and it is not [__proto__],
    for which the assignment to [styleSets] creates no property; so
    when the selection is made among the available styles, as the
    converter offers it, every selected style but [__proto__] is
    emitted.  The prefix of an emitted set is the base prefix, a hyphen
    and the style; its total is the number of records stored for the
    style; its icons are the stored records of the style but the one
    named [__proto__], each under its name with its body, width and
    height, with left, top and rotate 0 and no flip. *)
Theorem generatePackage_emits_available (writes : list IconData) (config : KitConfig)
    (style : string) :
  let db := after writes in
  let stored :=
    List.filter (fun d => String.eqb (Types.style d) style) (latest (written writes)) in
  (fst (generatePackage db config) !! style <> None
   <-> style <> "__proto__" /\ In style (cfg_selectedStyles config)
       /\ In style (getAvailableStyles db))
  /\ forall set,
       fst (generatePackage db config) !! style = Some set ->
       set_prefix set = cfg_prefix config ++ "-" ++ style
       /\ info_total (set_info set) = List.length stored
       /\ forall iconName,
            set_icons set !! iconName
            = if String.eqb iconName "__proto__" then None
              else option_map
                     (fun d => {| i_body := body d; i_width := width d; i_height := height d;
                                  i_left := of_Z 0; i_top := of_Z 0; i_rotate := of_Z 0;
                                  i_vFlip := false; i_hFlip := false |})
                     (find (fun d => String.eqb (name d) iconName) stored).
Proof.
  intros db stored. unfold generatePackage. rewrite export_lookup.
  rewrite <- (count_available db style), <- list_elem_of_In. split.
  - destruct (decide _) as [H|H]; split; try tauto. discriminate.
  - intros set. destruct (decide _) as [_|_]; [|discriminate]. intros [= <-].
    unfold db. rewrite selected_after. fold stored.
    cbn [buildStyleSet set_prefix set_info info_total set_icons].
    split; [reflexivity|]. split; [apply length_map|]. intros iconName.
    destruct (String.eqb_spec iconName "__proto__") as [->|K].
    + apply (icons_proto (List.map selected_of stored)).
    + change (fold_left _ (List.map selected_of stored) ∅)
        with (fold_left add_icon (List.map selected_of stored) ∅).
      rewrite (icons_find _ _); [| |exact K].
      * rewrite find_selected. now destruct (find _ stored).
      * unfold stored. rewrite <- selected_after. apply selected_names_NoDup.
Qed.

Lemma generatePackage_emits_available_witness :
  let out := fst (generatePackage (after [bolt; user; anchor])
                    (sample_config ["solid"; "brands"])) in
  out !! "brands" = None
  /\ exists set,
       out !! "solid" = Some set
       /\ set_prefix set = "fa-pro-solid"
       /\ info_total (set_info set) = 2%nat
       /\ set_icons set !! "anchor"
          = Some {| i_body := body anchor; i_width := of_Z 448; i_height := of_Z 512;
                    i_left := of_Z 0; i_top := of_Z 0; i_rotate := of_Z 0;
                    i_vFlip := false; i_hFlip := false |}
       /\ set_icons set !! "user" = None.
Proof.
  cbn zeta. split.
  - destruct (fst (generatePackage (after [bolt; user; anchor])
                     (sample_config ["solid"; "brands"])) !! "brands") as [set|] eqn:E;
      [|reflexivity].
    exfalso.
    assert (H : fst (generatePackage (after [bolt; user; anchor])
                       (sample_config ["solid"; "brands"])) !! "brands" <> None)
      by (rewrite E; discriminate).
    apply (proj1 (generatePackage_emits_available [bolt; user; anchor]
                    (sample_config ["solid"; "brands"]) "brands")) in H.
    destruct H as (_ & _ & H). vm_compute in H. intuition discriminate.
  - destruct (fst (generatePackage (after [bolt; user; anchor])
                     (sample_config ["solid"; "brands"])) !! "solid") as [set|] eqn:E.
    + exists set. split; [reflexivity|].
      destruct (proj2 (generatePackage_emits_available [bolt; user; anchor]
                         (sample_config ["solid"; "brands"]) "solid") set E)
        as (P & T & I).
      split; [exact P|]. split; [exact T|]. split; [apply (I "anchor") | apply (I "user")].
    + exfalso. revert E.
      apply (proj1 (generatePackage_emits_available [bolt; user; anchor]
                      (sample_config ["solid"; "brands"]) "solid")).
      split; [discriminate|]. split; vm_compute; auto.
Defined.

(** X17.  The total [generatePackage] returns is the sum, over the
    selection as it is given, of the numbers of records of the styles:
    a style selected twice is counted twice. *)
Theorem generatePackage_total (db : Database) (config : KitConfig) :
  snd (generatePackage db config)
  = list_sum (List.map (fun style => List.length (getIconsByStyle db style))
                (cfg_selectedStyles config)).
Proof. unfold generatePackage. apply export_total. Qed.

(** X18.  When no style is selected twice, the total [generatePackage]
    returns is at most the number of rows of the store, and it is that
    number when every available style is selected. *)
Theorem generatePackage_total_bound (db : Database) (config : KitConfig) :
  NoDup (cfg_selectedStyles config) ->
  (snd (generatePackage db config) <= List.length (icons db))%nat
  /\ ((forall style, In style (getAvailableStyles db) -> In style (cfg_selectedStyles config)) ->
      snd (generatePackage db config) = List.length (icons db)).
Proof.
  intros N. unfold generatePackage. rewrite export_total, (counts_filter db _ N). split.
  - apply filter_length_le.
  - intros H. f_equal. rewrite (filter_agree _ (fun _ => true)); [apply filter_all|].
    intros r Hr. apply existsb_exists. exists (r_style r). split; [|apply String.eqb_refl].
    apply H, getAvailableStyles_In, in_map. exact Hr.
Qed.

Lemma generatePackage_total_bound_witness :
  let db := after [bolt; user; anchor] in
  let config := sample_config ["solid"; "brands"] in
  (snd (generatePackage db config) <= List.length (icons db))%nat
  /\ ((forall style, In style (getAvailableStyles db) -> In style (cfg_selectedStyles config)) ->
      snd (generatePackage db config) = List.length (icons db)).
Proof.
  apply (generatePackage_total_bound (after [bolt; user; anchor])
           (sample_config ["solid"; "brands"])).
  apply (bool_decide_unpack _). vm_compute. exact I.
Defined.

(** X19.  The query of [generatePackage] and [getIconsByStyle] of the
    store read the same rows in the same order: when the latter returns
    a list of records, the former returns the name, body, width and
    height of each record of that list. *)
Theorem getIconsByStyle_columns_agree (db : Database) (style : string)
    (records : list IconData) :
  DatabaseService.getIconsByStyle db style = Some records ->
  getIconsByStyle db style = List.map selected_of records.
Proof. apply columns_agree. Qed.

Lemma getIconsByStyle_columns_agree_witness :
  getIconsByStyle (after [bell; user]) "solid" = List.map selected_of [bell].
Proof.
  apply (getIconsByStyle_columns_agree (after [bell; user]) "solid" [bell]).
  vm_compute. reflexivity.
Defined.

End ExportFacts.
(** ** Patterns and the words they accept *)

Module PatternFacts.
Import JsString Pattern Grammar StringFacts.

Lemma nullable_lang (r : Pattern.t) : nullable r = true <-> lang r "".
Proof.
  induction r as [| |set|a IHa b IHb|a IHa b IHb|a IH]; cbn [nullable lang].
  - split; [discriminate | tauto].
  - tauto.
  - split; [discriminate|]. intros (c & H & _). discriminate.
  - rewrite andb_true_iff, IHa, IHb. split.
    + intros [Ha Hb]. exists "", "". auto.
    + intros (s1 & s2 & H & Ha & Hb). destruct s1; [|discriminate].
      cbn in H. subst s2. auto.
  - rewrite orb_true_iff, IHa, IHb. tauto.
  - split; [|reflexivity]. intros _. exists []. split; [reflexivity | constructor].
Qed.

Lemma derive_lang (r : Pattern.t) (c : ascii) (s : string) :
  lang (derive c r) s <-> lang r (String c s).
Proof.
  revert s. induction r as [| |set|a IHa b IHb|a IHa b IHb|a IH]; intros s; cbn [derive lang].
  - tauto.
  - split; [tauto | discriminate].
  - destruct (set c) eqn:E; cbn [lang].
    + split; [intros ->; eauto|]. intros (x & [= <- ->] & _). reflexivity.
    + split; [tauto|]. intros (x & [= <- ->] & H). congruence.
  - assert (S : lang (Seq (derive c a) b) s
                <-> exists s1 s2, s = s1 ++ s2 /\ lang a (String c s1) /\ lang b s2).
    { cbn [lang]. split; intros (s1 & s2 & H & Ha & Hb); exists s1, s2;
        (split; [exact H|]); (split; [now apply IHa | exact Hb]). }
    assert (T : (exists s1 s2, String c s = s1 ++ s2 /\ lang a s1 /\ lang b s2)
                <-> (exists s1 s2, s = s1 ++ s2 /\ lang a (String c s1) /\ lang b s2)
                    \/ (lang a "" /\ lang b (String c s))).
    { split.
      - intros (s1 & s2 & H & Ha & Hb). destruct s1 as [|x s1].
        + cbn in H. subst s2. right. auto.
        + cbn in H. injection H as <- ->. left. eauto.
      - intros [(s1 & s2 & -> & Ha & Hb)|[Ha Hb]].
        + exists (String c s1), s2. auto.
        + exists "", (String c s). auto. }
    rewrite T. destruct (nullable a) eqn:N.
    + change (lang (Alt (Seq (derive c a) b) (derive c b)) s)
        with (lang (Seq (derive c a) b) s \/ lang (derive c b) s).
      rewrite S, IHb. apply nullable_lang in N. tauto.
    + rewrite S. split; [tauto|]. intros [H|[Ha _]]; [exact H|].
      apply nullable_lang in Ha. congruence.
  - rewrite IHa, IHb. tauto.
  - split.
    + intros (s1 & s2 & -> & Ha & (l & -> & Hl)). apply IH in Ha.
      exists (String c s1 :: l). split; [reflexivity|].
      constructor; [split; [discriminate | exact Ha] | exact Hl].
    + intros (l & H & Hl). destruct Hl as [|x l [Hx Ha] Hl]; [discriminate|].
      destruct x as [|y x]; [contradiction|]. cbn in H. injection H as <- ->.
      exists x, (flatten l). split; [reflexivity|]. split; [now apply IH|].
      exists l. auto.
Qed.

(** The test decides the language of the pattern. *)
Lemma test_lang (r : Pattern.t) (s : string) : test r s = true <-> lang r s.
Proof.
  revert r. induction s as [|c s IH]; intros r; cbn [test].
  - apply nullable_lang.
  - rewrite IH. apply derive_lang.
Qed.

Lemma star_class (set : ascii -> bool) (s : string) :
  lang (Star (Class set)) s <-> all set s = true.
Proof.
  cbn [lang]. split.
  - intros (l & -> & Hl). induction Hl as [|x l [_ (c & -> & Hc)] Hl IH]; [reflexivity|].
    cbn. now rewrite Hc, IH.
  - induction s as [|c s IH]; intros H.
    + exists []. split; [reflexivity | constructor].
    + cbn in H. apply andb_prop in H. destruct H as [Hc H].
      destruct (IH H) as (l & -> & Hl). exists (String c "" :: l). split; [reflexivity|].
      constructor; [|exact Hl]. split; [discriminate | eauto].
Qed.

Lemma chr_lang (c : ascii) (s : string) : lang (Chr c) s <-> s = String c "".
Proof.
  cbn [Chr lang]. split.
  - intros (x & -> & E). apply Ascii.eqb_eq in E. now subst.
  - intros ->. exists c. split; [reflexivity | apply Ascii.eqb_refl].
Qed.

Lemma headed_lang (head tail : ascii -> bool) (s : string) :
  lang (Seq (Class head) (Star (Class tail))) s <-> headed_by head tail s = true.
Proof.
  change (lang (Seq (Class head) (Star (Class tail))) s)
    with (exists s1 s2, s = s1 ++ s2 /\ lang (Class head) s1 /\ lang (Star (Class tail)) s2).
  split.
  - intros (s1 & s2 & -> & (c & -> & Hc) & Ht). apply star_class in Ht.
    cbn. now rewrite Hc, Ht.
  - destruct s as [|c s]; [discriminate|]. cbn [headed_by]. intros H.
    apply andb_prop in H. destruct H as [Hc Ht].
    exists (String c ""), s. split; [reflexivity|]. split; [cbn; eauto | now apply star_class].
Qed.

Lemma all_app (p : ascii -> bool) (a b : string) : all p (a ++ b) = all p a && all p b.
Proof.
  induction a as [|c a IH]; [reflexivity|]. cbn. rewrite IH. now rewrite andb_assoc.
Qed.

Lemma all_weaken (p q : ascii -> bool) (s : string) :
  (forall c, p c = true -> q c = true) -> all p s = true -> all q s = true.
Proof.
  intros H. induction s as [|c s IH]; [reflexivity|]. cbn.
  intros E. apply andb_prop in E. destruct E as [Hc Hs]. now rewrite (H c Hc), IH.
Qed.

End PatternFacts.

(** ** The validators of the package name and of the version *)

Module ValidationFacts.
Import JsString Pattern PackageValidation Grammar StringFacts PatternFacts.

Lemma scope_lang (s : string) :
  lang (Seq (Chr "@") (Seq (Class scope_head) (Seq (Star (Class scope_tail)) (Chr "/")))) s
  <-> exists scope, s = "@" ++ scope ++ "/" /\ headed_by scope_head scope_tail scope = true.
Proof.
  split.
  - intros (s1 & s2 & -> & H1 & (s3 & s4 & -> & (c & -> & Hc) & (s5 & s6 & -> & H5 & H6))).
    apply chr_lang in H1, H6. subst s1 s6. apply star_class in H5.
    exists (String c s5). split; [reflexivity|]. cbn. now rewrite Hc, H5.
  - intros (scope & -> & H). destruct scope as [|c scope]; [discriminate|].
    cbn in H. apply andb_prop in H. destruct H as [Hc Ht].
    exists "@", (String c scope ++ "/"). split; [reflexivity|].
    split; [now apply chr_lang|].
    exists (String c ""), (scope ++ "/"). split; [reflexivity|]. split; [cbn; eauto|].
    exists scope, "/". split; [reflexivity|]. split; [now apply star_class | now apply chr_lang].
Qed.

Lemma npmNameRegex_lang (name : string) : lang npmNameRegex name <-> package_name name.
Proof.
  unfold npmNameRegex, package_name.
  change (lang (Seq (Opt ?a) ?b) name)
    with (exists s1 s2, name = s1 ++ s2 /\ (lang a s1 \/ s1 = "") /\ lang b s2).
  split.
  - intros (s1 & s2 & -> & [H1| ->] & H2); apply headed_lang in H2.
    + apply scope_lang in H1. destruct H1 as (scope & -> & Hs). right.
      exists scope, s2. split; [|auto]. cbn. f_equal. now rewrite append_assoc.
    + now left.
  - intros [H|(scope & base & -> & Hs & Hb)].
    + exists "", name. split; [reflexivity|]. split; [now right | now apply headed_lang].
    + exists ("@" ++ scope ++ "/"), base. split; [cbn; f_equal; now rewrite append_assoc|].
      split; [left; apply scope_lang; eauto | now apply headed_lang].
Qed.

Lemma isValidPackageName_iff (name : string) :
  isValidPackageName name = true
  <-> package_name name /\ (String.length name <= 214)%nat.
Proof.
  unfold isValidPackageName.
  rewrite andb_true_iff, test_lang, npmNameRegex_lang, Nat.leb_le. reflexivity.
Qed.

(** X20.  [isValidPackageName] accepts exactly the names of at most 214
    characters that are a base name, or an at-sign, a scope, a slash
    and a base name, where scope and base name are not empty, start
    with a character of their first class and go on with characters of
    their second class. *)
Theorem isValidPackageName_grammar (name : string) :
  isValidPackageName name = true
  <-> package_name name /\ (String.length name <= 214)%nat.
Proof. apply isValidPackageName_iff. Qed.

Lemma headed_chars (head tail : ascii -> bool) (p : ascii -> bool) (s : string) :
  (forall c, head c = true -> p c = true) -> (forall c, tail c = true -> p c = true) ->
  headed_by head tail s = true -> s <> "" /\ all p s = true.
Proof.
  intros Hh Ht. destruct s as [|c s]; [discriminate|]. cbn. intros H.
  apply andb_prop in H. destruct H as [Hc Hs]. split; [discriminate|].
  rewrite (Hh c Hc). now apply (all_weaken tail p).
Qed.

Lemma class_chars (c : ascii) :
  (scope_head c = true -> package_char c = true)
  /\ (scope_tail c = true -> package_char c = true)
  /\ (name_head c = true -> package_char c = true)
  /\ (name_tail c = true -> package_char c = true)
  /\ (package_char c = true -> is_upper c = false /\ is_white c = false).
Proof.
  destruct c as [[] [] [] [] [] [] [] []]; vm_compute; repeat split; congruence.
Qed.

(** X21.  A name [isValidPackageName] accepts is not empty, has at most
    214 characters, and is made of lower-case letters, digits and the
    characters - * . _ ~ @ / only: it holds no upper-case letter and no
    white space. *)
Theorem isValidPackageName_characters (name : string) :
  isValidPackageName name = true ->
  name <> "" /\ (String.length name <= 214)%nat
  /\ all package_char name = true
  /\ all (fun c => negb (is_upper c) && negb (is_white c)) name = true.
Proof.
  intros H. apply isValidPackageName_iff in H. destruct H as [G L].
  assert (A : name <> "" /\ all package_char name = true).
  { destruct G as [H|(scope & base & -> & Hs & Hb)].
    - apply (headed_chars name_head name_tail); [apply class_chars.. | exact H].
    - split; [discriminate|].
      apply (headed_chars scope_head scope_tail package_char) in Hs; [|apply class_chars..].
      apply (headed_chars name_head name_tail package_char) in Hb; [|apply class_chars..].
      change ("@" ++ scope ++ "/" ++ base) with (String "@" (scope ++ String "/" base)).
      cbn [all]. rewrite all_app. cbn [all].
      destruct Hs as [_ ->], Hb as [_ ->]. reflexivity. }
  destruct A as [N A]. repeat split; try assumption.
  apply (all_weaken package_char); [|exact A].
  intros c Hc. destruct (class_chars c) as (_ & _ & _ & _ & H).
  destruct (H Hc) as [-> ->]. reflexivity.
Qed.

Lemma isValidPackageName_characters_witness :
  "@icons/fa-pro" <> ""
  /\ (String.length "@icons/fa-pro" <= 214)%nat
  /\ all package_char "@icons/fa-pro" = true
  /\ all (fun c => negb (is_upper c) && negb (is_white c)) "@icons/fa-pro" = true.
Proof. apply (isValidPackageName_characters "@icons/fa-pro"). vm_compute. reflexivity. Defined.

(** *** Versions *)

Lemma digit_range (c : ascii) : range "0" "9" c = is_digit c.
Proof. reflexivity. Qed.

Lemma numeral_lang (s : string) : lang numeric_identifier s <-> numeral s = true.
Proof.
  unfold numeric_identifier, digit.
  change (lang (Alt ?a ?b) s) with (lang a s \/ lang b s).
  rewrite chr_lang, headed_lang. destruct s as [|c s]; cbn [numeral headed_by].
  - split; [intros [H|H]; discriminate | discriminate].
  - destruct (Ascii.eqb_spec c "0") as [->|Hc].
    + split.
      * intros [[= ->]|H]; [reflexivity | discriminate].
      * destruct s; [now left | discriminate].
    + split.
      * intros [[= -> ->]|H]; [contradiction|].
        apply andb_prop in H. destruct H as [H1 H2]. apply andb_true_intro. split.
        -- clear - H1. revert H1. destruct c as [[] [] [] [] [] [] [] []]; vm_compute; congruence.
        -- exact H2.
      * intros H. right. apply andb_prop in H. destruct H as [H1 H2].
        apply andb_true_intro. split; [|exact H2].
        clear - H1 Hc. revert H1 Hc.
        destruct c as [[] [] [] [] [] [] [] []]; vm_compute; congruence.
Qed.

Lemma first_other (p : ascii -> bool) (s : string) :
  all p s = false ->
  exists a c b, s = a ++ String c b /\ all p a = true /\ p c = false.
Proof.
  induction s as [|x s IH]; [discriminate|]. cbn [all].
  destruct (p x) eqn:E; cbn [andb].
  - intros H. destruct (IH H) as (a & c & b & -> & Ha & Hc).
    exists (String x a), c, b. cbn. now rewrite E, Ha.
  - intros _. exists "", x, s. auto.
Qed.

Lemma identifier_chars (c : ascii) :
  (letter_or_hyphen c = true <-> identifier_char c = true /\ is_digit c = false)
  /\ alnum_or_hyphen c = identifier_char c.
Proof.
  destruct c as [[] [] [] [] [] [] [] []]; vm_compute; split; try reflexivity;
    split; try congruence; intros []; congruence || auto.
Qed.

Lemma prerelease_lang (s : string) :
  lang prerelease_identifier s <-> prerelease_id s = true.
Proof.
  unfold prerelease_identifier, prerelease_id.
  transitivity
    (lang numeric_identifier s
     \/ lang (Seq (Star digit) (Seq (Class letter_or_hyphen) (Star (Class alnum_or_hyphen)))) s).
  { unfold numeric_identifier. cbn [lang]. tauto. }
  rewrite numeral_lang, orb_true_iff.
  apply or_iff_compat_l. split.
  - intros (ds & s2 & -> & Hd & (s3 & rest & -> & (c & -> & Hc) & Hr)).
    apply star_class in Hd, Hr. apply identifier_chars in Hc. destruct Hc as [Hc Hn].
    rewrite !all_app. cbn [all String.append].
    rewrite Hc, Hn, andb_false_r. cbn [negb andb]. rewrite !andb_true_r.
    rewrite (all_weaken (range "0" "9") identifier_char ds); [| |exact Hd].
    + cbn. apply (all_weaken alnum_or_hyphen); [|exact Hr].
      intros x Hx. now rewrite <- (proj2 (identifier_chars x)).
    + intros x Hx. unfold identifier_char. rewrite <- digit_range, Hx. reflexivity.
  - intros H. apply andb_prop in H. destruct H as [Ha Hn]. apply negb_true_iff in Hn.
    destruct (first_other _ _ Hn) as (ds & c & rest & -> & Hd & Hc).
    rewrite all_app in Ha. cbn [all] in Ha.
    apply andb_prop in Ha. destruct Ha as [_ Ha]. apply andb_prop in Ha. destruct Ha as [Hi Hr].
    exists ds, (String c rest). split; [reflexivity|]. split; [now apply star_class|].
    exists (String c ""), rest. split; [reflexivity|]. split.
    + exists c. split; [reflexivity|]. now apply identifier_chars.
    + apply star_class. apply (all_weaken identifier_char); [|exact Hr].
      intros x Hx. now rewrite (proj2 (identifier_chars x)).
Qed.

Lemma build_lang (s : string) : lang build_identifier s <-> build_id s = true.
Proof.
  unfold build_identifier, Plus, build_id. rewrite headed_lang.
  destruct s as [|c s]; cbn [headed_by is_empty negb all andb]; [reflexivity|].
  rewrite (proj2 (identifier_chars c)).
  split; intros H; apply andb_prop in H; destruct H as [H1 H2]; rewrite H1; cbn [andb].
  - apply (all_weaken alnum_or_hyphen); [|exact H2].
    intros x Hx. now rewrite <- (proj2 (identifier_chars x)).
  - apply (all_weaken identifier_char); [|exact H2].
    intros x Hx. now rewrite (proj2 (identifier_chars x)).
Qed.

Lemma join_dots (id : string) (ids : list string) :
  join "." (id :: ids) = id ++ flatten (List.map (fun x => "." ++ x) ids).
Proof.
  revert id. induction ids as [|y ids IH]; intros id.
  - cbn. now rewrite append_nil_r.
  - change (join "." (id :: y :: ids)) with (id ++ "." ++ join "." (y :: ids)).
    rewrite IH. cbn [List.map flatten]. now rewrite !append_assoc.
Qed.

Lemma dotted_lang (r : Pattern.t) (ok : string -> bool) (s : string) :
  (forall x, lang r x <-> ok x = true) ->
  lang (dotted r) s <-> dotted_ids ok s.
Proof.
  intros R. unfold dotted, dotted_ids.
  change (lang (Seq r (Star ?a)) s)
    with (exists s1 s2, s = s1 ++ s2 /\ lang r s1
                        /\ exists l, s2 = flatten l /\ Forall (fun x => x <> "" /\ lang a x) l).
  split.
  - intros (id & s2 & -> & Hid & (l & -> & Hl)).
    assert (E : exists ids, l = List.map (fun x => "." ++ x) ids
                            /\ Forall (fun x => ok x = true) ids).
    { induction Hl as [|x l [_ (d & y & -> & Hd & Hy)] Hl IH].
      - exists []. split; [reflexivity | constructor].
      - destruct IH as (ids & -> & Hids). apply chr_lang in Hd. subst d.
        exists (y :: ids). split; [reflexivity|]. constructor; [now apply R | exact Hids]. }
    destruct E as (ids & -> & Hids). exists id, ids. rewrite join_dots.
    split; [reflexivity|]. constructor; [now apply R | exact Hids].
  - intros (id & ids & -> & H). apply Forall_cons in H. destruct H as [Hid Hids].
    rewrite join_dots. exists id, (flatten (List.map (fun x => "." ++ x) ids)).
    split; [reflexivity|]. split; [now apply R|].
    exists (List.map (fun x => "." ++ x) ids). split; [reflexivity|].
    induction Hids as [|y ids Hy Hids IH]; [constructor|].
    cbn [List.map]. constructor; [|exact IH]. split; [discriminate|].
    exists ".", y. split; [reflexivity|]. split; [now apply chr_lang | now apply R].
Qed.

Lemma optional_lang (mark : ascii) (r : Pattern.t) (ok : string -> bool) (s : string) :
  (forall x, lang r x <-> ok x = true) ->
  lang (Opt (Seq (Chr mark) (dotted r))) s
  <-> s = "" \/ exists ids, s = String mark "" ++ ids /\ dotted_ids ok ids.
Proof.
  intros R.
  change (lang (Opt ?a) s) with (lang a s \/ s = "").
  change (lang (Seq (Chr mark) (dotted r)) s)
    with (exists s1 s2, s = s1 ++ s2 /\ lang (Chr mark) s1 /\ lang (dotted r) s2).
  split.
  - intros [(s1 & s2 & -> & H1 & H2)| ->]; [|now left].
    apply chr_lang in H1. subst s1. right. exists s2. split; [reflexivity|].
    now apply (dotted_lang r ok).
  - intros [->|(ids & -> & H)]; [now right|]. left.
    exists (String mark ""), ids. split; [reflexivity|].
    split; [now apply chr_lang | now apply (dotted_lang r ok)].
Qed.

Lemma semverRegex_lang (version : string) : lang semverRegex version <-> semver version.
Proof.
  unfold semverRegex, semver.
  change (lang (Seq ?a (Seq ?d1 (Seq ?b (Seq ?d2 (Seq ?c (Seq ?p ?m)))))) version)
    with (exists s1 r1, version = s1 ++ r1 /\ lang a s1 /\
          exists t1 r2, r1 = t1 ++ r2 /\ lang d1 t1 /\
          exists s2 r3, r2 = s2 ++ r3 /\ lang b s2 /\
          exists t2 r4, r3 = t2 ++ r4 /\ lang d2 t2 /\
          exists s3 r5, r4 = s3 ++ r5 /\ lang c s3 /\
          exists s4 s5, r5 = s4 ++ s5 /\ lang p s4 /\ lang m s5).
  split.
  - intros (major & r1 & -> & H1 & t1 & r2 & -> & D1 & minor & r3 & -> & H2
            & t2 & r4 & -> & D2 & patch & r5 & -> & H3 & pre & build & -> & Hp & Hb).
    apply chr_lang in D1, D2. subst t1 t2.
    apply numeral_lang in H1, H2, H3.
    apply (optional_lang "-" _ prerelease_id) in Hp; [|apply prerelease_lang].
    apply (optional_lang "+" _ build_id) in Hb; [|apply build_lang].
    exists major, minor, patch, pre, build. auto 10.
  - intros (major & minor & patch & pre & build & -> & H1 & H2 & H3 & Hp & Hb).
    exists major, ("." ++ minor ++ "." ++ patch ++ pre ++ build).
    split; [reflexivity|]. split; [now apply numeral_lang|].
    exists ".", (minor ++ "." ++ patch ++ pre ++ build).
    split; [reflexivity|]. split; [now apply chr_lang|].
    exists minor, ("." ++ patch ++ pre ++ build).
    split; [reflexivity|]. split; [now apply numeral_lang|].
    exists ".", (patch ++ pre ++ build).
    split; [reflexivity|]. split; [now apply chr_lang|].
    exists patch, (pre ++ build).
    split; [reflexivity|]. split; [now apply numeral_lang|].
    exists pre, build. split; [reflexivity|]. split.
    + apply (optional_lang "-" _ prerelease_id); [apply prerelease_lang | exact Hp].
    + apply (optional_lang "+" _ build_id); [apply build_lang | exact Hb].
Qed.

(** X22.  [isValidSemver] accepts exactly the versions of the form
    MAJOR.MINOR.PATCH, each a decimal numeral without leading zeros,
    optionally followed by a hyphen and dot-separated pre-release
    identifiers (numerals, or letters, digits and hyphens that are not
    all digits), and then optionally by a plus sign and dot-separated
    build identifiers (letters, digits and hyphens, not empty). *)
Theorem isValidSemver_grammar (version : string) :
  isValidSemver version = true <-> semver version.
Proof. unfold isValidSemver. rewrite test_lang. apply semverRegex_lang. Qed.

Lemma uint_digits (d : Decimal.uint) : all is_digit (NilEmpty.string_of_uint d) = true.
Proof. induction d; cbn; auto. Qed.

(** The decimal notation of a natural number is a numeral. *)
Lemma decimal_numeral (n : N) : numeral (JsNumber.decimal_of_N n) = true.
Proof.
  unfold JsNumber.decimal_of_N.
  assert (U : Decimal.unorm (N.to_uint n) = N.to_uint n).
  { rewrite <- (DecimalN.Unsigned.of_to n) at 2. symmetry. apply DecimalN.Unsigned.to_of. }
  revert U. generalize (N.to_uint n). intros d U.
  assert (H : d = Decimal.zero \/ (d = Decimal.nzhead d /\ d <> Decimal.Nil)).
  { unfold Decimal.unorm in U. destruct (Decimal.nzhead d) eqn:E; auto;
      right; (split; [now symmetry | rewrite <- U; discriminate]). }
  destruct H as [->|[H N]]; [reflexivity|].
  pose proof (DecimalFacts.nzhead_nonzero d) as Z. rewrite <- H in Z.
  destruct d; try contradiction; try (now contradiction (Z d));
    cbn; apply uint_digits.
Qed.

(** X23.  [isValidSemver] accepts every version made of three natural
    numbers in decimal notation separated by dots. *)
Theorem isValidSemver_accepts_triples (major minor patch : N) :
  isValidSemver (JsNumber.decimal_of_N major ++ "." ++ JsNumber.decimal_of_N minor ++ "."
                 ++ JsNumber.decimal_of_N patch) = true.
Proof.
  unfold isValidSemver. apply test_lang, semverRegex_lang.
  exists (JsNumber.decimal_of_N major), (JsNumber.decimal_of_N minor),
    (JsNumber.decimal_of_N patch), "", "".
  rewrite !append_nil_r. repeat split; try apply decimal_numeral; now left.
Qed.

End ValidationFacts.

(** ** The validation of the kit directory *)

Module LayoutFacts.
Import JsString KitValidationService Layout Samples.

Lemma checkDir_complaint (fs : FileSystem) (result : ValidationResult) (dir : string) :
  checkDir fs result dir
  = match complaint fs dir with
    | Some message => push_error result message
    | None => result
    end.
Proof. unfold checkDir, complaint. destruct (stat fs dir) as [[]|]; reflexivity. Qed.

Lemma checked (fs : FileSystem) (dirs : list string) (result : ValidationResult) :
  let out := fold_left (checkDir fs) dirs result in
  errors out = (errors result ++ omap (complaint fs) dirs)%list
  /\ warnings out = warnings result
  /\ isValid out = isValid result && forallb (fun dir => match complaint fs dir with None => true | Some _ => false end) dirs.
Proof.
  revert result. induction dirs as [|dir dirs IH]; intros result.
  - cbn. rewrite app_nil_r, andb_true_r. auto.
  - cbn [fold_left]. cbv zeta in *. destruct (IH (checkDir fs result dir)) as (E & W & V).
    rewrite E, W, V, checkDir_complaint. cbn [omap list_omap forallb].
    destruct (complaint fs dir) as [message|];
      cbn [push_error errors warnings isValid andb].
    + rewrite <- app_assoc, andb_false_r. auto.
    + auto.
Qed.

(** X24.  Whatever the file system answers, a result [validateKit]
    returns is valid exactly when it lists no error, and it carries at
    most one warning. *)
Theorem validateKit_valid_iff_no_errors (fs : FileSystem) (result : ValidationResult) :
  validateKit fs = Some result ->
  (isValid result = true <-> errors result = [])
  /\ (List.length (warnings result) <= 1)%nat.
Proof.
  unfold validateKit.
  destruct (checked fs requiredDirs {| isValid := true; errors := []; warnings := [] |})
    as (E & W & V).
  set (r := fold_left (checkDir fs) requiredDirs _) in *.
  cbn [errors warnings isValid app andb] in E, W, V.
  assert (R : isValid r = true <-> errors r = []).
  { rewrite E, V. unfold requiredDirs. cbn [omap list_omap forallb]. unfold complaint.
    destruct (stat fs metadata) as [[]|], (stat fs svgs) as [[]|], (stat fs fonts) as [[]|];
      cbn; split; congruence. }
  destruct (isValid r) eqn:Vr; cbn [negb].
  - destruct (readdir fs metadata) as [entries|]; [|discriminate].
    destruct (readdir fs svgs) as [svgEntries|]; [|discriminate].
    assert (Er : errors r = []) by now apply R.
    intros [= <-].
    destruct (Nat.eqb (List.length (List.filter _ (List.map fst entries))) 0),
      (Nat.eqb (List.length (List.map fst (List.filter snd svgEntries))) 0);
      cbn [push_error push_warning isValid errors warnings];
      rewrite ?Er, ?W, ?Vr; cbn [app length]; (split; [split; congruence | lia]).
  - intros [= <-]. rewrite W, Vr. split; [exact R | cbn; lia].
Qed.

Lemma validateKit_valid_iff_no_errors_witness :
  (isValid {| isValid := true; errors := []; warnings := [] |} = true
   <-> errors {| isValid := true; errors := []; warnings := [] |} = [])
  /\ (List.length (warnings {| isValid := true; errors := []; warnings := [] |}) <= 1)%nat.
Proof. apply (validateKit_valid_iff_no_errors complete_layout). vm_compute. reflexivity. Defined.

(** X25.  When one of the three required directories is missing or is
    no directory, [validateKit] returns without reading any directory:
    the result is invalid, has no warning, and lists one error for each
    such directory, in the order metadata, svgs, otfs. *)
Theorem validateKit_reports_structure (fs : FileSystem) :
  ~ well_formed fs ->
  validateKit fs
  = Some {| isValid := false; errors := omap (complaint fs) requiredDirs; warnings := [] |}
  /\ omap (complaint fs) requiredDirs <> [].
Proof.
  intros H. unfold validateKit.
  destruct (checked fs requiredDirs {| isValid := true; errors := []; warnings := [] |})
    as (E & W & V).
  set (r := fold_left (checkDir fs) requiredDirs _) in *. cbn [errors warnings isValid app andb] in E, W, V.
  assert (B : isValid r = false /\ omap (complaint fs) requiredDirs <> []).
  { rewrite V. unfold complaint, requiredDirs. cbn [omap list_omap forallb].
    destruct (stat fs metadata) as [[]|] eqn:S1; try (split; [reflexivity | discriminate]).
    destruct (stat fs svgs) as [[]|] eqn:S2; try (split; [reflexivity | discriminate]).
    destruct (stat fs fonts) as [[]|] eqn:S3; try (split; [reflexivity | discriminate]).
    exfalso. apply H. intros dir [<-|[<-|[<-|[]]]]; assumption. }
  destruct B as [B N]. rewrite B. cbn [negb]. split; [|exact N].
  f_equal. destruct r as [v e w]. cbn in *. congruence.
Qed.

Lemma validateKit_reports_structure_witness :
  validateKit layout_without_fonts
  = Some {| isValid := false; errors := omap (complaint layout_without_fonts) requiredDirs;
            warnings := [] |}
  /\ omap (complaint layout_without_fonts) requiredDirs <> [].
Proof.
  apply (validateKit_reports_structure layout_without_fonts).
  intros H. specialize (H fonts). cbn in H. discriminate H. tauto.
Defined.

(** X26.  When the three required directories are there and the
    metadata and svgs directories can be read, [validateKit] returns a
    result that is valid exactly when the metadata directory holds a
    file whose name ends in .json, and that has no warning exactly when
    the svgs directory holds a subdirectory. *)
Theorem validateKit_well_formed (fs : FileSystem)
    (entries svgEntries : list (string * bool)) :
  well_formed fs ->
  readdir fs metadata = Some entries ->
  readdir fs svgs = Some svgEntries ->
  exists result,
    validateKit fs = Some result
    /\ (isValid result = true <-> exists file, In file (List.map fst entries)
                                               /\ endsWith file ".json" = true)
    /\ (warnings result = [] <-> exists subdir, In (subdir, true) svgEntries).
Proof.
  intros H M S. unfold validateKit.
  destruct (checked fs requiredDirs {| isValid := true; errors := []; warnings := [] |})
    as (E & W & V).
  set (r := fold_left (checkDir fs) requiredDirs _) in *.
  cbn [errors warnings isValid app andb] in E, W, V.
  assert (Vr : isValid r = true).
  { rewrite V. unfold requiredDirs. cbn [forallb].
    unfold complaint. rewrite !(H _) by (cbn; tauto). reflexivity. }
  rewrite Vr, M, S. cbn [negb]. eexists. split; [reflexivity|]. split.
  - assert (Vw : forall (x : ValidationResult) (c : bool) (m : string),
               isValid (if c then push_warning x m else x) = isValid x)
      by (intros x [] m; reflexivity).
    rewrite Vw.
    destruct (List.filter _ (List.map fst entries)) as [|file files] eqn:F; cbn.
    + split; [discriminate|]. intros (file & Hf & Hj).
      assert (X : In file (List.filter (fun file => endsWith file ".json") (List.map fst entries)))
        by (apply filter_In; auto).
      rewrite F in X. destruct X.
    + assert (X : In file (List.filter (fun file => endsWith file ".json") (List.map fst entries)))
        by (rewrite F; now left).
      apply filter_In in X. split; [eauto | intros _; exact Vr].
  - assert (Ww : forall (x : ValidationResult) (c : bool) (m : string),
               warnings (if c then push_error x m else x) = warnings x)
      by (intros x [] m; reflexivity).
    destruct (List.filter snd svgEntries) as [|[d b] l] eqn:F;
      cbn [List.map length Nat.eqb push_warning warnings]; rewrite Ww, W.
    + split; [discriminate|]. intros (d & Hd).
      assert (Y : In (d, true) (List.filter snd svgEntries)) by (apply filter_In; auto).
      rewrite F in Y. destruct Y.
    + split; [|reflexivity]. intros _.
      assert (Y : In (d, b) (List.filter snd svgEntries)) by (rewrite F; now left).
      apply filter_In in Y. destruct Y as [Y Hb]. cbn in Hb. subst b. eauto.
Qed.

Lemma validateKit_well_formed_witness :
  exists result,
    validateKit complete_layout = Some result
    /\ (isValid result = true
        <-> exists file, In file (List.map fst [("icons.json", false)])
                         /\ endsWith file ".json" = true)
    /\ (warnings result = []
        <-> exists subdir, In (subdir, true) [("solid", true); ("LICENSE.txt", false)]).
Proof.
  apply (validateKit_well_formed complete_layout).
  - intros dir _. reflexivity.
  - reflexivity.
  - reflexivity.
Defined.

End LayoutFacts.

(** ** The single-file converter and the modules *)

Module MonolithFacts.
Import JsString JsNumber Types Svg Reference KitParserService Fixtures Samples.
Import StringFacts RegExpFacts NumberFacts SvgFacts.

Lemma parseSvgFile_legacy (content : string) :
  Monolith.parseSvgFile (Some content)
  = match attribute "viewBox" content, inner_markup content with
    | Some v, Some inner =>
        if is_empty (trim inner) then None
        else Some {| p_body := trim inner;
                     p_width := match attribute "width" content with
                                | Some w => Monolith.parseInt w
                                | None => of_Z 24
                                end;
                     p_height := match attribute "height" content with
                                 | Some h => Monolith.parseInt h
                                 | None => of_Z 24
                                 end;
                     p_viewBox := v |}
    | _, _ => None
    end.
Proof.
  unfold Monolith.parseSvgFile, truthy_group. rewrite exec_svg, !exec_attribute.
  destruct (attribute "viewBox" content) as [v|] eqn:A; [|reflexivity].
  rewrite (attribute_nonempty _ _ _ A).
  destruct (inner_markup content) as [inner|]; [|reflexivity].
  cbn [option_map RegExp.group1]. unfold falsy.
  destruct (is_empty (trim inner)); [reflexivity|].
  do 2 f_equal.
  - destruct (attribute "width" content) as [w|] eqn:W; [|reflexivity].
    pose proof (attribute_nonempty _ _ _ W) as F. unfold falsy in F. now rewrite F.
  - destruct (attribute "height" content) as [w|] eqn:W; [|reflexivity].
    pose proof (attribute_nonempty _ _ _ W) as F. unfold falsy in F. now rewrite F.
Qed.

Lemma parseInt_digits (ds u : string) :
  ds <> "" -> all is_digit ds = true -> unit_suffix u = true ->
  Monolith.parseInt (ds ++ u) = parseFloat (ds ++ u).
Proof.
  intros Hne Hds Hu. rewrite (parseFloat_unit_suffix ds u Hne Hds Hu).
  destruct ds as [|d ds]; [contradiction|].
  pose proof Hds as Hd. cbn in Hd. apply andb_prop in Hd. destruct Hd as [Hd _].
  destruct (digit_facts d Hd) as (W & M & P & D & I).
  unfold Monolith.parseInt, parseFloat. cbn [String.append trimStart]. rewrite W.
  unfold sign. rewrite M, P.
  assert (Pre : forall t, startsWith (String d t) "Infinity" = false).
  { intros t. cbn [startsWith]. destruct (Ascii.eqb_spec "I" d); [congruence | reflexivity]. }
  rewrite !Pre.
  change (String d (ds ++ u)) with (String d ds ++ u).
  rewrite digits_append; [|assumption|].
  2:{ destruct u as [|c u]; [exact Logic.I|]. cbn in Hu.
      destruct (is_digit c); [discriminate | reflexivity]. }
  pose proof (digits_all (String d ds) 0 0 Hds) as Ht.
  pose proof (digits_count ds (0 * 10 + (code d - 48))%N (0 + 1)) as Hc.
  cbn [digits] in *. rewrite Hd in *.
  destruct (digits _ _ ds) as [[v k] t]. subst t.
  assert ((k =? 0) = false) as -> by (apply Z.eqb_neq; lia).
  reflexivity.
Qed.

(** X27.  The [parseSvgFile] of the single-file converter and that of
    the Svg module reject the same files; on a file both accept they
    return the same body, the view box of the module is the trimmed one
    of the script, and a width or height written as decimal digits
    followed by a unit (or nothing) is read to the same number, as long
    as that number is finite. *)
Theorem parseSvgFile_versions_agree (content : string) :
  (Monolith.parseSvgFile (Some content) = None <-> parseSvgFile (Some content) = None)
  /\ forall old new,
       Monolith.parseSvgFile (Some content) = Some old ->
       parseSvgFile (Some content) = Some new ->
       p_body new = p_body old
       /\ p_viewBox new = trim (p_viewBox old)
       /\ (forall ds u,
             attribute "width" content = Some (ds ++ u) ->
             ds <> "" -> all is_digit ds = true -> unit_suffix u = true ->
             isFinite (p_width old) = true -> p_width new = p_width old)
       /\ (forall ds u,
             attribute "height" content = Some (ds ++ u) ->
             ds <> "" -> all is_digit ds = true -> unit_suffix u = true ->
             isFinite (p_height old) = true -> p_height new = p_height old).
Proof.
  rewrite parseSvgFile_legacy, parseSvgFile_normalized.
  destruct (attribute "viewBox" content) as [v|]; [|split; [tauto | discriminate]].
  destruct (inner_markup content) as [inner|]; [|split; [tauto | discriminate]].
  destruct (is_empty (trim inner)); [split; [tauto | discriminate]|].
  split; [split; discriminate|].
  intros old new [= <-] [= <-]. cbn [p_body p_viewBox p_width p_height].
  split; [reflexivity|]. split; [reflexivity|].
  unfold explicit, numeric. split; intros ds u -> Hne Hd Hu;
    rewrite (parseInt_digits ds u Hne Hd Hu); intros ->; reflexivity.
Qed.

(** X28.  Whenever the loop of the single-file [parseKit] stores a
    record for a file, [reconcile] of the modular parser stores one
    too, with the same name, style, body, unicode and search terms. *)
Theorem reconcile_extends_monolith (metadata : gmap string FontAwesomeIcon)
    (st file : string) (content : option string) (old : IconData) :
  Monolith.iconData metadata st file content = Some old ->
  exists new,
    reconcile metadata st file content = Some new
    /\ name new = name old /\ style new = style old /\ body new = body old
    /\ unicode new = unicode old /\ searchTerms new = searchTerms old.
Proof.
  unfold Monolith.iconData, reconcile.
  destruct content as [content|]; [|discriminate].
  rewrite parseSvgFile_legacy.
  destruct (attribute "viewBox" content) as [v|] eqn:A; [|discriminate].
  destruct (inner_markup content) as [inner|] eqn:I; [|discriminate].
  destruct (is_empty (trim inner)) eqn:E; [discriminate|].
  assert (P : forall icon : JsObject.property FontAwesomeIcon,
            exists new,
              assemble (basename file ".svg") st icon (Some content) = Some new
              /\ name new = basename file ".svg" /\ style new = st /\ body new = trim inner
              /\ unicode new = unicode_of icon /\ searchTerms new = searchTerms_of icon).
  { intros icon. unfold assemble. rewrite parseSvgFile_normalized, A, I, E.
    cbn [option_map absent p_body p_width p_height p_viewBox].
    unfold falsy. rewrite E.
    destruct (deriveDimensions (svgData_of icon st)) as [dw dh].
    destruct (svgData_of icon st) as [d|]; rewrite E; eexists; (split; [reflexivity|]);
      cbn; auto. }
  destruct (JsObject.get metadata (basename file ".svg")) as [icon| |]; [| |discriminate];
    intros [= <-]; cbn [name style body unicode searchTerms]; apply P.
Qed.

Lemma reconcile_extends_monolith_witness :
  exists new,
    reconcile (sample_metadata with_path_and_box) "solid" "sample.svg" (Some rect_48_64)
    = Some new
    /\ name new = name sample_record /\ style new = style sample_record
    /\ body new = body sample_record
    /\ unicode new = unicode sample_record /\ searchTerms new = searchTerms sample_record.
Proof.
  apply (reconcile_extends_monolith (sample_metadata with_path_and_box) "solid" "sample.svg"
           (Some rect_48_64) sample_record).
  vm_compute. reflexivity.
Defined.

End MonolithFacts.

(** ** The examples of the specification *)

Module Examples.
Import JsString JsNumber Types Svg DatabaseService KitParserService Reference Fixtures.
Import DatabaseFacts.

Example viewBox_gives_dimensions :
  parseSvgFile (Some viewBox_only)
  = Some {| p_body := dq "<path d='M0 0h320v512H0z'/>";
            p_width := of_Z 320; p_height := of_Z 512; p_viewBox := "0 0 320 512" |}.
Proof. vm_compute. reflexivity. Qed.

Example attributes_win :
  parseSvgFile (Some sized_128px)
  = Some {| p_body := dq "<path d='M0 0h320v512H0z'/>";
            p_width := of_Z 128; p_height := of_Z 256; p_viewBox := "0 0 320 512" |}.
Proof. vm_compute. reflexivity. Qed.

Example two_paths_joined :
  buildSvgBody two_paths
  = Some (dq "<path d='M0 0h10v10H0z' fill='currentColor' />" ++ newline
          ++ dq "<path d='M1 1h2v2H1z' fill='currentColor' />").
Proof. vm_compute. reflexivity. Qed.

Example only_solid_emitted :
  let out := PackageGenerator.generatePackage (after [bolt; user; anchor])
               (sample_config ["solid"; "brands"]) in
  snd out = 2%nat
  /\ option_map set_prefix (fst out !! "solid") = Some "fa-pro-solid"
  /\ fst out !! "brands" = None
  /\ size (fst out) = 1%nat.
Proof. vm_compute. repeat split. Qed.

Example numbers_print :
  List.map toString [of_Z 512; parseFloat "12.5"; parseFloat "1e21"; parseFloat "-0.000001"]
  = ["512"; "12.5"; "1e+21"; "-0.000001"].
Proof. vm_compute. reflexivity. Qed.

(** C3, evaluated at a text whose svg element has a viewBox and no
    width attribute, and whose child has a stroke-width: the pattern
    for the width finds the value of stroke-width, and the width is 2
    where the third component of the viewBox is 24; the height, for
    which the text has no such place, is 24. *)
Example stroke_width_is_taken_for_width :
  parseSvgFile (Some (dq "<svg viewBox='0 0 24 24'><path stroke-width='2'/></svg>"))
  = Some {| p_body := dq "<path stroke-width='2'/>";
            p_width := of_Z 2; p_height := of_Z 24; p_viewBox := "0 0 24 24" |}.
Proof. vm_compute. reflexivity. Qed.

(** C7, evaluated at a text whose svg element has no viewBox attribute,
    and whose child has the attribute data-viewBox: the pattern for the
    viewBox finds the value of data-viewBox, and the text is parsed. *)
Example data_viewBox_is_taken_for_viewBox :
  parseSvgFile (Some (dq "<svg><path data-viewBox='x' d='M0 0'/></svg>"))
  = Some {| p_body := dq "<path data-viewBox='x' d='M0 0'/>";
            p_width := of_Z 512; p_height := of_Z 512; p_viewBox := "x" |}.
Proof. vm_compute. reflexivity. Qed.

End Examples.
